(** * Polyphone distillation pipeline: feature encoder, training step, resumption

    A shallow embedding of [distillation/hidden_distillation.py].  Python
    integers are [Z], Python [str] values are lists of Unicode code points,
    lists are [list] with Python's index rules (negative indices wrap, an
    index out of range raises [IndexError]), dicts are [gmap], and a raised
    exception is the [Raise] branch of [result]. *)

From Stdlib Require Import ZArith QArith Lia Lqa String Ascii Decimal DecimalZ.
From stdpp Require Import base option list gmap.

Local Open Scope Z_scope.

(** ** Python values *)

Module Py.

(** A [str] is a sequence of code points; [s[0]] is its first code point. *)
Definition pystr := list N.

Definition TAB : N := 9%N.

(** An ASCII literal of the source as a [str]. *)
Fixpoint lit (s : string) : pystr :=
  match s with
  | EmptyString => []
  | String a s' => N_of_ascii a :: lit s'
  end.

(** Where an [assert] of the source sits. *)
Inductive assert_site :=
  | TokenMatchesLabel   (* assert tokens[i + 1] == l.split('\t')[0] *)
  | TokensIdsLength     (* assert len(tokens) == len(input_ids) *)
  | InputIdsLength      (* assert len(input_ids) == max_seq_length *)
  | InputMaskLength     (* assert len(input_mask) == max_seq_length *)
  | LabelIdsLength      (* assert len(label_ids) == max_seq_length *)
  | LabelPosInRange.    (* assert label_pos < max_seq_length *)

Inductive exn :=
  | IndexError
  | KeyError (key : pystr)
  | AssertionError (site : assert_site)
  | ValueError (msg : string)
  | ZeroDivisionError
  | RuntimeError (msg : string).

Inductive result (A : Type) :=
  | Ok (a : A)
  | Raise (e : exn).
Arguments Ok {A} a.
Arguments Raise {A} e.

Definition bind {A B} (r : result A) (k : A -> result B) : result B :=
  match r with
  | Ok a => k a
  | Raise e => Raise e
  end.

Definition py_assert (b : bool) (site : assert_site) : result unit :=
  if b then Ok tt else Raise (AssertionError site).

(** [for x in xs: acc = f acc x], stopping at the first exception. *)
Fixpoint foldM {A B} (f : B -> A -> result B) (acc : B) (xs : list A) : result B :=
  match xs with
  | [] => Ok acc
  | x :: xs' => bind (f acc x) (fun acc' => foldM f acc' xs')
  end.

Fixpoint mapM {A B} (f : A -> result B) (xs : list A) : result (list B) :=
  match xs with
  | [] => Ok []
  | x :: xs' => bind (f x) (fun y => bind (mapM f xs') (fun ys => Ok (y :: ys)))
  end.

(** Index normalisation of a sequence of length [len]. *)
Definition py_index (len : nat) (i : Z) : result nat :=
  if (0 <=? i) && (i <? Z.of_nat len) then Ok (Z.to_nat i)
  else if (- Z.of_nat len <=? i) && (i <? 0) then Ok (Z.to_nat (i + Z.of_nat len))
  else Raise IndexError.

(** [l[i]] *)
Definition getitem {A} (l : list A) (i : Z) : result A :=
  bind (py_index (length l) i) (fun k =>
  match l !! k with
  | Some x => Ok x
  | None => Raise IndexError
  end).

(** [l[i] = x] *)
Definition setitem {A} (l : list A) (i : Z) (x : A) : result (list A) :=
  bind (py_index (length l) i) (fun k => Ok (<[k := x]> l)).

(** [l[:stop]] *)
Definition slice_to {A} (l : list A) (stop : Z) : list A :=
  if stop <? 0 then take (Z.to_nat (Z.of_nat (length l) + stop)) l
  else take (Z.to_nat stop) l.

(** [[x] * n], empty when [n <= 0]. *)
Definition list_repeat {A} (x : A) (n : Z) : list A := replicate (Z.to_nat n) x.

(** [enumerate(l)] *)
Definition enumerate {A} (l : list A) : list (nat * A) := imap (fun i x => (i, x)) l.

(** [d[k]] on a dict with [str] keys. *)
Definition dict_get {V} (d : gmap pystr V) (k : pystr) : result V :=
  match d !! k with
  | Some v => Ok v
  | None => Raise (KeyError k)
  end.

(** [max(l)] *)
Definition py_max (l : list Z) : result Z :=
  match l with
  | [] => Raise (ValueError "max() arg is an empty sequence")
  | x :: l' => Ok (foldl Z.max x l')
  end.

(** ['\t' in s] *)
Definition has_tab (s : pystr) : bool := bool_decide (TAB ∈ s).

(** [s.split('\t')[0]]: the part before the first separator. *)
Fixpoint before_tab (s : pystr) : pystr :=
  match s with
  | [] => []
  | c :: s' => if N.eqb c TAB then [] else c :: before_tab s'
  end.

End Py.

Export Py.

Declare Scope py_scope.
Notation "'let*' x ':=' r 'in' k" := (bind r (fun x => k))
  (at level 10, x name, r at level 100, k at level 200) : py_scope.
Local Open Scope py_scope.

(** ** The feature encoder: [convert_examples_to_features] *)

Module Encoder.

Record InputExample := {
  guid : pystr;
  text : list pystr;
  char : pystr;
  label : list (Z * pystr);
  position : Z
}.

Record InputFeatures := {
  input_ids : list Z;
  input_mask : list Z;
  label_id : list Z;
  label_pos : Z;
  f_char : pystr
}.

(** What the encoder prints: the progress counter and, for an annotation
    dropped by the [except] clause, the exception and [(tokens, i, l)]. *)
Inductive event :=
  | Progress (ex_index : nat)
  | Skipped (e : exn) (tokens : list pystr) (i : Z) (l : pystr).

Definition CLS : pystr := lit "[CLS]".
Definition SEP : pystr := lit "[SEP]".

(** [if '\t' not in l: l = l[0] + '\t' + l[1:]] *)
Definition adapt_label (l : pystr) : result pystr :=
  if has_tab l then Ok l
  else let* c := getitem l 0 in Ok ([c] ++ [TAB] ++ drop 1 l).

(** The first loop: the label list is rewritten in place. *)
Definition adapt_label_list (label_list : list pystr) : result (list pystr) :=
  mapM adapt_label label_list.

(** [{label: i for i, label in enumerate(label_list)}], then ['_'] mapped to -1. *)
Definition build_label_map (label_list : list pystr) : gmap pystr Z :=
  <[lit "_" := -1]>
    (foldl (fun m il => <[il.2 := Z.of_nat il.1]> m) ∅ (enumerate label_list)).

(** [{label.split('\t')[0]: [] for label in label_list}] followed by the
    loop appending [label_map[label]] to the list of the label's character. *)
Definition init_label_word (label_list : list pystr) : gmap pystr (list Z) :=
  foldl (fun m l => <[before_tab l := []]> m) ∅ label_list.

Definition build_label_word (label_map : gmap pystr Z) (label_list : list pystr)
  : result (gmap pystr (list Z)) :=
  foldM (fun lw l =>
           let* ids := dict_get lw (before_tab l) in
           let* idx := dict_get label_map l in
           Ok (<[before_tab l := ids ++ [idx]]> lw))
        (init_label_word label_list) label_list.

(** [torch.ones(r, c)] *)
Definition ones (r c : nat) : list (list Z) := replicate r (replicate c 1).

(** [masks[i, cols] = 0] *)
Definition zero_columns (masks : list (list Z)) (i : Z) (cols : list Z)
  : result (list (list Z)) :=
  let* row := getitem masks i in
  let* row' := foldM (fun r c => setitem r c 0) row cols in
  setitem masks i row'.

(** The label mask, one square matrix stacked 8 times. *)
Definition build_masks (label_map : gmap pystr Z) (label_list : list pystr)
  : result (list (list (list Z))) :=
  let* label_word := build_label_word label_map label_list in
  let n := length label_list in
  let* masks := foldM (fun m il =>
                         let* cols := dict_get label_word (before_tab il.2) in
                         zero_columns m (Z.of_nat il.1) cols)
                      (ones n n) (enumerate label_list) in
  Ok (replicate 8 masks).

(** [torch.tril(m, k)] keeps the entries with [j - i <= k]; [torch.triu(m, k)]
    those with [j - i >= k]. *)
Definition tril (m : list (list Z)) (k : Z) : list (list Z) :=
  imap (fun i row =>
          imap (fun j x => if Z.of_nat j - Z.of_nat i <=? k then x else 0) row) m.

Definition triu (m : list (list Z)) (k : Z) : list (list Z) :=
  imap (fun i row =>
          imap (fun j x => if k <=? Z.of_nat j - Z.of_nat i then x else 0) row) m.

(** [t[lo:hi, :, :] = m] *)
Definition assign_heads (lo hi : nat) (m : list (list Z)) (t : list (list (list Z)))
  : list (list (list Z)) :=
  imap (fun h old => if (lo <=? h)%nat && (h <? hi)%nat then m else old) t.

(** The hybrid attention mask: 12 heads, stacked 8 times. *)
Definition build_attention_mask (max_seq_length : Z)
  : result (list (list (list (list Z)))) :=
  if max_seq_length <? 0
  then Raise (RuntimeError "negative dimension")
  else
    let n := Z.to_nat max_seq_length in
    let a0 := replicate 12 (ones n n) in
    let a1 := assign_heads 0 2 (tril (ones n n) 0) a0 in
    let a2 := assign_heads 2 4 (triu (ones n n) 0) a1 in
    let a3 := assign_heads 4 6 (triu (tril (ones n n) 1) (-1)) a2 in
    Ok (replicate 8 a3).

(** The body of the [try] of one annotation [(i, l)]: the adapted label when
    the token at [i + 1] is the label's character. *)
Definition check_annotation (tokens : list pystr) (i : Z) (l : pystr)
  : result pystr * pystr :=
  match adapt_label l with
  | Raise e => (Raise e, l)
  | Ok l' =>
      (let* tok := getitem tokens (i + 1) in
       let* _ := py_assert (bool_decide (tok = before_tab l')) TokenMatchesLabel in
       Ok l', l')
  end.

(** The per-example state of the annotation loop. *)
Record annot_state := {
  st_label_ids : list Z;
  st_label_count : list Z;
  st_log : list event
}.

(** One turn of [for i, l in example.label]: on any exception of the [try]
    the annotation is printed and skipped, otherwise the [else] clause
    records the label index and counts it (outside the [try]). *)
Definition annotate (label_map : gmap pystr Z) (tokens : list pystr)
    (st : annot_state) (il : Z * pystr) : result annot_state :=
  let i := il.1 in
  match check_annotation tokens i il.2 with
  | (Raise e, l) =>
      Ok {| st_label_ids := st_label_ids st;
            st_label_count := st_label_count st;
            st_log := st_log st ++ [Skipped e tokens i l] |}
  | (Ok l, _) =>
      let* idx := dict_get label_map l in
      let* label_ids := setitem (st_label_ids st) (i + 1) idx in
      let* idx' := dict_get label_map l in
      let* c := getitem (st_label_count st) idx' in
      let* label_count := setitem (st_label_count st) idx' (c + 1) in
      Ok {| st_label_ids := label_ids;
            st_label_count := label_count;
            st_log := st_log st |}
  end.

Section WithTokenizer.

(** [tokenizer.convert_tokens_to_ids], the tokenizer of the pretrained model. *)
Variable convert_tokens_to_ids : list pystr -> result (list Z).

(** The wrapped token sequence of an example. *)
Definition wrap_tokens (max_seq_length : Z) (tokens_a : list pystr) : list pystr :=
  let tokens_a :=
    if Z.of_nat (length tokens_a) >? max_seq_length - 2
    then slice_to tokens_a (max_seq_length - 2)
    else tokens_a in
  [CLS] ++ tokens_a ++ [SEP].

(** The body of [for (ex_index, example) in enumerate(examples)]; the running
    counts and the printed lines are threaded through. *)
Definition convert_example (label_map : gmap pystr Z) (max_seq_length : Z)
    (label_count : list Z) (log : list event) (ex_index : nat) (example : InputExample)
  : result (InputFeatures * list Z * list event) :=
  let log := if Z.of_nat ex_index mod 100000 =? 0 then log ++ [Progress ex_index] else log in
  let tokens := wrap_tokens max_seq_length (text example) in
  let* input_ids := convert_tokens_to_ids tokens in
  let* _ := py_assert (length tokens =? length input_ids)%nat TokensIdsLength in
  let input_mask := list_repeat 1 (Z.of_nat (length input_ids)) in
  let label_ids := list_repeat (-1) max_seq_length in
  let* st := foldM (annotate label_map tokens)
          {| st_label_ids := label_ids; st_label_count := label_count; st_log := log |}
          (label example) in
  let padding := list_repeat 0 (max_seq_length - Z.of_nat (length input_ids)) in
  let input_ids := input_ids ++ padding in
  let input_mask := input_mask ++ padding in
  let* _ := py_assert (Z.of_nat (length input_ids) =? max_seq_length) InputIdsLength in
  let* _ := py_assert (Z.of_nat (length input_mask) =? max_seq_length) InputMaskLength in
  let* _ := py_assert (Z.of_nat (length (st_label_ids st)) =? max_seq_length) LabelIdsLength in
  let label_pos := position example + 1 in
  let* _ := py_assert (label_pos <? max_seq_length) LabelPosInRange in
  Ok ({| input_ids := input_ids;
         input_mask := input_mask;
         label_id := st_label_ids st;
         label_pos := label_pos;
         f_char := char example |},
      st_label_count st, st_log st).

(** The state of the loop over the examples. *)
Record loop_state := {
  ls_features : list InputFeatures;
  ls_label_count : list Z;
  ls_log : list event
}.

Definition convert_loop (label_map : gmap pystr Z) (max_seq_length : Z)
    (label_count : list Z) (examples : list InputExample) : result loop_state :=
  foldM (fun ls ie =>
           let* r := convert_example label_map max_seq_length
                  (ls_label_count ls) (ls_log ls) ie.1 ie.2 in
           Ok {| ls_features := ls_features ls ++ [r.1.1];
                 ls_label_count := r.1.2;
                 ls_log := r.2 |})
        {| ls_features := []; ls_label_count := label_count; ls_log := [] |}
        (enumerate examples).

(** Rounding of an exact quotient to the stored floating-point weight: the
    division yields a binary64 value, [torch.FloatTensor] stores binary32. *)
Variable fl : Q -> Q.

(** [[(max(label_count) / (lc + 100))**1 for lc in label_count]] *)
Definition class_weight (label_count : list Z) : result (list Q) :=
  let* m := py_max label_count in
  mapM (fun lc =>
          if lc + 100 =? 0 then Raise ZeroDivisionError
          else Ok (fl (inject_Z m / inject_Z (lc + 100))%Q))
       label_count.

(** What a call amounts to: the label list as rewritten in place, the
    returned tuple [(features, masks, weight, attention_mask)], and, to state
    properties of them, the final value of [label_count] and the printed
    lines. *)
Record encoded := {
  enc_label_list : list pystr;
  enc_features : list InputFeatures;
  enc_masks : list (list (list Z));
  enc_weight : list (list Q);
  enc_attention_mask : list (list (list (list Z)));
  enc_label_count : list Z;
  enc_log : list event
}.

Definition convert_examples_to_features (examples : list InputExample)
    (label_list : list pystr) (max_seq_length : Z) : result encoded :=
  let* label_list := adapt_label_list label_list in
  let label_map := build_label_map label_list in
  let label_count := list_repeat 0 (Z.of_nat (length label_list)) in
  let* masks := build_masks label_map label_list in
  let* attention_mask := build_attention_mask max_seq_length in
  let* ls := convert_loop label_map max_seq_length label_count examples in
  let* weight := class_weight (ls_label_count ls) in
  Ok {| enc_label_list := label_list;
        enc_features := ls_features ls;
        enc_masks := masks;
        enc_weight := replicate 8 weight;
        enc_attention_mask := attention_mask;
        enc_label_count := ls_label_count ls;
        enc_log := ls_log ls |}.

End WithTokenizer.

(** A tokenizer for examples: the id of a token is its first code point. *)
Definition first_code_point_ids (tokens : list pystr) : result (list Z) :=
  Ok (map (fun t => match t with [] => 0 | c :: _ => Z.of_N c end) tokens).

(** The spec's vocabulary: the character U+5F39 with two readings. *)
Definition dan4 : pystr := [24377%N; TAB] ++ lit "dan4".
Definition tan2 : pystr := [24377%N; TAB] ++ lit "tan2".

End Encoder.

(** ** The run: feature preparation, training loop, resumption *)

Module Run.
Import Encoder.

(** *** Feature preparation in [main] *)

Record prepared := {
  train_features : list InputFeatures;
  eval_features : option (list InputFeatures);
  masks : option (list (list (list Z)));
  weight : option (list (list Q));
  hybrid_mask : option (list (list (list (list Z))));
  label_list : list pystr
}.

Section Prepare.

Variable convert_tokens_to_ids : list pystr -> result (list Z).
Variable fl : Q -> Q.

(** The [if args.do_train:] block up to the flags: one call for the training
    set and, with [--eval_every_epoch], a second one for the evaluation set
    whose tuple overwrites [masks], [weight] and [hybrid_mask].  Both calls
    receive the same list object [label_list]. *)
Definition prepare_features (eval_every_epoch no_logit_mask use_weight hybrid_attention : bool)
    (max_seq_length : Z) (label_list : list pystr)
    (train_examples eval_examples : list InputExample) : result prepared :=
  let* enc := convert_examples_to_features convert_tokens_to_ids fl
                train_examples label_list max_seq_length in
  let* last :=
    (if eval_every_epoch
     then convert_examples_to_features convert_tokens_to_ids fl
            eval_examples (enc_label_list enc) max_seq_length
     else Ok enc) in
  Ok {| train_features := enc_features enc;
        eval_features := if eval_every_epoch then Some (enc_features last) else None;
        masks := if no_logit_mask then None else Some (enc_masks last);
        weight := if use_weight then Some (enc_weight last) else None;
        hybrid_mask := if hybrid_attention then Some (enc_attention_mask last) else None;
        label_list := enc_label_list last |}.

End Prepare.

(** *** The training loop *)

Record train_args := {
  fp16 : bool;
  n_gpu : Z;
  gradient_accumulation_steps : Z;
  learning_rate : Q;
  warmup_proportion : Q;
  num_train_optimization_steps : Z;
  num_train_epochs : Z
}.

Section Loop.

(** The loss tensor returned by the student and the operations the loop
    applies to it. *)
Variable tensor : Type.
Variable mean : tensor -> tensor.
Variable div : tensor -> Z -> tensor.
Variable item : tensor -> Q.

(** [warmup_linear] of the optimisation module. *)
Variable warmup_linear : Q -> Q -> Q.

(** What the loop asks of the optimizer and of the file system, in order. *)
Inductive op :=
  | Backward (through_optimizer : bool) (loss : tensor)
  | SetLR (lr : Q)
  | Step
  | ZeroGrad
  | SaveCheckpoint (epoch : Z).

Record train_state := {
  global_step : Z;
  tr_loss : Q;
  nb_tr_examples : Z;
  nb_tr_steps : Z;
  ops : list op
}.

(** One batch: its size and the loss the student returned for it. *)
Record batch := {
  batch_size : Z;
  batch_loss : tensor
}.

(** The body of [for step, batch in enumerate(train_dataloader)]. *)
Definition train_step (args : train_args) (st : train_state) (step : nat) (b : batch)
  : result train_state :=
  let loss := batch_loss b in
  let loss := if n_gpu args >? 1 then mean loss else loss in
  let loss := if gradient_accumulation_steps args >? 1
              then div loss (gradient_accumulation_steps args) else loss in
  let ops1 := ops st ++ [Backward (fp16 args) loss] in
  let tr_loss := (tr_loss st + item loss)%Q in
  let nb_tr_examples := nb_tr_examples st + batch_size b in
  let nb_tr_steps := nb_tr_steps st + 1 in
  if gradient_accumulation_steps args =? 0 then Raise ZeroDivisionError
  else if (Z.of_nat step + 1) mod gradient_accumulation_steps args =? 0 then
    let* ops2 :=
      (if fp16 args then
         if num_train_optimization_steps args =? 0 then Raise ZeroDivisionError
         else
           let lr_this_step :=
             (learning_rate args *
              warmup_linear (inject_Z (global_step st) /
                             inject_Z (num_train_optimization_steps args))
                            (warmup_proportion args))%Q in
           Ok (ops1 ++ [SetLR lr_this_step])
       else Ok ops1) in
    Ok {| global_step := global_step st + 1;
          tr_loss := tr_loss;
          nb_tr_examples := nb_tr_examples;
          nb_tr_steps := nb_tr_steps;
          ops := ops2 ++ [Step; ZeroGrad] |}
  else
    Ok {| global_step := global_step st;
          tr_loss := tr_loss;
          nb_tr_examples := nb_tr_examples;
          nb_tr_steps := nb_tr_steps;
          ops := ops1 |}.

(** One epoch over the batches of the data loader, closed by the save of
    the epoch's checkpoint. *)
Definition train_epoch (args : train_args) (batches : list batch)
    (st : train_state) (ep : Z) : result train_state :=
  let st0 := {| global_step := global_step st;
                tr_loss := 0;
                nb_tr_examples := 0;
                nb_tr_steps := 0;
                ops := ops st |} in
  let* st1 := foldM (fun s ib => train_step args s ib.1 ib.2) st0 (enumerate batches) in
  Ok {| global_step := global_step st1;
        tr_loss := tr_loss st1;
        nb_tr_examples := nb_tr_examples st1;
        nb_tr_steps := nb_tr_steps st1;
        ops := ops st1 ++ [SaveCheckpoint ep] |}.

(** [for ep in trange(int(args.num_train_epochs))]; [batches ep] is what the
    sampler yields in epoch [ep]. *)
Definition train (args : train_args) (batches : Z -> list batch) (st : train_state)
  : result train_state :=
  foldM (fun s ep => train_epoch args (batches ep) s ep) st
        (map Z.of_nat (seq 0 (Z.to_nat (num_train_epochs args)))).

End Loop.

Arguments Backward {tensor}.
Arguments SetLR {tensor}.
Arguments Step {tensor}.
Arguments ZeroGrad {tensor}.
Arguments SaveCheckpoint {tensor}.
Arguments global_step {tensor}.
Arguments tr_loss {tensor}.
Arguments nb_tr_examples {tensor}.
Arguments nb_tr_steps {tensor}.
Arguments ops {tensor}.
Arguments batch_size {tensor}.
Arguments batch_loss {tensor}.

(** A linear warm-up to run the loop on: [x / warmup] below [warmup], then
    [1 - x]. *)
Definition warmup_linear_ramp (x warmup : Q) : Q :=
  if Qlt_le_dec x warmup then (x / warmup)%Q else (1 - x)%Q.

(** *** Resumption from the output directory *)

Definition UNDERSCORE : N := 95%N.

(** [s.split('_')[-1]]: the part after the last underscore. *)
Fixpoint last_field_from (acc s : pystr) : pystr :=
  match s with
  | [] => acc
  | c :: s' => if N.eqb c UNDERSCORE then last_field_from [] s'
               else last_field_from (acc ++ [c]) s'
  end.

Definition last_field (s : pystr) : pystr := last_field_from [] s.

(** Decimal digits as code points. *)
Fixpoint digits (d : Decimal.uint) : pystr :=
  match d with
  | Nil => []
  | D0 d => 48%N :: digits d
  | D1 d => 49%N :: digits d
  | D2 d => 50%N :: digits d
  | D3 d => 51%N :: digits d
  | D4 d => 52%N :: digits d
  | D5 d => 53%N :: digits d
  | D6 d => 54%N :: digits d
  | D7 d => 55%N :: digits d
  | D8 d => 56%N :: digits d
  | D9 d => 57%N :: digits d
  end.

Fixpoint parse_digits (s : pystr) : option Decimal.uint :=
  match s with
  | [] => Some Nil
  | c :: s' =>
      d ← parse_digits s';
      if N.eqb c 48 then Some (D0 d) else if N.eqb c 49 then Some (D1 d)
      else if N.eqb c 50 then Some (D2 d) else if N.eqb c 51 then Some (D3 d)
      else if N.eqb c 52 then Some (D4 d) else if N.eqb c 53 then Some (D5 d)
      else if N.eqb c 54 then Some (D6 d) else if N.eqb c 55 then Some (D7 d)
      else if N.eqb c 56 then Some (D8 d) else if N.eqb c 57 then Some (D9 d)
      else None
  end.

(** [str(z)] *)
Definition py_str (z : Z) : pystr :=
  match Z.to_int z with
  | Decimal.Pos d => digits d
  | Decimal.Neg d => 45%N :: digits d
  end.

Definition is_space (c : N) : bool :=
  N.eqb c 32 || (N.leb 9 c && N.leb c 13).

Fixpoint drop_spaces (s : pystr) : pystr :=
  match s with
  | c :: s' => if is_space c then drop_spaces s' else s
  | [] => []
  end.

(** [s.strip()], for ASCII white space. *)
Definition strip (s : pystr) : pystr :=
  reverse (drop_spaces (reverse (drop_spaces s))).

(** [int(s)] for the ASCII spellings: optional white space around an optional
    sign and at least one digit.  Anything else raises [ValueError] (Python
    also reads non-ASCII digits). *)
Definition py_int (s : pystr) : result Z :=
  let s := strip s in
  let signed :=
    match s with
    | c :: r => if N.eqb c 45 then (true, r)
                else if N.eqb c 43 then (false, r) else (false, s)
    | [] => (false, s)
    end in
  match signed.2, parse_digits signed.2 with
  | _ :: _, Some d =>
      Ok (if signed.1 then - Z.of_uint d else Z.of_uint d)
  | _, _ => Raise (ValueError "invalid literal for int() with base 10")
  end.

Definition DOT : N := 46%N.
Definition NEWLINE : N := 10%N.

(** The characters with a special meaning in a regular expression, the dot
    apart. *)
Definition metachars : pystr := lit "\^$*+?{}[]|()".

(** A pattern of literal characters and dots. *)
Definition plain_pattern (pat : pystr) : Prop :=
  Forall (fun c => c ∉ metachars) pat.

Definition char_matches (p c : N) : bool :=
  if N.eqb p DOT then negb (N.eqb c NEWLINE) else N.eqb p c.

Fixpoint match_here (pat s : pystr) : bool :=
  match pat, s with
  | [], _ => true
  | p :: pat', c :: s' => char_matches p c && match_here pat' s'
  | _ :: _, [] => false
  end.

(** [re.search(pat, s)] finds a match, for a plain pattern. *)
Fixpoint re_search (pat s : pystr) : bool :=
  match_here pat s ||
  match s with
  | [] => false
  | _ :: s' => re_search pat s'
  end.

Record resume_args := {
  do_train : bool;
  no_pretrain : bool;
  config_path : pystr;
  state_dir : pystr;
  bert_model : pystr
}.

(** What the run sees of the file system: the entries of the output
    directory when it exists, and whether [state_dir] exists. *)
Record file_system := {
  output_dir : option (list pystr);
  state_dir_exists : bool
}.

(** Where the student model comes from. *)
Inductive student_source :=
  | FromCheckpoint (model_file config_file : pystr)
  | FromConfig (config : pystr)
  | FromConfigAndState (config state : pystr)
  | FromPretrained (model : pystr) (state : option pystr).

Record resumed := {
  max_epoch : Z;
  student : student_source;
  optimizer_state : option pystr
}.

Section Resume.

(** The file names of the modelling module. *)
Variable WEIGHTS_NAME CONFIG_NAME OPTIMIZER_NAME : pystr.

(** [base + '_' + str(epoch)] *)
Definition tagged (base : pystr) (epoch : Z) : pystr :=
  base ++ [UNDERSCORE] ++ py_str epoch.

(** The scan of [os.listdir(args.output_dir)]. *)
Definition find_max_epoch (files : list pystr) : result Z :=
  foldM (fun max_epoch fname =>
           if re_search WEIGHTS_NAME fname && negb (bool_decide (fname = WEIGHTS_NAME))
           then let* e := py_int (last_field fname) in Ok (Z.max max_epoch e)
           else Ok max_epoch)
        (-1) files.

(** The entries of the output directory once the student is set up (the
    other branches create the directory when it is missing). *)
Definition entries (fs : file_system) : list pystr := default [] (output_dir fs).

Definition nonempty_dir (fs : file_system) : bool :=
  match output_dir fs with
  | Some (_ :: _) => true
  | _ => false
  end.

(** The student model of [main] and the optimizer state loaded after it. *)
Definition resume (args : resume_args) (fs : file_system) : result resumed :=
  let* ms :=
    (if nonempty_dir fs && do_train args then
       let* max_epoch := find_max_epoch (entries fs) in
       if bool_decide (tagged WEIGHTS_NAME max_epoch ∈ entries fs)
       then Ok (max_epoch,
                FromCheckpoint (tagged WEIGHTS_NAME max_epoch) (tagged CONFIG_NAME 0))
       else Raise (ValueError
                     "Output directory already exists but no model checkpoint was found.")
     else if no_pretrain args then
       if bool_decide (config_path args = [])
       then Raise (ValueError "Config file is needed when not using the pretrained model")
       else Ok (-1, FromConfig (config_path args))
     else if negb (bool_decide (config_path args = [])) then
       Ok (-1, FromConfigAndState (config_path args) (state_dir args))
     else
       Ok (-1, FromPretrained (bert_model args)
                 (if negb (bool_decide (state_dir args = [])) && state_dir_exists fs
                  then Some (state_dir args) else None))) in
  Ok {| max_epoch := ms.1;
        student := ms.2;
        optimizer_state :=
          if bool_decide (tagged OPTIMIZER_NAME ms.1 ∈ entries fs)
          then Some (tagged OPTIMIZER_NAME ms.1) else None |}.

End Resume.

End Run.

(** ** The corpus reader: [DataProcessor._create_examples] *)

Module Corpus.
Import Run.

Section Values.

(** The values found in the parsed JSON; the reader only moves them. *)
Variable value : Type.

(** An [InputExample] as the reader builds it, its fields unchecked. *)
Record RawExample := {
  raw_guid : pystr;
  raw_text : value;
  raw_label : value;
  raw_position : value;
  raw_char : value
}.

(** ["%s-%s" % (0, i)] *)
Definition guid_of (i : nat) : pystr := py_str 0 ++ lit "-" ++ py_str (Z.of_nat i).

(** The body of the loop over [enumerate(dcts)]: the four keys are read in
    the order [text], [phone], [position], [char]. *)
Definition create_example (i : nat) (dct : gmap pystr value) : result RawExample :=
  let* text := dict_get dct (lit "text") in
  let* label := dict_get dct (lit "phone") in
  let* position := dict_get dct (lit "position") in
  let* char := dict_get dct (lit "char") in
  Ok {| raw_guid := guid_of i;
        raw_text := text;
        raw_label := label;
        raw_position := position;
        raw_char := char |}.

Definition _create_examples (dcts : list (gmap pystr value)) : result (list RawExample) :=
  foldM (fun examples idct =>
           let* example := create_example idct.1 idct.2 in
           Ok (examples ++ [example]))
        [] (enumerate dcts).

End Values.

Arguments raw_guid {value}.
Arguments raw_text {value}.
Arguments raw_label {value}.
Arguments raw_position {value}.
Arguments raw_char {value}.
Arguments create_example {value}.
Arguments _create_examples {value}.

End Corpus.

(** ** The evaluation helper: [accuracy_list] *)

Module Metrics.

(** A two-dimensional array: its second dimension and its rows, each of that
    length. *)
Record array2 (A : Type) := {
  columns : nat;
  rows : list (list A)
}.
Arguments columns {A}.
Arguments rows {A}.

Definition well_shaped {A} (a : array2 A) : Prop :=
  Forall (fun row => length row = columns a) (rows a).

(** The first index of the largest entry, scanning left to right from the
    running best [best] at [besti]. *)
Fixpoint argmax_from (best : Q) (besti i : nat) (row : list Q) : nat :=
  match row with
  | [] => besti
  | x :: row' =>
      if Qlt_le_dec best x then argmax_from x i (S i) row'
      else argmax_from best besti (S i) row'
  end.

Definition argmax_row (row : list Q) : nat :=
  match row with
  | [] => 0%nat
  | x :: row' => argmax_from x 0 1 row'
  end.

(** [np.argmax(out, axis=1)]: an axis of length 0 has no maximum. *)
Definition argmax_axis1 (out : array2 Q) : result (list nat) :=
  if (columns out =? 0)%nat
  then Raise (ValueError "attempt to get argmax of an empty sequence")
  else Ok (map argmax_row (rows out)).

(** [a[i, p]] *)
Definition getitem2 {A} (a : array2 A) (i p : Z) : result A :=
  let* r := py_index (length (rows a)) i in
  let* c := py_index (columns a) p in
  match rows a !! r ≫= fun row => row !! c with
  | Some x => Ok x
  | None => Raise IndexError
  end.

(** The line printed for a position without a label. *)
Record unlabelled := {
  u_output : nat;
  u_labels : list Z;
  u_position : Z
}.

Record acc_state := {
  res : list Z;
  printed : list unlabelled
}.

(** The body of [for i, p in enumerate(positions)]. *)
Definition score (outputs : list nat) (labels : array2 Z) (st : acc_state)
    (ip : nat * Z) : result acc_state :=
  let i := Z.of_nat ip.1 in
  let p := ip.2 in
  let* l := getitem2 labels i p in
  let* printed :=
    (if l =? -1 then
       let* o := getitem outputs i in
       let* row := getitem (rows labels) i in
       Ok (printed st ++ [{| u_output := o; u_labels := row; u_position := p |}])
     else Ok (printed st)) in
  let* o := getitem outputs i in
  let* l := getitem2 labels i p in
  Ok {| res := res st ++ [if Z.of_nat o =? l then 1 else 0];
        printed := printed |}.

Definition accuracy_list (out : array2 Q) (labels : array2 Z) (positions : list Z)
  : result acc_state :=
  let* outputs := argmax_axis1 out in
  foldM (score outputs labels) {| res := []; printed := [] |} (enumerate positions).

End Metrics.

(** ** The start and the end of a training run in [main] *)

Module Startup.
Import Run.

(** The checks on the arguments: the accumulation factor, the batch size per
    step [train_batch_size // gradient_accumulation_steps], and the request
    for training or evaluation.  The first message is given without the
    value that the code formats into it. *)
Definition check_args (gradient_accumulation_steps train_batch_size : Z)
    (do_train do_eval : bool) : result Z :=
  if gradient_accumulation_steps <? 1
  then Raise (ValueError "Invalid gradient_accumulation_steps parameter, should be >= 1")
  else
    let train_batch_size := train_batch_size / gradient_accumulation_steps in
    if negb do_train && negb do_eval
    then Raise (ValueError "At least one of `do_train` or `do_eval` must be True.")
    else Ok train_batch_size.

Section Steps.

(** Floating-point values and the operations [main] applies to them. *)
Variable float : Type.
Variable int_div : Z -> Z -> float.       (* int / int, the divisor not 0 *)
Variable float_div : float -> Z -> float. (* float / int, the divisor not 0 *)
Variable float_mul : float -> float -> float.
Variable ceil : float -> Z.

(** [num_train_optimization_steps] for [len(train_examples)] examples;
    [world_size] is given in a distributed run. *)
Definition optimization_steps (examples train_batch_size gradient_accumulation_steps : Z)
    (num_train_epochs : float) (world_size : option Z) : result Z :=
  if train_batch_size =? 0 then Raise ZeroDivisionError
  else if gradient_accumulation_steps =? 0 then Raise ZeroDivisionError
  else
    let steps := float_mul (float_div (int_div examples train_batch_size)
                                      gradient_accumulation_steps)
                           num_train_epochs in
    match world_size with
    | Some w => if w =? 0 then Raise ZeroDivisionError else Ok (ceil (float_div steps w))
    | None => Ok (ceil steps)
    end.

(** Argument checks, then the step count when training is requested. *)
Definition plan (gradient_accumulation_steps train_batch_size : Z)
    (do_train do_eval : bool) (examples : Z) (num_train_epochs : float)
    (world_size : option Z) : result (Z * option Z) :=
  let* bs := check_args gradient_accumulation_steps train_batch_size do_train do_eval in
  if do_train
  then let* steps := optimization_steps examples bs gradient_accumulation_steps
                       num_train_epochs world_size in
       Ok (bs, Some steps)
  else Ok (bs, None).

End Steps.

Section Files.

Variable WEIGHTS_NAME CONFIG_NAME OPTIMIZER_NAME : pystr.

(** The files written at the end of epoch [ep]: weights, optimizer state,
    configuration. *)
Definition epoch_files (ep : Z) : list pystr :=
  [tagged WEIGHTS_NAME ep; tagged OPTIMIZER_NAME ep; tagged CONFIG_NAME ep].

(** The files written after the last epoch. *)
Definition final_files : list pystr := [WEIGHTS_NAME; OPTIMIZER_NAME; CONFIG_NAME].

(** The files a run writes, from the operations of its loop. *)
Definition files_written {tensor} (l : list (op tensor)) : list pystr :=
  mbind (M := list)
    (fun o => match o with SaveCheckpoint ep => epoch_files ep | _ => [] end) l
  ++ final_files.

End Files.

(** The backward passes whose gradients no optimizer step has consumed yet:
    those since the last gradient reset. *)
Definition pending {tensor} (l : list (op tensor)) : nat :=
  foldl (fun n o => match o with
                    | Backward _ _ => S n
                    | ZeroGrad => 0%nat
                    | _ => n
                    end) 0%nat l.

End Startup.

(** ** Facts about the Python operations *)

Module PyFacts.

Lemma bind_Ok {A B} (r : result A) (k : A -> result B) (b : B) :
  bind r k = Ok b -> exists a, r = Ok a /\ k a = Ok b.
Proof. destruct r as [a|e]; simpl; [eauto | discriminate]. Qed.

Lemma py_assert_Ok b site u : py_assert b site = Ok u -> b = true.
Proof. destruct b; [reflexivity | discriminate]. Qed.

Lemma foldM_app {A B} (f : B -> A -> result B) (xs ys : list A) (acc : B) :
  foldM f acc (xs ++ ys) = bind (foldM f acc xs) (fun acc' => foldM f acc' ys).
Proof.
  revert acc. induction xs as [|x xs IH]; intros acc; simpl; [reflexivity|].
  destruct (f acc x) as [acc'|e]; simpl; [apply IH | reflexivity].
Qed.

Lemma enumerate_snoc {A} (l : list A) (x : A) :
  enumerate (l ++ [x]) = enumerate l ++ [(length l, x)].
Proof.
  unfold enumerate. rewrite imap_app. simpl. by rewrite Nat.add_0_r.
Qed.

Lemma py_index_Ok len i k :
  py_index len i = Ok k ->
  (k < len)%nat /\
  ((0 <= i /\ Z.of_nat k = i) \/ (i < 0 /\ Z.of_nat k = i + Z.of_nat len)).
Proof.
  unfold py_index.
  destruct (0 <=? i) eqn:H0; destruct (i <? Z.of_nat len) eqn:H1; simpl;
    [ intros [= <-]; lia | | | ];
    (destruct (- Z.of_nat len <=? i) eqn:H2; destruct (i <? 0) eqn:H3; simpl;
     [ intros [= <-]; lia | discriminate.. ]).
Qed.

Lemma py_index_nonneg len i :
  0 <= i < Z.of_nat len -> py_index len i = Ok (Z.to_nat i).
Proof.
  intros [H0 H1]. unfold py_index.
  apply Z.leb_le in H0. apply Z.ltb_lt in H1. by rewrite H0, H1.
Qed.

Lemma py_index_beyond len i :
  Z.of_nat len <= i -> py_index len i = Raise IndexError.
Proof.
  intros H. unfold py_index.
  destruct (0 <=? i) eqn:H0; destruct (i <? Z.of_nat len) eqn:H1; simpl; try lia;
    destruct (- Z.of_nat len <=? i) eqn:H2; destruct (i <? 0) eqn:H3; simpl;
    try reflexivity; lia.
Qed.

Lemma getitem_Ok {A} (l : list A) i x :
  getitem l i = Ok x -> exists k, py_index (length l) i = Ok k /\ l !! k = Some x.
Proof.
  unfold getitem. intros H. apply bind_Ok in H as (k & Hk & H).
  exists k. split; [done|]. destruct (l !! k); by inversion H.
Qed.

Lemma getitem_index {A} (l : list A) i k x :
  py_index (length l) i = Ok k -> l !! k = Some x -> getitem l i = Ok x.
Proof. unfold getitem. intros -> Hx. simpl. by rewrite Hx. Qed.

Lemma getitem_beyond {A} (l : list A) i :
  Z.of_nat (length l) <= i -> getitem l i = Raise IndexError.
Proof. intros H. unfold getitem. by rewrite py_index_beyond. Qed.

Lemma setitem_Ok {A} (l l' : list A) i x :
  setitem l i x = Ok l' -> exists k, py_index (length l) i = Ok k /\ l' = <[k := x]> l.
Proof.
  unfold setitem. intros H. apply bind_Ok in H as (k & Hk & [= <-]). eauto.
Qed.

Lemma setitem_length {A} (l l' : list A) i x :
  setitem l i x = Ok l' -> length l' = length l.
Proof. intros (k & _ & ->)%setitem_Ok. apply length_insert. Qed.

Lemma has_tab_true s : has_tab s = true <-> TAB ∈ s.
Proof. unfold has_tab. by rewrite bool_decide_eq_true. Qed.

Lemma has_tab_false s : has_tab s = false <-> TAB ∉ s.
Proof. unfold has_tab. by rewrite bool_decide_eq_false. Qed.

Lemma underscore_has_no_tab : has_tab (lit "_") = false.
Proof. reflexivity. Qed.

Lemma py_max_spec l m :
  py_max l = Ok m -> m ∈ l /\ forall x, x ∈ l -> x <= m.
Proof.
  destruct l as [|x l]; [discriminate|]. simpl. intros [= <-].
  assert (G : forall l a, (foldl Z.max a l = a \/ foldl Z.max a l ∈ l) /\
                          a <= foldl Z.max a l /\
                          forall y, y ∈ l -> y <= foldl Z.max a l).
  { clear. induction l as [|b l IH]; intros a; simpl.
    - split; [by left|]. split; [lia|]. intros y Hy. by apply elem_of_nil in Hy.
    - destruct (IH (Z.max a b)) as (Hm & Hle & Hall). split; [|split].
      + destruct Hm as [Hm|Hm].
        * rewrite Hm. destruct (Z.max_spec a b) as [[_ ->]|[_ ->]];
            [right; left | by left].
        * right. by right.
      + lia.
      + intros y [->|Hy]%elem_of_cons; [lia | by apply Hall]. }
  destruct (G l x) as (Hm & Hle & Hall). split.
  - destruct Hm as [->|Hm]; [left | by right].
  - intros y [->|Hy]%elem_of_cons; [done | by apply Hall].
Qed.

End PyFacts.

(** ** Properties of the feature encoder *)

Module EncoderSpec.
Import PyFacts Encoder.

(** *** The label vocabulary *)

Lemma adapt_label_has_tab l l' : adapt_label l = Ok l' -> has_tab l' = true.
Proof.
  unfold adapt_label. destruct (has_tab l) eqn:Ht.
  - by intros [= <-].
  - intros (c & _ & [= <-])%bind_Ok. apply has_tab_true. simpl. set_solver.
Qed.

Lemma adapt_label_fixed l : has_tab l = true -> adapt_label l = Ok l.
Proof. unfold adapt_label. by intros ->. Qed.

Lemma adapt_label_Raise l e : adapt_label l = Raise e -> e = IndexError /\ l = [].
Proof.
  unfold adapt_label. destruct (has_tab l); [discriminate|].
  destruct l as [|c l]; [by intros [= <-] | discriminate].
Qed.

Lemma mapM_Ok_Forall2 {A B} (f : A -> result B) xs ys :
  mapM f xs = Ok ys -> Forall2 (fun x y => f x = Ok y) xs ys.
Proof.
  revert ys. induction xs as [|x xs IH]; simpl; intros ys.
  - intros [= <-]. constructor.
  - intros (y & Hy & (ys' & Hys & [= <-])%bind_Ok)%bind_Ok.
    constructor; [done | by apply IH].
Qed.

Lemma mapM_fixed {A} (f : A -> result A) xs :
  Forall (fun x => f x = Ok x) xs -> mapM f xs = Ok xs.
Proof.
  induction 1 as [|x xs Hx _ IH]; simpl; [done|]. by rewrite Hx, IH.
Qed.

Lemma adapt_label_list_has_tab ll ll' :
  adapt_label_list ll = Ok ll' -> Forall (fun l => has_tab l = true) ll'.
Proof.
  intros H%mapM_Ok_Forall2. induction H as [|x y xs ys Hxy _ IH]; constructor;
    [by eapply adapt_label_has_tab | done].
Qed.

Lemma adapt_label_list_length ll ll' :
  adapt_label_list ll = Ok ll' -> length ll' = length ll.
Proof. intros H%mapM_Ok_Forall2. symmetry. by eapply Forall2_length. Qed.

(** Adapting an adapted list changes nothing. *)
Lemma adapt_label_list_idempotent ll ll' :
  adapt_label_list ll = Ok ll' -> adapt_label_list ll' = Ok ll'.
Proof.
  intros H%adapt_label_list_has_tab. apply mapM_fixed.
  eapply Forall_impl; [exact H|]. intros l Hl. by apply adapt_label_fixed.
Qed.

(** The dict comprehension keeps, for a label, the index of its last
    occurrence in the list. *)
Definition last_occurrence (ll : list pystr) (l : pystr) (k : nat) : Prop :=
  ll !! k = Some l /\ forall k', (k < k')%nat -> ll !! k' <> Some l.

Lemma enumerate_map_lookup (ll : list pystr) (l : pystr) (z : Z) :
  foldl (fun m il => <[il.2 := Z.of_nat il.1]> m)
        (∅ : gmap pystr Z) (enumerate ll) !! l = Some z <->
  exists k, z = Z.of_nat k /\ last_occurrence ll l k.
Proof.
  revert z. induction ll as [|x ll IH] using rev_ind; intros z.
  - simpl. rewrite lookup_empty. split; [discriminate|].
    intros (k & _ & Hk & _). by rewrite lookup_nil in Hk.
  - rewrite enumerate_snoc, foldl_app. simpl.
    destruct (decide (x = l)) as [->|Hne].
    + rewrite lookup_insert_eq. split.
      * intros [= <-]. exists (length ll). split; [done|]. split.
        -- by rewrite list_lookup_middle.
        -- intros k' Hk'. rewrite lookup_ge_None_2; [done|].
           rewrite length_app. simpl. lia.
      * intros (k & -> & Hk & Hlast). f_equal. f_equal.
        destruct (decide (k < length ll)%nat) as [Hlt|Hge].
        -- exfalso. apply (Hlast (length ll) Hlt). by rewrite list_lookup_middle.
        -- apply lookup_lt_Some in Hk. rewrite length_app in Hk. simpl in Hk. lia.
    + rewrite lookup_insert_ne by done. rewrite IH. split.
      * intros (k & -> & Hk & Hlast). exists k. split; [done|].
        pose proof (lookup_lt_Some _ _ _ Hk) as Hlt. split.
        -- by rewrite lookup_app_l.
        -- intros k' Hk'. destruct (decide (k' < length ll)%nat).
           ++ rewrite lookup_app_l by done. by apply Hlast.
           ++ intros Hx. apply Hne.
              destruct (decide (k' = length ll)) as [->|].
              ** rewrite list_lookup_middle in Hx by done. by inversion Hx.
              ** apply lookup_lt_Some in Hx. rewrite length_app in Hx.
                 simpl in Hx. lia.
      * intros (k & -> & Hk & Hlast). exists k. split; [done|].
        assert (k < length ll)%nat as Hlt.
        { destruct (decide (k < length ll)%nat); [done|]. exfalso. apply Hne.
          pose proof (lookup_lt_Some _ _ _ Hk) as Hk2. rewrite length_app in Hk2.
          simpl in Hk2. assert (k = length ll) as -> by lia.
          rewrite list_lookup_middle in Hk by done. by inversion Hk. }
        split.
        -- by rewrite lookup_app_l in Hk.
        -- intros k' Hk' Hx. apply (Hlast k' Hk').
           rewrite lookup_app_l; [done|]. by apply lookup_lt_Some in Hx.
Qed.

Lemma build_label_map_lookup (ll : list pystr) (l : pystr) (z : Z) :
  l <> lit "_" ->
  build_label_map ll !! l = Some z <->
  exists k, z = Z.of_nat k /\ last_occurrence ll l k.
Proof.
  intros Hne. unfold build_label_map. rewrite lookup_insert_ne by done.
  apply enumerate_map_lookup.
Qed.

Lemma tabbed_not_underscore l : has_tab l = true -> l <> lit "_".
Proof. intros Ht ->. by rewrite underscore_has_no_tab in Ht. Qed.

(** A label carrying the separator is mapped to a position of the list. *)
Lemma build_label_map_range (ll : list pystr) (l : pystr) (z : Z) :
  has_tab l = true -> build_label_map ll !! l = Some z ->
  0 <= z < Z.of_nat (length ll) /\ ll !! Z.to_nat z = Some l.
Proof.
  intros Ht Hz. apply build_label_map_lookup in Hz as (k & -> & Hk & _);
    [|by apply tabbed_not_underscore].
  rewrite Nat2Z.id. split; [|done]. apply lookup_lt_Some in Hk. lia.
Qed.

(** Every label of the list has an index. *)
Lemma build_label_map_total (ll : list pystr) (l : pystr) :
  has_tab l = true -> l ∈ ll -> exists z, build_label_map ll !! l = Some z.
Proof.
  intros Ht Hin.
  assert (exists k, last_occurrence ll l k) as (k & Hk).
  { clear Ht. induction ll as [|x ll IH] using rev_ind;
      [by apply elem_of_nil in Hin|].
    destruct (decide (x = l)) as [->|Hne].
    - exists (length ll). split; [by rewrite list_lookup_middle|].
      intros k' Hk'. rewrite lookup_ge_None_2; [done|].
      rewrite length_app. simpl. lia.
    - destruct (proj1 (elem_of_app _ _ _) Hin) as [Hl|Hl];
        [|apply list_elem_of_singleton in Hl; congruence].
      destruct (IH Hl) as (k & Hk & Hlast). exists k.
      pose proof (lookup_lt_Some _ _ _ Hk) as Hlt. split.
      + by rewrite lookup_app_l.
      + intros k' Hk' Hx. destruct (decide (k' < length ll)%nat).
        * rewrite lookup_app_l in Hx by done. by apply (Hlast k').
        * apply Hne. destruct (decide (k' = length ll)) as [->|].
          -- rewrite list_lookup_middle in Hx by done. by inversion Hx.
          -- apply lookup_lt_Some in Hx. rewrite length_app in Hx. simpl in Hx. lia. }
  exists (Z.of_nat k). apply build_label_map_lookup; [by apply tabbed_not_underscore|].
  eauto.
Qed.

(** In a list without repetition every position is the index of its label. *)
Lemma build_label_map_NoDup (ll : list pystr) (k : nat) (l : pystr) :
  NoDup ll -> has_tab l = true -> ll !! k = Some l ->
  build_label_map ll !! l = Some (Z.of_nat k).
Proof.
  intros Hnd Ht Hk. apply build_label_map_lookup; [by apply tabbed_not_underscore|].
  exists k. split; [done|]. split; [done|]. intros k' Hk' Hx.
  pose proof (NoDup_lookup _ _ _ _ Hnd Hk Hx). lia.
Qed.

(** *** One annotation *)

Definition skip (st : annot_state) (e : exn) (tokens : list pystr) (i : Z) (l : pystr)
  : annot_state :=
  {| st_label_ids := st_label_ids st;
     st_label_count := st_label_count st;
     st_log := st_log st ++ [Skipped e tokens i l] |}.

Lemma check_annotation_match tokens i l l' :
  adapt_label l = Ok l' -> getitem tokens (i + 1) = Ok (before_tab l') ->
  check_annotation tokens i l = (Ok l', l').
Proof.
  intros Hl Ht. unfold check_annotation. rewrite Hl, Ht. simpl.
  by rewrite bool_decide_eq_true_2.
Qed.

Lemma check_annotation_mismatch tokens i l l' tok :
  adapt_label l = Ok l' -> getitem tokens (i + 1) = Ok tok -> tok <> before_tab l' ->
  check_annotation tokens i l = (Raise (AssertionError TokenMatchesLabel), l').
Proof.
  intros Hl Ht Hne. unfold check_annotation. rewrite Hl, Ht. simpl.
  by rewrite bool_decide_eq_false_2.
Qed.

Lemma check_annotation_beyond tokens i l :
  Z.of_nat (length tokens) <= i + 1 ->
  exists l0, (l0 = l \/ adapt_label l = Ok l0) /\
             check_annotation tokens i l = (Raise IndexError, l0).
Proof.
  intros Hi. unfold check_annotation. destruct (adapt_label l) as [l'|e] eqn:Hl.
  - exists l'. split; [by right|]. by rewrite getitem_beyond.
  - apply adapt_label_Raise in Hl as [-> _]. exists l. by split; [left|].
Qed.

(** Whatever the [try] yields, the label it hands to the [else] clause
    carries the separator. *)
Lemma check_annotation_Ok tokens i l l' l0 :
  check_annotation tokens i l = (Ok l', l0) ->
  adapt_label l = Ok l' /\ getitem tokens (i + 1) = Ok (before_tab l').
Proof.
  unfold check_annotation. destruct (adapt_label l) as [l1|e]; [|discriminate].
  destruct (getitem tokens (i + 1)) as [tok|e]; simpl; [|discriminate].
  destruct (bool_decide (tok = before_tab l1)) eqn:Hb; simpl; [|discriminate].
  apply bool_decide_eq_true in Hb. by intros [= <- _]; subst.
Qed.

Lemma annotate_skip label_map tokens st i l e l0 :
  check_annotation tokens i l = (Raise e, l0) ->
  annotate label_map tokens st (i, l) = Ok (skip st e tokens i l0).
Proof. unfold annotate. simpl. by intros ->. Qed.

Lemma annotate_record label_list tokens st i l l' idx :
  (length tokens <= length (st_label_ids st))%nat ->
  length (st_label_count st) = length label_list ->
  adapt_label l = Ok l' ->
  getitem tokens (i + 1) = Ok (before_tab l') ->
  build_label_map label_list !! l' = Some idx ->
  exists k c,
    py_index (length tokens) (i + 1) = Ok k /\
    py_index (length (st_label_ids st)) (i + 1) =
      Ok (if 0 <=? i + 1 then k
          else (k + length (st_label_ids st) - length tokens)%nat) /\
    0 <= idx < Z.of_nat (length label_list) /\
    st_label_count st !! Z.to_nat idx = Some c /\
    annotate (build_label_map label_list) tokens st (i, l) =
      Ok {| st_label_ids :=
              <[(if 0 <=? i + 1 then k
                 else (k + length (st_label_ids st) - length tokens)%nat) := idx]>
                (st_label_ids st);
            st_label_count := <[Z.to_nat idx := c + 1]> (st_label_count st);
            st_log := st_log st |}.
Proof.
  intros Hlen Hcnt Hl Htok Hidx.
  pose proof (adapt_label_has_tab _ _ Hl) as Htab.
  destruct (build_label_map_range _ _ _ Htab Hidx) as [Hrange _].
  destruct (getitem_Ok _ _ _ Htok) as (k & Hk & _).
  destruct (lookup_lt_is_Some_2 (st_label_count st) (Z.to_nat idx)) as [c Hc]; [lia|].
  exists k, c. split; [done|].
  assert (py_index (length (st_label_ids st)) (i + 1) =
          Ok (if 0 <=? i + 1 then k
              else (k + length (st_label_ids st) - length tokens)%nat)) as Hk'.
  { destruct (py_index_Ok _ _ _ Hk) as [Hlt [[H0 Hki]|[H0 Hki]]].
    - replace (0 <=? i + 1) with true by (symmetry; by apply Z.leb_le).
      rewrite py_index_nonneg by lia. f_equal. lia.
    - replace (0 <=? i + 1) with false by (symmetry; apply Z.leb_gt; lia).
      unfold py_index.
      replace (0 <=? i + 1) with false by (symmetry; apply Z.leb_gt; lia).
      simpl.
      replace (- Z.of_nat (length (st_label_ids st)) <=? i + 1) with true
        by (symmetry; apply Z.leb_le; lia).
      replace (i + 1 <? 0) with true by (symmetry; apply Z.ltb_lt; lia).
      simpl. f_equal. lia. }
  split; [done|]. split; [done|]. split; [done|].
  unfold annotate. simpl. rewrite (check_annotation_match _ _ _ _ Hl Htok).
  unfold dict_get. rewrite Hidx. simpl. unfold setitem at 1. rewrite Hk'. simpl.
  unfold getitem, setitem. rewrite (py_index_nonneg _ idx) by lia. simpl.
  by rewrite Hc.
Qed.

(** The [else] clause is outside the [try]: a matching annotation whose
    label is missing from the vocabulary raises [KeyError]. *)
Lemma annotate_unknown_label label_map tokens st i l l' :
  adapt_label l = Ok l' ->
  getitem tokens (i + 1) = Ok (before_tab l') ->
  label_map !! l' = None ->
  annotate label_map tokens st (i, l) = Raise (KeyError l').
Proof.
  intros Hl Htok Hnone. unfold annotate. cbn [fst snd].
  rewrite (check_annotation_match _ _ _ _ Hl Htok). unfold dict_get.
  by rewrite Hnone.
Qed.

Lemma annotate_lengths label_map tokens st il st' :
  annotate label_map tokens st il = Ok st' ->
  length (st_label_ids st') = length (st_label_ids st) /\
  length (st_label_count st') = length (st_label_count st).
Proof.
  unfold annotate. destruct (check_annotation tokens il.1 il.2) as [[l|e] l0].
  - intros (idx & _ & (ids & Hids & (idx' & _ & (c & _ &
      (cnt & Hcnt & [= <-])%bind_Ok)%bind_Ok)%bind_Ok)%bind_Ok)%bind_Ok.
    simpl. split; by eapply setitem_length.
  - by intros [= <-].
Qed.

Lemma annotations_lengths label_map tokens anns st st' :
  foldM (annotate label_map tokens) st anns = Ok st' ->
  length (st_label_ids st') = length (st_label_ids st) /\
  length (st_label_count st') = length (st_label_count st).
Proof.
  revert st. induction anns as [|il anns IH]; simpl; intros st.
  - by intros [= <-].
  - intros (st1 & H1 & H2)%bind_Ok. destruct (IH _ H2) as [-> ->].
    by apply annotate_lengths in H1.
Qed.

(** *** One example *)

Section Example.

Variable convert_tokens_to_ids : list pystr -> result (list Z).

Lemma wrap_tokens_unfold max_seq_length txt :
  2 <= max_seq_length ->
  wrap_tokens max_seq_length txt =
    [CLS] ++ take (Z.to_nat (max_seq_length - 2)) txt ++ [SEP].
Proof.
  intros Hm. unfold wrap_tokens, slice_to.
  destruct (Z.of_nat (length txt) >? max_seq_length - 2) eqn:Hgt.
  - replace (max_seq_length - 2 <? 0) with false by (symmetry; apply Z.ltb_ge; lia).
    done.
  - rewrite take_ge; [done|]. rewrite Z.gtb_ltb in Hgt. apply Z.ltb_ge in Hgt. lia.
Qed.

Lemma wrap_tokens_length max_seq_length txt :
  2 <= max_seq_length ->
  Z.of_nat (length (wrap_tokens max_seq_length txt)) =
    Z.min (Z.of_nat (length txt)) (max_seq_length - 2) + 2.
Proof.
  intros Hm. rewrite wrap_tokens_unfold by done. simpl.
  rewrite length_app, length_take. simpl. lia.
Qed.

Lemma wrap_tokens_at_least_2 max_seq_length txt :
  (2 <= length (wrap_tokens max_seq_length txt))%nat.
Proof. unfold wrap_tokens. simpl. rewrite length_app. simpl. lia. Qed.

Lemma length_list_repeat {A} (x : A) n : length (list_repeat x n) = Z.to_nat n.
Proof. apply length_replicate. Qed.

(** What an accepted example went through. *)
Lemma convert_example_inv label_map max_seq_length label_count log ex_index example f lc lg :
  convert_example convert_tokens_to_ids label_map max_seq_length
    label_count log ex_index example = Ok (f, lc, lg) ->
  exists ids st,
    let tokens := wrap_tokens max_seq_length (text example) in
    convert_tokens_to_ids tokens = Ok ids /\
    length tokens = length ids /\
    foldM (annotate label_map tokens)
      {| st_label_ids := list_repeat (-1) max_seq_length;
         st_label_count := label_count;
         st_log := if Z.of_nat ex_index mod 100000 =? 0
                   then log ++ [Progress ex_index] else log |}
      (label example) = Ok st /\
    Z.of_nat (length ids) <= max_seq_length /\
    position example + 1 < max_seq_length /\
    f = {| input_ids := ids ++ list_repeat 0 (max_seq_length - Z.of_nat (length ids));
           input_mask := list_repeat 1 (Z.of_nat (length ids)) ++
                         list_repeat 0 (max_seq_length - Z.of_nat (length ids));
           label_id := st_label_ids st;
           label_pos := position example + 1;
           f_char := char example |} /\
    lc = st_label_count st /\ lg = st_log st.
Proof.
  unfold convert_example.
  intros (ids & Hids & (_ & Hlen%py_assert_Ok & (st & Hst & (_ & H1%py_assert_Ok &
    (_ & H2%py_assert_Ok & (_ & H3%py_assert_Ok & (_ & H4%py_assert_Ok & H)%bind_Ok
    )%bind_Ok)%bind_Ok)%bind_Ok)%bind_Ok)%bind_Ok)%bind_Ok.
  exists ids, st. simpl. apply Nat.eqb_eq in Hlen. apply Z.eqb_eq in H1.
  apply Z.ltb_lt in H4. inversion H; subst f lc lg. clear H.
  rewrite length_app, length_list_repeat in H1.
  repeat split; try done. lia.
Qed.

End Example.

(** Discharges the assertions of the source that hold in the context. *)
Ltac pass_asserts :=
  repeat match goal with
  | |- context [py_assert ?b _] =>
      replace b with true
        by (symmetry; first [apply Z.eqb_eq | apply Z.ltb_lt | apply Nat.eqb_eq]; lia);
      cbn [bind py_assert]
  end.

Section Acceptance.

Variable convert_tokens_to_ids : list pystr -> result (list Z).

(** An annotation is harmless as soon as its label, when the [try] passes,
    is a label of the vocabulary. *)
Definition annotation_known (label_list : list pystr) (tokens : list pystr)
    (il : Z * pystr) : Prop :=
  forall l' l0, check_annotation tokens il.1 il.2 = (Ok l', l0) ->
                is_Some (build_label_map label_list !! l').

Lemma annotate_total label_list tokens st il :
  (length tokens <= length (st_label_ids st))%nat ->
  length (st_label_count st) = length label_list ->
  annotation_known label_list tokens il ->
  exists st', annotate (build_label_map label_list) tokens st il = Ok st'.
Proof.
  intros Hlen Hcnt Hknown. destruct il as [i l].
  destruct (check_annotation tokens i l) as [[l'|e] l0] eqn:Hc.
  - destruct (Hknown l' l0 Hc) as [idx Hidx].
    apply check_annotation_Ok in Hc as [Hl Ht].
    destruct (annotate_record label_list tokens st i l l' idx Hlen Hcnt Hl Ht Hidx)
      as (k & c & _ & _ & _ & _ & ->). eauto.
  - rewrite (annotate_skip _ _ _ _ _ _ _ Hc). eauto.
Qed.

Lemma annotations_total label_list tokens anns st :
  (length tokens <= length (st_label_ids st))%nat ->
  length (st_label_count st) = length label_list ->
  Forall (annotation_known label_list tokens) anns ->
  exists st', foldM (annotate (build_label_map label_list) tokens) st anns = Ok st'.
Proof.
  intros Hlen Hcnt Hall. revert st Hlen Hcnt.
  induction Hall as [|il anns Hil _ IH]; intros st Hlen Hcnt; simpl; [eauto|].
  destruct (annotate_total label_list tokens st il Hlen Hcnt Hil) as [st1 H1].
  rewrite H1. simpl. destruct (annotate_lengths _ _ _ _ _ H1) as [Hl1 Hl2].
  apply IH; congruence.
Qed.

Lemma convert_example_accepts label_list max_seq_length label_count log ex_index example ids :
  2 <= max_seq_length ->
  convert_tokens_to_ids (wrap_tokens max_seq_length (text example)) = Ok ids ->
  length ids = length (wrap_tokens max_seq_length (text example)) ->
  length label_count = length label_list ->
  Forall (annotation_known label_list (wrap_tokens max_seq_length (text example)))
         (label example) ->
  position example + 1 < max_seq_length ->
  exists r, convert_example convert_tokens_to_ids (build_label_map label_list)
              max_seq_length label_count log ex_index example = Ok r.
Proof.
  intros Hm Hids Hlen Hcnt Hknown Hpos.
  pose proof (wrap_tokens_length max_seq_length (text example) Hm) as Hwl.
  unfold convert_example. remember (wrap_tokens max_seq_length (text example)) as tokens.
  rewrite Hids. cbn [bind]. rewrite Hlen, Nat.eqb_refl. cbn [bind py_assert].
  match goal with |- context [foldM ?g ?s ?a] =>
    destruct (annotations_total label_list tokens (label example) s) as [st Hst] end;
    [cbn [st_label_ids]; rewrite length_list_repeat; lia | done | done |].
  rewrite Hst. cbn [bind]. apply annotations_lengths in Hst as [Hl1 _].
  cbn [st_label_ids] in Hl1.
  rewrite !length_app, !length_list_repeat, Hl1, length_list_repeat.
  pass_asserts. eauto.
Qed.

End Acceptance.

(** The wrapped sequence never exceeds [max_seq_length], so an annotation at
    or beyond [max_seq_length - 1] lies outside it once the text is cut. *)
Lemma dropped_by_truncation max_seq_length txt i :
  2 <= max_seq_length -> max_seq_length <= i + 1 ->
  Z.of_nat (length (wrap_tokens max_seq_length txt)) <= i + 1.
Proof. intros Hm Hi. rewrite wrap_tokens_length by done. lia. Qed.

(** C10. An annotation whose position lies beyond the wrapped token sequence
    raises [IndexError] inside the [try]: it is printed and skipped, neither
    [label_ids] nor the counts change, and the loop goes on with the next
    annotation. *)
Theorem out_of_range_annotation_skipped
    (label_map : gmap pystr Z) (tokens : list pystr) (st : annot_state)
    (i : Z) (l : pystr) :
  Z.of_nat (length tokens) <= i + 1 ->
  exists l0,
    (l0 = l \/ adapt_label l = Ok l0) /\
    annotate label_map tokens st (i, l) =
      Ok {| st_label_ids := st_label_ids st;
            st_label_count := st_label_count st;
            st_log := st_log st ++ [Skipped IndexError tokens i l0] |} /\
    forall rest,
      foldM (annotate label_map tokens) st ((i, l) :: rest) =
      foldM (annotate label_map tokens)
        {| st_label_ids := st_label_ids st;
           st_label_count := st_label_count st;
           st_log := st_log st ++ [Skipped IndexError tokens i l0] |} rest.
Proof.
  intros Hi. destruct (check_annotation_beyond tokens i l Hi) as (l0 & Hl0 & Hc).
  exists l0. split; [done|].
  pose proof (annotate_skip label_map tokens st i l _ _ Hc) as Ha.
  split; [exact Ha|]. intros rest. simpl. by rewrite Ha.
Qed.

Section Annotation.

Variable convert_tokens_to_ids : list pystr -> result (list Z).

(** C1. For an annotation [(i, l)] whose token at [i + 1] is read: when the
    token is the character of the (adapted) label and the label is in the
    vocabulary, [label_ids[i + 1]] becomes the label's index and its count
    grows by one; when the token differs, the annotation is printed and
    skipped and nothing else changes.  An accepted example with one matching
    annotation has its label index at [i + 1] and -1 everywhere else. *)
Theorem annotation_outcome (label_list : list pystr) :
  (forall tokens st i l l' tok,
     (length tokens <= length (st_label_ids st))%nat ->
     length (st_label_count st) = length label_list ->
     adapt_label l = Ok l' ->
     getitem tokens (i + 1) = Ok tok ->
     (tok = before_tab l' ->
      forall idx, build_label_map label_list !! l' = Some idx ->
      exists st' c,
        annotate (build_label_map label_list) tokens st (i, l) = Ok st' /\
        getitem (st_label_ids st') (i + 1) = Ok idx /\
        0 <= idx /\
        st_label_count st !! Z.to_nat idx = Some c /\
        st_label_count st' = <[Z.to_nat idx := c + 1]> (st_label_count st) /\
        st_log st' = st_log st) /\
     (tok <> before_tab l' ->
      annotate (build_label_map label_list) tokens st (i, l) =
        Ok {| st_label_ids := st_label_ids st;
              st_label_count := st_label_count st;
              st_log := st_log st ++
                        [Skipped (AssertionError TokenMatchesLabel) tokens i l'] |})) /\
  (forall max_seq_length label_count log ex_index example f lc lg i l l' idx,
     convert_example convert_tokens_to_ids (build_label_map label_list)
       max_seq_length label_count log ex_index example = Ok (f, lc, lg) ->
     length label_count = length label_list ->
     label example = [(i, l)] ->
     adapt_label l = Ok l' ->
     getitem (wrap_tokens max_seq_length (text example)) (i + 1) = Ok (before_tab l') ->
     build_label_map label_list !! l' = Some idx ->
     exists k,
       py_index (Z.to_nat max_seq_length) (i + 1) = Ok k /\
       (0 <= i + 1 -> Z.of_nat k = i + 1) /\
       idx <> -1 /\
       label_id f !! k = Some idx /\
       forall j, (j < Z.to_nat max_seq_length)%nat -> j <> k ->
                 label_id f !! j = Some (-1)).
Proof.
  split.
  - intros tokens st i l l' tok Hlen Hcnt Hl Htok. split.
    + intros -> idx Hidx.
      destruct (annotate_record label_list tokens st i l l' idx Hlen Hcnt Hl Htok Hidx)
        as (k & c & Hk & Hk' & Hrange & Hc & Ha).
      eexists _, c. split; [exact Ha|]. cbn [st_label_ids st_label_count st_log].
      split; [|by repeat split; try lia].
      eapply getitem_index.
      * rewrite length_insert. exact Hk'.
      * apply list_lookup_insert_eq. by apply py_index_Ok in Hk' as [? _].
    + intros Hne. apply annotate_skip.
      by eapply check_annotation_mismatch.
  - intros max_seq_length label_count log ex_index example f lc lg i l l' idx
      H Hcnt Hlab Hl Htok Hidx.
    apply convert_example_inv in H as (ids & st & _ & Hlen & Hst & Hle & _ & -> & _).
    cbv zeta in Hlen, Hst. rewrite Hlab in Hst. simpl in Hst.
    apply bind_Ok in Hst as (st1 & H1 & [= <-]).
    match type of H1 with annotate _ ?t ?s _ = _ =>
      destruct (annotate_record label_list t s i l l' idx) as
        (k & c & Hk & Hk' & Hrange & Hc & Ha) end; try done.
    { cbn [st_label_ids]. rewrite length_list_repeat. lia. }
    cbn [st_label_ids] in Hk', Ha. rewrite length_list_repeat in Hk', Ha.
    match type of Hk' with _ = Ok ?e => remember e as k' eqn:Ek in * end.
    clear Ek Hk. rewrite Ha in H1. inversion H1; subst st1. clear H1 Ha.
    cbn [st_label_ids label_id] in *.
    exists k'. split; [exact Hk'|].
    destruct (py_index_Ok _ _ _ Hk') as [Hlt Hcase].
    split; [intros; lia|]. split; [lia|]. split.
    + apply list_lookup_insert_eq. by rewrite length_list_repeat.
    + intros j Hj Hne. rewrite list_lookup_insert_ne by done.
      by apply lookup_replicate_2.
Qed.

End Annotation.

(** *** The hybrid attention mask *)

(** Entry [(i, j)] of a matrix and entry [(b, h, i, j)] of a stacked mask. *)
Definition entry2 (m : list (list Z)) (i j : nat) : option Z :=
  m !! i ≫= fun row => row !! j.

Definition entry4 (t : list (list (list (list Z)))) (b h i j : nat) : option Z :=
  t !! b ≫= fun heads => heads !! h ≫= fun m => entry2 m i j.

Lemma entry2_ones r c i j : (i < r)%nat -> (j < c)%nat -> entry2 (ones r c) i j = Some 1.
Proof.
  intros Hi Hj. unfold entry2, ones. rewrite lookup_replicate_2 by done. simpl.
  by apply lookup_replicate_2.
Qed.

Lemma entry2_tril m k i j x :
  entry2 m i j = Some x ->
  entry2 (tril m k) i j = Some (if Z.of_nat j - Z.of_nat i <=? k then x else 0).
Proof.
  unfold entry2, tril. rewrite list_lookup_imap.
  destruct (m !! i) as [row|]; simpl; [|discriminate].
  rewrite list_lookup_imap. by intros ->.
Qed.

Lemma entry2_triu m k i j x :
  entry2 m i j = Some x ->
  entry2 (triu m k) i j = Some (if k <=? Z.of_nat j - Z.of_nat i then x else 0).
Proof.
  unfold entry2, triu. rewrite list_lookup_imap.
  destruct (m !! i) as [row|]; simpl; [|discriminate].
  rewrite list_lookup_imap. by intros ->.
Qed.

(** The twelve heads, in order. *)
Lemma attention_heads max_seq_length mask :
  build_attention_mask max_seq_length = Ok mask ->
  0 <= max_seq_length /\
  let n := Z.to_nat max_seq_length in
  let left := tril (ones n n) 0 in
  let right := triu (ones n n) 0 in
  let window := triu (tril (ones n n) 1) (-1) in
  let full := ones n n in
  mask = replicate 8 [left; left; right; right; window; window;
                      full; full; full; full; full; full].
Proof.
  unfold build_attention_mask. destruct (max_seq_length <? 0) eqn:Hneg; [discriminate|].
  apply Z.ltb_ge in Hneg. intros [= <-]. split; [done|]. reflexivity.
Qed.

(** What the code stores at entry [(i, j)] of head [h]. *)
Definition head_pattern (h i j : nat) : Z :=
  if (h <? 2)%nat then (if (j <=? i)%nat then 1 else 0)
  else if (h <? 4)%nat then (if (i <=? j)%nat then 1 else 0)
  else if (h <? 6)%nat then (if (j <=? i + 1)%nat && (i <=? j + 1)%nat then 1 else 0)
  else 1.

Lemma attention_entries max_seq_length mask b h i j :
  build_attention_mask max_seq_length = Ok mask ->
  (b < 8)%nat -> (h < 12)%nat ->
  (i < Z.to_nat max_seq_length)%nat -> (j < Z.to_nat max_seq_length)%nat ->
  entry4 mask b h i j = Some (head_pattern h i j).
Proof.
  intros (Hm & ->)%attention_heads Hb Hh Hi Hj. cbv zeta.
  unfold entry4. rewrite lookup_replicate_2 by done. cbn [mbind option_bind].
  pose proof (entry2_ones _ _ i j Hi Hj) as H1.
  do 12 (destruct h as [|h]; [
    cbn [lookup list_lookup mbind option_bind];
    first [ rewrite (entry2_triu _ _ _ _ _ (entry2_tril _ _ _ _ _ H1))
          | rewrite (entry2_tril _ _ _ _ _ H1)
          | rewrite (entry2_triu _ _ _ _ _ H1)
          | rewrite H1 ];
    unfold head_pattern; cbn [Nat.ltb Nat.leb];
    repeat match goal with
    | |- context [(?a <=? ?b)%nat] => destruct (Nat.leb_spec a b)
    | |- context [?a <=? ?b] => destruct (Z.leb_spec a b)
    end; cbn [andb]; first [reflexivity | lia] |]).
  lia.
Qed.

(** The layout with strict triangles: ones below the diagonal only in heads
    0-1, above it only in heads 2-3, within distance 1 in heads 4-5. *)
Definition strict_pattern (h i j : nat) : Z :=
  if (h <? 2)%nat then (if (j <? i)%nat then 1 else 0)
  else if (h <? 4)%nat then (if (i <? j)%nat then 1 else 0)
  else if (j <=? i + 1)%nat && (i <=? j + 1)%nat then 1 else 0.

Definition strict_layout (max_seq_length : Z) : Prop :=
  forall mask b h i j,
    build_attention_mask max_seq_length = Ok mask ->
    (b < 8)%nat -> (h < 6)%nat ->
    (i < Z.to_nat max_seq_length)%nat -> (j < Z.to_nat max_seq_length)%nat ->
    entry4 mask b h i j = Some (strict_pattern h i j).

(** With two positions the left and right heads hold a one on the diagonal. *)
Lemma hybrid_mask_not_strict :
  build_attention_mask 2 =
    Ok (replicate 8 [ [[1; 0]; [1; 1]]; [[1; 0]; [1; 1]];
                      [[1; 1]; [0; 1]]; [[1; 1]; [0; 1]];
                      [[1; 1]; [1; 1]]; [[1; 1]; [1; 1]];
                      [[1; 1]; [1; 1]]; [[1; 1]; [1; 1]]; [[1; 1]; [1; 1]];
                      [[1; 1]; [1; 1]]; [[1; 1]; [1; 1]]; [[1; 1]; [1; 1]] ]) /\
  ~ strict_layout 2.
Proof.
  split; [reflexivity|]. intros H.
  unfold strict_layout in H.
  assert (2 < 8)%nat as H8 by lia. assert (0 < 8)%nat as H08 by lia.
  assert (0 < 6)%nat as H6 by lia. assert (0 < Z.to_nat 2)%nat as H2 by lia.
  pose proof (H _ 0%nat 0%nat 0%nat 0%nat eq_refl H08 H6 H2 H2) as Hd.
  discriminate Hd.
Qed.

(** C6 (as the code has it). The mask stacks 8 copies of 12 heads over
    [max_seq_length] positions: heads 0-1 hold the lower triangle with its
    diagonal ([j <= i]), heads 2-3 the upper triangle with its diagonal
    ([i <= j]), heads 4-5 the band [|i - j| <= 1], heads 6-11 stay all ones. *)
Theorem hybrid_attention_layout (max_seq_length : Z) :
  0 <= max_seq_length ->
  exists mask,
    build_attention_mask max_seq_length = Ok mask /\
    length mask = 8%nat /\
    (forall b heads, mask !! b = Some heads -> length heads = 12%nat) /\
    forall b h i j,
      (b < 8)%nat -> (h < 12)%nat ->
      (i < Z.to_nat max_seq_length)%nat -> (j < Z.to_nat max_seq_length)%nat ->
      entry4 mask b h i j =
        Some (if (h <? 2)%nat then (if (j <=? i)%nat then 1 else 0)
              else if (h <? 4)%nat then (if (i <=? j)%nat then 1 else 0)
              else if (h <? 6)%nat
                   then (if (j <=? i + 1)%nat && (i <=? j + 1)%nat then 1 else 0)
              else 1).
Proof.
  intros Hm.
  destruct (build_attention_mask max_seq_length) as [mask|e] eqn:Hb.
  - exists mask. split; [done|].
    pose proof (attention_heads _ _ Hb) as [_ Hmask]. cbv zeta in Hmask.
    split; [by rewrite Hmask|]. split.
    + intros b heads Hh. rewrite Hmask in Hh.
      apply lookup_replicate in Hh as [-> _]. reflexivity.
    + intros b h i j Hb8 Hh Hi Hj. by apply (attention_entries max_seq_length).
  - unfold build_attention_mask in Hb.
    replace (max_seq_length <? 0) with false in Hb by (symmetry; apply Z.ltb_ge; lia).
    discriminate.
Qed.

(** *** The label mask *)

(** The columns cleared for a character: the indices of the labels of that
    character, in list order. *)
Definition columns_of (label_map : gmap pystr Z) (label_list : list pystr)
    (c : pystr) : list Z :=
  omap (fun l => label_map !! l) (filter (fun l => before_tab l = c) label_list).

Lemma init_label_word_lookup (ll : list pystr) (c : pystr) :
  init_label_word ll !! c =
    if decide (c ∈ before_tab <$> ll) then Some [] else None.
Proof.
  unfold init_label_word.
  induction ll as [|x ll IH] using rev_ind.
  - cbn [foldl]. rewrite lookup_empty.
    destruct (decide (c ∈ before_tab <$> [])) as [H|H]; [|done].
    by apply elem_of_nil in H.
  - rewrite foldl_app, fmap_app. simpl.
    destruct (decide (before_tab x = c)) as [<-|Hne].
    + rewrite lookup_insert_eq. rewrite decide_True; [done|].
      apply elem_of_app. right. by left.
    + rewrite lookup_insert_ne by done. rewrite IH.
      destruct (decide (c ∈ before_tab <$> ll)) as [H1|H1].
      * rewrite decide_True; [done|]. apply elem_of_app. by left.
      * rewrite decide_False; [done|].
        intros [H2|H2%list_elem_of_singleton]%elem_of_app; congruence.
Qed.

Lemma label_word_loop (lm : gmap pystr Z) (suffix : list pystr)
    (lw0 : gmap pystr (list Z)) :
  (forall l, l ∈ suffix -> is_Some (lw0 !! before_tab l)) ->
  (forall l, l ∈ suffix -> is_Some (lm !! l)) ->
  exists lw,
    foldM (fun lw l =>
             let* ids := dict_get lw (before_tab l) in
             let* idx := dict_get lm l in
             Ok (<[before_tab l := ids ++ [idx]]> lw)) lw0 suffix = Ok lw /\
    forall c, lw !! c = (fun ids => ids ++ columns_of lm suffix c) <$> lw0 !! c.
Proof.
  revert lw0. induction suffix as [|x suffix IH]; intros lw0 Hlw Hlm.
  - exists lw0. split; [done|]. intros c. unfold columns_of. simpl.
    destruct (lw0 !! c); simpl; [by rewrite app_nil_r | done].
  - destruct (Hlw x) as [ids Hids]; [by left|].
    destruct (Hlm x) as [idx Hidx]; [by left|].
    simpl. unfold dict_get at 1 2. rewrite Hids, Hidx. simpl.
    destruct (IH (<[before_tab x := ids ++ [idx]]> lw0)) as (lw & Hlw' & Hspec).
    + intros l Hl. destruct (decide (before_tab x = before_tab l)) as [->|Hne].
      * rewrite lookup_insert_eq. eauto.
      * rewrite lookup_insert_ne by done. apply Hlw. by right.
    + intros l Hl. apply Hlm. by right.
    + exists lw. split; [done|]. intros c. rewrite Hspec. unfold columns_of.
      rewrite filter_cons. destruct (decide (before_tab x = c)) as [<-|Hne].
      * rewrite lookup_insert_eq, Hids. simpl. rewrite Hidx.
        by rewrite <- app_assoc.
      * by rewrite lookup_insert_ne.
Qed.

Lemma build_label_word_spec (lm : gmap pystr Z) (ll : list pystr) :
  (forall l, l ∈ ll -> is_Some (lm !! l)) ->
  exists lw,
    build_label_word lm ll = Ok lw /\
    forall l, l ∈ ll -> lw !! before_tab l = Some (columns_of lm ll (before_tab l)).
Proof.
  intros Hlm. destruct (label_word_loop lm ll (init_label_word ll)) as (lw & Hlw & Hspec).
  - intros l Hl. rewrite init_label_word_lookup. rewrite decide_True; [eauto|].
    by apply list_elem_of_fmap_2.
  - done.
  - exists lw. split; [done|]. intros l Hl. rewrite Hspec, init_label_word_lookup.
    rewrite decide_True; [done|]. by apply list_elem_of_fmap_2.
Qed.

Lemma elem_of_columns_of (lm : gmap pystr Z) (ll : list pystr) (c : pystr) (z : Z) :
  z ∈ columns_of lm ll c <-> exists l, l ∈ ll /\ before_tab l = c /\ lm !! l = Some z.
Proof.
  unfold columns_of. rewrite list_elem_of_omap. split.
  - intros (l & Hl & Hz). apply list_elem_of_filter in Hl as [Hc Hl]. eauto.
  - intros (l & Hl & Hc & Hz). exists l. split; [|done].
    apply list_elem_of_filter. eauto.
Qed.

Lemma clear_columns_spec (cols : list Z) (row : list Z) :
  (forall c, c ∈ cols -> 0 <= c < Z.of_nat (length row)) ->
  exists row',
    foldM (fun r c => setitem r c 0) row cols = Ok row' /\
    length row' = length row /\
    forall j x, row !! j = Some x ->
                row' !! j = Some (if decide (Z.of_nat j ∈ cols) then 0 else x).
Proof.
  revert row. induction cols as [|c cols IH]; intros row Hin.
  - exists row. split; [done|]. split; [done|]. intros j x Hx.
    rewrite decide_False; [done|]. apply not_elem_of_nil.
  - assert (0 <= c < Z.of_nat (length row)) as Hc by (apply Hin; by left).
    simpl. unfold setitem at 1. rewrite py_index_nonneg by done. simpl.
    destruct (IH (<[Z.to_nat c := 0]> row)) as (row' & Hrow' & Hlen & Hspec).
    { intros c' Hc'. rewrite length_insert. apply Hin. by right. }
    exists row'. split; [done|]. rewrite length_insert in Hlen. split; [done|].
    intros j x Hx. destruct (decide (j = Z.to_nat c)) as [->|Hne].
    + rewrite (Hspec _ 0).
      * rewrite Z2Nat.id by lia.
        rewrite (decide_True (P := c ∈ c :: cols)) by (by left).
        by destruct (decide (c ∈ cols)).
      * apply list_lookup_insert_eq. lia.
    + rewrite (Hspec _ x) by (by rewrite list_lookup_insert_ne).
      destruct (decide (Z.of_nat j ∈ cols)) as [H1|H1].
      * rewrite decide_True; [done|]. by right.
      * rewrite decide_False; [done|].
        intros [H2|H2]%elem_of_cons; [lia | done].
Qed.

Lemma entry2_insert (m : list (list Z)) (k : nat) (row : list Z) (i j : nat) :
  (k < length m)%nat ->
  entry2 (<[k := row]> m) i j = if decide (i = k) then row !! j else entry2 m i j.
Proof.
  intros Hk. unfold entry2. destruct (decide (i = k)) as [->|Hne].
  - by rewrite list_lookup_insert_eq.
  - by rewrite list_lookup_insert_ne.
Qed.

Lemma masks_loop (lw : gmap pystr (list Z)) (n : nat) (p : list pystr) :
  (length p <= n)%nat ->
  (forall l, l ∈ p ->
     exists cols, lw !! before_tab l = Some cols /\
                  forall c, c ∈ cols -> 0 <= c < Z.of_nat n) ->
  exists m,
    foldM (fun m il =>
             let* cols := dict_get lw (before_tab il.2) in
             zero_columns m (Z.of_nat il.1) cols)
          (ones n n) (enumerate p) = Ok m /\
    length m = n /\
    (forall i row, m !! i = Some row -> length row = n) /\
    forall i j, (i < n)%nat -> (j < n)%nat ->
      entry2 m i j =
        Some (match p !! i with
              | Some l => if decide (Z.of_nat j ∈ default [] (lw !! before_tab l))
                          then 0 else 1
              | None => 1
              end).
Proof.
  induction p as [|x p IH] using rev_ind; intros Hlen Hcols.
  - exists (ones n n). split; [done|]. split; [apply length_replicate|]. split.
    + intros i row [-> _]%lookup_replicate. apply length_replicate.
    + intros i j Hi Hj. rewrite lookup_nil. by apply entry2_ones.
  - rewrite length_app in Hlen. simpl in Hlen.
    destruct IH as (m & Hm & Hlm & Hrows & Hent); [lia| |].
    { intros l Hl. apply Hcols, elem_of_app. by left. }
    destruct (Hcols x) as (cols & Hlw & Hrange);
      [apply elem_of_app; right; by left|].
    destruct (lookup_lt_is_Some_2 m (length p)) as [row Hrow]; [lia|].
    pose proof (Hrows _ _ Hrow) as Hrl.
    destruct (clear_columns_spec cols row) as (row' & Hrow' & Hrl' & Hspec).
    { intros c Hc. rewrite Hrl. by apply Hrange. }
    exists (<[length p := row']> m).
    split; [|split; [|split]].
    + rewrite enumerate_snoc, foldM_app, Hm. cbn [bind foldM fst snd].
      unfold dict_get. rewrite Hlw. cbn [bind]. unfold zero_columns, getitem.
      rewrite py_index_nonneg by lia. cbn [bind]. rewrite Nat2Z.id, Hrow. cbn [bind].
      rewrite Hrow'. cbn [bind]. unfold setitem.
      rewrite py_index_nonneg by lia. cbn [bind]. by rewrite Nat2Z.id.
    + by rewrite length_insert.
    + intros i r Hr. destruct (decide (i = length p)) as [->|Hne].
      * rewrite list_lookup_insert_eq in Hr by lia. inversion Hr; subst r. lia.
      * rewrite list_lookup_insert_ne in Hr by done. by eapply Hrows.
    + intros i j Hi Hj. rewrite entry2_insert by lia.
      destruct (decide (i = length p)) as [->|Hne].
      * rewrite list_lookup_middle by done. rewrite Hlw. simpl.
        assert (row !! j = Some 1) as Hj1.
        { specialize (Hent (length p) j ltac:(lia) Hj).
          unfold entry2 in Hent. rewrite Hrow in Hent. simpl in Hent.
          by rewrite (lookup_ge_None_2 p (length p)) in Hent by lia. }
        by apply Hspec.
      * rewrite Hent by done. f_equal.
        destruct (decide (i < length p)%nat).
        -- by rewrite lookup_app_l.
        -- rewrite (lookup_ge_None_2 p i) by lia.
           rewrite (lookup_ge_None_2 (p ++ [x]) i); [done|].
           rewrite length_app. simpl. lia.
Qed.

(** The mask of an adapted vocabulary: a stack of 8 copies of one square
    matrix whose entry [(i, j)] is 0 exactly when [j] is the index of a label
    with the character of label [i]. *)
Lemma build_masks_spec (ll : list pystr) :
  Forall (fun l => has_tab l = true) ll ->
  exists m,
    build_masks (build_label_map ll) ll = Ok (replicate 8 m) /\
    length m = length ll /\
    (forall i row, m !! i = Some row -> length row = length ll) /\
    forall i j li, ll !! i = Some li -> (j < length ll)%nat ->
      entry2 m i j =
        Some (if decide (Z.of_nat j ∈ columns_of (build_label_map ll) ll (before_tab li))
              then 0 else 1).
Proof.
  intros Htab. rewrite Forall_forall in Htab.
  destruct (build_label_word_spec (build_label_map ll) ll) as (lw & Hlw & Hspec).
  { intros l Hl. apply build_label_map_total; [by apply Htab | done]. }
  destruct (masks_loop lw (length ll) ll) as (m & Hm & Hlen & Hrows & Hent); [lia| |].
  { intros l Hl. exists (columns_of (build_label_map ll) ll (before_tab l)).
    split; [by apply Hspec|]. intros c (l' & Hl' & _ & Hc)%elem_of_columns_of.
    by apply (build_label_map_range ll l'); [apply Htab|]. }
  exists m. split; [|split; [done|split; [done|]]].
  - unfold build_masks. rewrite Hlw. cbn [bind]. cbv zeta. by rewrite Hm.
  - intros i j li Hi Hj. rewrite Hent; [|by eapply lookup_lt_Some|done].
    rewrite Hi. rewrite Hspec by (by eapply list_elem_of_lookup_2). done.
Qed.

(** *** The whole call *)

Section Call.

Variable convert_tokens_to_ids : list pystr -> result (list Z).
Variable fl : Q -> Q.

Lemma convert_examples_to_features_inv examples label_list max_seq_length enc :
  convert_examples_to_features convert_tokens_to_ids fl examples label_list
    max_seq_length = Ok enc ->
  exists ll masks att ls w,
    adapt_label_list label_list = Ok ll /\
    build_masks (build_label_map ll) ll = Ok masks /\
    build_attention_mask max_seq_length = Ok att /\
    convert_loop convert_tokens_to_ids (build_label_map ll) max_seq_length
      (list_repeat 0 (Z.of_nat (length ll))) examples = Ok ls /\
    class_weight fl (ls_label_count ls) = Ok w /\
    enc = {| enc_label_list := ll;
             enc_features := ls_features ls;
             enc_masks := masks;
             enc_weight := replicate 8 w;
             enc_attention_mask := att;
             enc_label_count := ls_label_count ls;
             enc_log := ls_log ls |}.
Proof.
  unfold convert_examples_to_features.
  intros (ll & Hll & (masks & Hmasks & (att & Hatt & (ls & Hls &
    (w & Hw & [= <-])%bind_Ok)%bind_Ok)%bind_Ok)%bind_Ok)%bind_Ok.
  by exists ll, masks, att, ls, w.
Qed.


End Call.

(** *** The occurrence counts *)

Lemma foldM_invariant {A B} (P : B -> Prop) (f : B -> A -> result B) xs :
  (forall acc x acc', P acc -> f acc x = Ok acc' -> P acc') ->
  forall acc acc', P acc -> foldM f acc xs = Ok acc' -> P acc'.
Proof.
  intros Hstep. induction xs as [|x xs IH]; simpl; intros acc acc' Hacc.
  - by intros [= <-].
  - intros (acc1 & H1 & H2)%bind_Ok. eapply IH; [|exact H2]. by eapply Hstep.
Qed.

(** The index an annotation counts for, if the [try] lets it through. *)
Definition recorded (label_map : gmap pystr Z) (tokens : list pystr)
    (il : Z * pystr) : option Z :=
  match check_annotation tokens il.1 il.2 with
  | (Ok l, _) => label_map !! l
  | (Raise _, _) => None
  end.

(** [label_count[idx] += 1] *)
Definition bump (counts : list Z) (idx : Z) : list Z :=
  match py_index (length counts) idx with
  | Ok k => alter (fun c => c + 1) k counts
  | Raise _ => counts
  end.

(** All indices counted over a list of examples, in order. *)
Definition recorded_indices (label_map : gmap pystr Z) (max_seq_length : Z)
    (examples : list InputExample) : list Z :=
  mbind (M := list)
    (fun ex => omap (recorded label_map (wrap_tokens max_seq_length (text ex))) (label ex))
    examples.

(** How often label index [k] was counted. *)
Definition occurrences (label_map : gmap pystr Z) (max_seq_length : Z)
    (examples : list InputExample) (k : nat) : Z :=
  Z.of_nat (length (filter (fun idx => idx = Z.of_nat k)
                           (recorded_indices label_map max_seq_length examples))).

Lemma length_bump counts idx : length (bump counts idx) = length counts.
Proof. unfold bump. destruct (py_index _ _); [apply length_alter | done]. Qed.

Lemma length_foldl_bump idxs counts : length (foldl bump counts idxs) = length counts.
Proof.
  revert counts. induction idxs as [|idx idxs IH]; intros counts; [done|].
  simpl. by rewrite IH, length_bump.
Qed.

Lemma annotate_counts label_map tokens st il st' :
  annotate label_map tokens st il = Ok st' ->
  st_label_count st' =
    match recorded label_map tokens il with
    | Some idx => bump (st_label_count st) idx
    | None => st_label_count st
    end.
Proof.
  unfold annotate, recorded.
  destruct (check_annotation tokens il.1 il.2) as [[l|e] l0].
  - unfold dict_get. destruct (label_map !! l) as [idx|]; [|discriminate]. cbn [bind].
    intros (ids & _ & (c & Hc & (cnt & Hcnt & [= <-])%bind_Ok)%bind_Ok)%bind_Ok.
    cbn [st_label_count]. apply getitem_Ok in Hc as (k & Hk & Hc).
    apply setitem_Ok in Hcnt as (k' & Hk' & ->).
    rewrite Hk in Hk'. inversion Hk'; subst k'. unfold bump. rewrite Hk.
    apply list_eq. intros j. destruct (decide (j = k)) as [->|Hne].
    + rewrite list_lookup_insert_eq by (by eapply lookup_lt_Some).
      by rewrite list_lookup_alter_eq, Hc.
    + rewrite list_lookup_insert_ne by done. by rewrite list_lookup_alter_ne.
  - by intros [= <-].
Qed.

Lemma annotations_counts label_map tokens anns st st' :
  foldM (annotate label_map tokens) st anns = Ok st' ->
  st_label_count st' =
    foldl bump (st_label_count st) (omap (recorded label_map tokens) anns).
Proof.
  revert st. induction anns as [|il anns IH]; simpl; intros st.
  - by intros [= <-].
  - intros (st1 & H1 & H2)%bind_Ok. rewrite (IH _ H2).
    rewrite (annotate_counts _ _ _ _ _ H1).
    by destruct (recorded label_map tokens il).
Qed.

Lemma foldl_bump_lookup (idxs : list Z) (counts : list Z) (k : nat) :
  (forall idx, idx ∈ idxs -> 0 <= idx < Z.of_nat (length counts)) ->
  foldl bump counts idxs !! k =
    (fun c => c + Z.of_nat (length (filter (fun idx => idx = Z.of_nat k) idxs)))
      <$> counts !! k.
Proof.
  revert counts. induction idxs as [|idx idxs IH]; intros counts Hin.
  - simpl. destruct (counts !! k); simpl; [f_equal; lia | done].
  - assert (0 <= idx < Z.of_nat (length counts)) as Hidx by (apply Hin; by left).
    cbn [foldl]. rewrite IH.
    2:{ intros i Hi. rewrite length_bump. apply Hin. by right. }
    unfold bump. rewrite py_index_nonneg by done. rewrite filter_cons.
    destruct (decide (idx = Z.of_nat k)) as [->|Hne].
    + rewrite Nat2Z.id, list_lookup_alter_eq.
      destruct (counts !! k); simpl; [f_equal; lia | done].
    + rewrite list_lookup_alter_ne by lia. done.
Qed.

Section Counts.

Variable convert_tokens_to_ids : list pystr -> result (list Z).

Lemma convert_example_counts label_map max_seq_length label_count log ex_index example f lc lg :
  convert_example convert_tokens_to_ids label_map max_seq_length
    label_count log ex_index example = Ok (f, lc, lg) ->
  lc = foldl bump label_count
         (omap (recorded label_map (wrap_tokens max_seq_length (text example)))
               (label example)).
Proof.
  intros (ids & st & _ & _ & Hst & _ & _ & _ & -> & _)%convert_example_inv.
  cbv zeta in Hst. by apply annotations_counts in Hst.
Qed.

(** The loop over the examples, read off example by example. *)
Lemma convert_loop_from label_map max_seq_length (items : list (nat * InputExample)) ls0 ls :
  foldM (fun ls ie =>
           let* r := convert_example convert_tokens_to_ids label_map max_seq_length
                       (ls_label_count ls) (ls_log ls) ie.1 ie.2 in
           Ok {| ls_features := ls_features ls ++ [r.1.1];
                 ls_label_count := r.1.2;
                 ls_log := r.2 |}) ls0 items = Ok ls ->
  exists fs,
    ls_features ls = ls_features ls0 ++ fs /\
    Forall2 (fun ie f => exists lc lg lc' lg',
               convert_example convert_tokens_to_ids label_map max_seq_length
                 lc lg ie.1 ie.2 = Ok (f, lc', lg')) items fs /\
    ls_label_count ls =
      foldl bump (ls_label_count ls0)
        (mbind (M := list)
           (fun ie => omap (recorded label_map
                              (wrap_tokens max_seq_length (text ie.2))) (label ie.2))
           items).
Proof.
  revert ls0. induction items as [|ie items IH]; simpl; intros ls0.
  - intros [= <-]. exists []. by rewrite app_nil_r.
  - intros (ls1 & (r & Hr & [= <-])%bind_Ok & H2)%bind_Ok.
    destruct (IH _ H2) as (fs & Hfs & Hall & Hcnt). cbn [ls_features ls_label_count] in *.
    destruct r as [[f lc] lg]. cbn [fst snd] in *.
    exists (f :: fs). split; [by rewrite Hfs, <- app_assoc|]. split.
    + constructor; [eauto 6 | done].
    + rewrite Hcnt, foldl_app. f_equal. by eapply convert_example_counts.
Qed.

Lemma bind_imap_snd {A B} (g : A -> list B) (h : nat -> nat) (l : list A) :
  mbind (M := list) (fun ie : nat * A => g ie.2) (imap (fun i x => (h i, x)) l) =
  mbind (M := list) g l.
Proof.
  revert h. induction l as [|x l IH]; intros h; [done|].
  cbn [imap mbind list_bind]. cbn [snd]. f_equal. apply (IH (h ∘ S)).
Qed.

Lemma Forall2_imap_snd {A B} (P : A -> B -> Prop) (h : nat -> nat) (l : list A) fs :
  Forall2 (fun (ie : nat * A) f => P ie.2 f) (imap (fun i x => (h i, x)) l) fs ->
  Forall2 P l fs.
Proof.
  revert h fs. induction l as [|x l IH]; intros h fs Hall.
  - inversion Hall. constructor.
  - cbn [imap] in Hall. inversion Hall as [|? f ? fs' Hx Hrest]; subst.
    constructor; [done|]. by apply (IH (h ∘ S)).
Qed.

Lemma convert_loop_inv label_map max_seq_length label_count examples ls :
  convert_loop convert_tokens_to_ids label_map max_seq_length label_count examples = Ok ls ->
  Forall2 (fun ex f => exists lc lg k lc' lg',
             convert_example convert_tokens_to_ids label_map max_seq_length
               lc lg k ex = Ok (f, lc', lg')) examples (ls_features ls) /\
  ls_label_count ls =
    foldl bump label_count (recorded_indices label_map max_seq_length examples).
Proof.
  unfold convert_loop. intros (fs & Hfs & Hall & Hcnt)%convert_loop_from.
  cbn [ls_features ls_label_count] in *. rewrite Hfs. cbn [app]. split.
  - apply (Forall2_imap_snd _ (fun i => i)). unfold enumerate in Hall.
    eapply Forall2_impl; [exact Hall|]. cbn beta.
    intros ie f (lc & lg & lc' & lg' & Hx). eauto 8.
  - rewrite Hcnt. unfold recorded_indices, enumerate.
    by rewrite (bind_imap_snd
      (fun ex => omap (recorded label_map (wrap_tokens max_seq_length (text ex)))
                      (label ex)) (fun i => i)).
Qed.

End Counts.

(** *** Accepted examples and accepted calls *)

Section Accepted.

Variable convert_tokens_to_ids : list pystr -> result (list Z).
Variable fl : Q -> Q.

Lemma accepted_lengths label_map max_seq_length label_count log ex_index example f lc lg :
  convert_example convert_tokens_to_ids label_map max_seq_length
    label_count log ex_index example = Ok (f, lc, lg) ->
  Z.of_nat (length (input_ids f)) = max_seq_length /\
  Z.of_nat (length (input_mask f)) = max_seq_length /\
  Z.of_nat (length (label_id f)) = max_seq_length /\
  exists ids,
    let tokens := [CLS] ++ take (Z.to_nat (max_seq_length - 2)) (text example) ++ [SEP] in
    let pad := Z.to_nat (max_seq_length - Z.of_nat (length tokens)) in
    convert_tokens_to_ids tokens = Ok ids /\
    length ids = length tokens /\
    input_ids f = ids ++ replicate pad 0 /\
    input_mask f = replicate (length tokens) 1 ++ replicate pad 0.
Proof.
  intros H.
  apply convert_example_inv in H as (ids & st & Hids & Hlen & Hst & Hle & Hpos & -> & _).
  cbv zeta in Hids, Hlen, Hst.
  apply annotations_lengths in Hst as [Hl1 _]. cbn [st_label_ids] in Hl1.
  rewrite length_list_repeat in Hl1.
  pose proof (wrap_tokens_at_least_2 max_seq_length (text example)) as H2.
  assert (2 <= max_seq_length) as Hm by lia.
  rewrite wrap_tokens_unfold in Hids, Hlen by done.
  cbn [input_ids input_mask label_id].
  rewrite !length_app, !length_list_repeat, Hl1.
  split; [lia|]. split; [lia|]. split; [lia|].
  exists ids. cbv zeta. rewrite !length_app in Hlen. rewrite Hlen.
  unfold list_repeat. by rewrite Nat2Z.id.
Qed.

(** C2. Every example the encoder accepts, whatever the length of its text,
    yields [input_ids], [input_mask] and [label_ids] of length
    [max_seq_length]: the tokens are the text cut to [max_seq_length - 2]
    between the two markers, and ids and mask are padded with zeros on the
    right.  With a sequence length of at least 2, a tokenizer giving one id
    per token, known labels and an in-range polyphone position the example
    is accepted.  An accepted call returns one such feature per example. *)
Theorem feature_lengths label_list max_seq_length label_count log ex_index example :
  (forall ids,
     2 <= max_seq_length ->
     convert_tokens_to_ids (wrap_tokens max_seq_length (text example)) = Ok ids ->
     length ids = length (wrap_tokens max_seq_length (text example)) ->
     length label_count = length label_list ->
     Forall (annotation_known label_list (wrap_tokens max_seq_length (text example)))
            (label example) ->
     position example + 1 < max_seq_length ->
     exists r, convert_example convert_tokens_to_ids (build_label_map label_list)
                 max_seq_length label_count log ex_index example = Ok r) /\
  (forall f lc lg,
     convert_example convert_tokens_to_ids (build_label_map label_list)
       max_seq_length label_count log ex_index example = Ok (f, lc, lg) ->
     Z.of_nat (length (input_ids f)) = max_seq_length /\
     Z.of_nat (length (input_mask f)) = max_seq_length /\
     Z.of_nat (length (label_id f)) = max_seq_length /\
     exists ids,
       let tokens := [CLS] ++ take (Z.to_nat (max_seq_length - 2)) (text example) ++ [SEP] in
       let pad := Z.to_nat (max_seq_length - Z.of_nat (length tokens)) in
       convert_tokens_to_ids tokens = Ok ids /\
       length ids = length tokens /\
       input_ids f = ids ++ replicate pad 0 /\
       input_mask f = replicate (length tokens) 1 ++ replicate pad 0) /\
  (forall examples labels enc,
     convert_examples_to_features convert_tokens_to_ids fl examples labels
       max_seq_length = Ok enc ->
     length (enc_features enc) = length examples /\
     Forall (fun f => Z.of_nat (length (input_ids f)) = max_seq_length /\
                      Z.of_nat (length (input_mask f)) = max_seq_length /\
                      Z.of_nat (length (label_id f)) = max_seq_length)
            (enc_features enc)).
Proof.
  split; [|split].
  - intros ids. by apply convert_example_accepts.
  - by apply accepted_lengths.
  - intros examples labels enc
      (ll & m & a & ls & w & _ & _ & _ & [Hall _]%convert_loop_inv & _ & ->)
      %convert_examples_to_features_inv.
    cbn [enc_features]. split; [symmetry; by eapply Forall2_length|].
    eapply Forall2_Forall_r; [exact Hall|]. apply Forall_forall.
    intros ex _ f (lc & lg & k & lc' & lg' & H).
    apply accepted_lengths in H as (H1 & H2 & H3 & _). done.
Qed.

(** C9. [label_pos] is [example.position + 1]; the encoder raises whenever
    that is not below [max_seq_length] (the assertion on [label_pos] itself,
    when the example got that far), and an accepted example has
    [label_pos < max_seq_length].  So a call over examples one of which has
    its position at or beyond [max_seq_length - 1] raises, and an accepted
    call returns features that all have [label_pos] in range. *)
Theorem label_pos_in_range label_map max_seq_length label_count log ex_index example :
  (max_seq_length <= position example + 1 ->
   exists e, convert_example convert_tokens_to_ids label_map max_seq_length
               label_count log ex_index example = Raise e) /\
  (forall ids st,
     max_seq_length <= position example + 1 ->
     convert_tokens_to_ids (wrap_tokens max_seq_length (text example)) = Ok ids ->
     length ids = length (wrap_tokens max_seq_length (text example)) ->
     foldM (annotate label_map (wrap_tokens max_seq_length (text example)))
       {| st_label_ids := list_repeat (-1) max_seq_length;
          st_label_count := label_count;
          st_log := if Z.of_nat ex_index mod 100000 =? 0
                    then log ++ [Progress ex_index] else log |}
       (label example) = Ok st ->
     Z.of_nat (length ids) <= max_seq_length ->
     convert_example convert_tokens_to_ids label_map max_seq_length
       label_count log ex_index example = Raise (AssertionError LabelPosInRange)) /\
  (forall f lc lg,
     convert_example convert_tokens_to_ids label_map max_seq_length
       label_count log ex_index example = Ok (f, lc, lg) ->
     label_pos f = position example + 1 /\ label_pos f < max_seq_length) /\
  (forall examples labels,
     (forall enc,
        convert_examples_to_features convert_tokens_to_ids fl examples labels
          max_seq_length = Ok enc ->
        Forall2 (fun ex f => label_pos f = position ex + 1 /\
                             label_pos f < max_seq_length)
                examples (enc_features enc)) /\
     (Exists (fun ex => max_seq_length <= position ex + 1) examples ->
      exists e, convert_examples_to_features convert_tokens_to_ids fl examples labels
                  max_seq_length = Raise e)).
Proof.
  assert (Hrun : forall examples labels enc,
            convert_examples_to_features convert_tokens_to_ids fl examples labels
              max_seq_length = Ok enc ->
            Forall2 (fun ex f => label_pos f = position ex + 1 /\
                                 label_pos f < max_seq_length)
                    examples (enc_features enc)).
  { intros examples labels enc
      (ll & m & a & ls & w & _ & _ & _ & [Hall _]%convert_loop_inv & _ & ->)
      %convert_examples_to_features_inv.
    cbn [enc_features]. eapply Forall2_impl; [exact Hall|]. cbn beta.
    intros ex f (lc & lg & k & lc' & lg' & H).
    apply convert_example_inv in H as (ids & st & _ & _ & _ & _ & Hpos & -> & _).
    done. }
  split; [|split; [|split; [|intros examples labels; split; [by apply Hrun|]]]].
  - intros Hge.
    destruct (convert_example convert_tokens_to_ids label_map max_seq_length
                label_count log ex_index example) as [[[f lc] lg]|e] eqn:H; [|eauto].
    apply convert_example_inv in H as (_ & _ & _ & _ & _ & _ & Hpos & _). lia.
  - intros ids st Hge Hids Hlen Hst Hle. unfold convert_example.
    pose proof (wrap_tokens_at_least_2 max_seq_length (text example)) as H2.
    remember (wrap_tokens max_seq_length (text example)) as tokens.
    rewrite Hids. cbn [bind]. rewrite Hlen, Nat.eqb_refl. cbn [bind py_assert].
    rewrite Hst. cbn [bind].
    apply annotations_lengths in Hst as [Hl1 _]. cbn [st_label_ids] in Hl1.
    rewrite !length_app, !length_list_repeat, Hl1, length_list_repeat.
    pass_asserts.
    replace (position example + 1 <? max_seq_length) with false
      by (symmetry; apply Z.ltb_ge; lia).
    reflexivity.
  - intros f lc lg H.
    apply convert_example_inv in H as (ids & st & _ & _ & _ & _ & Hpos & -> & _).
    simpl. done.
  - intros Hex.
    destruct (convert_examples_to_features convert_tokens_to_ids fl examples labels
                max_seq_length) as [enc|e] eqn:H; [|eauto].
    exfalso. apply Hrun in H. apply Exists_exists in Hex as (ex & Hin & Hge).
    apply list_elem_of_lookup_1 in Hin as [i Hi].
    destruct (Forall2_lookup_l _ _ _ _ _ H Hi) as (f & _ & Hf1 & Hf2). lia.
Qed.

End Accepted.

(** *** The class weights *)

(** Bound on the relative error of storing an exact quotient: one rounding
    to binary64 followed by one to binary32 stays below [2^-23], as long as
    the quotient is in the range where binary32 neither underflows nor
    overflows; [2^-7] to [2^100] is well inside it. *)
Definition rounding_error : Q := 1 # 8388608.

Definition count_bound : Z := 2 ^ 100.

Definition in_range (q : Q) : Prop :=
  (1 # 128 <= q)%Q /\ (q <= inject_Z count_bound)%Q.

Definition accurate (fl : Q -> Q) : Prop :=
  forall q : Q, in_range q ->
    ((1 - rounding_error) * q <= fl q)%Q /\ (fl q <= (1 + rounding_error) * q)%Q.

Lemma weight_quotient_bound (M c : Z) :
  0 <= M -> 1 <= c ->
  (inject_Z M / inject_Z (c + 100) <= (100 # 101) * (inject_Z M / inject_Z 100))%Q.
Proof.
  intros HM Hc. unfold Qdiv. destruct (c + 100) as [|p|p] eqn:Hp; try lia.
  unfold Qle, Qmult, Qinv, inject_Z. cbn [Qnum Qden]. rewrite ?Pos2Z.inj_mul. nia.
Qed.

Lemma weight_in_range (M c : Z) :
  1 <= M <= count_bound -> 0 <= c <= M ->
  in_range (inject_Z M / inject_Z (c + 100)).
Proof.
  intros HM Hc. unfold in_range, count_bound in *.
  change (2 ^ 100) with 1267650600228229401496703205376 in *.
  unfold Qdiv. destruct (c + 100) as [|p|p] eqn:Hp; try lia.
  unfold Qle, Qmult, Qinv, inject_Z. cbn [Qnum Qden].
  rewrite ?Pos2Z.inj_mul. split; nia.
Qed.

Lemma rounded_order (fl : Q -> Q) (x y : Q) :
  accurate fl -> in_range x -> in_range y -> (y <= (100 # 101) * x)%Q ->
  (fl y < fl x)%Q.
Proof.
  intros Hfl Hx Hy Hxy.
  destruct (Hfl x Hx) as [Hx1 _]. destruct (Hfl y Hy) as [_ Hy2].
  destruct Hx as [Hx _]. destruct Hy as [Hy _].
  unfold rounding_error in *. lra.
Qed.

Lemma class_weight_spec (fl : Q -> Q) (counts : list Z) (w : list Q) :
  class_weight fl counts = Ok w ->
  exists m, py_max counts = Ok m /\
            w = map (fun c => fl (inject_Z m / inject_Z (c + 100))%Q) counts.
Proof.
  unfold class_weight. intros (m & Hm & Hw)%bind_Ok. exists m. split; [done|].
  clear Hm. apply mapM_Ok_Forall2 in Hw.
  induction Hw as [|c q cs qs Hcq _ IH]; [done|]. simpl. rewrite <- IH. f_equal.
  destruct (c + 100 =? 0); [discriminate | by inversion Hcq].
Qed.

Lemma recorded_in_range (ll : list pystr) tokens il idx :
  recorded (build_label_map ll) tokens il = Some idx ->
  0 <= idx < Z.of_nat (length ll).
Proof.
  unfold recorded. destruct (check_annotation tokens il.1 il.2) as [[l|e] l0] eqn:Hc;
    [|discriminate].
  apply check_annotation_Ok in Hc as [Hl _]. intros Hidx.
  by apply (build_label_map_range ll l); [eapply adapt_label_has_tab|].
Qed.

Lemma recorded_indices_in_range (ll : list pystr) max_seq_length examples idx :
  idx ∈ recorded_indices (build_label_map ll) max_seq_length examples ->
  0 <= idx < Z.of_nat (length ll).
Proof.
  unfold recorded_indices. intros (ex & Hidx & _)%list_elem_of_bind.
  apply list_elem_of_omap in Hidx as (il & _ & Hrec).
  by eapply recorded_in_range.
Qed.

Section Weights.

Variable convert_tokens_to_ids : list pystr -> result (list Z).
Variable fl : Q -> Q.
Hypothesis fl_accurate : accurate fl.


End Weights.

End EncoderSpec.

(** ** Properties of the run *)

Module RunSpec.
Import PyFacts Encoder EncoderSpec Run.

(** *** Feature preparation *)

(** A training set and an evaluation set over the spec's vocabulary: the
    first counts [dan4] once, the second counts [tan2] once. *)
Definition train_set : list InputExample :=
  [ {| guid := lit "0-0"; text := [lit "a"; [24377%N]; lit "b"];
       char := [24377%N]; label := [(1, dan4)]; position := 1 |} ].

Definition eval_set : list InputExample :=
  [ {| guid := lit "0-0"; text := [[24377%N]; lit "c"];
       char := [24377%N]; label := [(0, tan2)]; position := 0 |} ].

(** The reading under which the derived values are computed once: what
    [main] keeps is what the encoding of the training set produced. *)
Definition computed_once (convert_tokens_to_ids : list pystr -> result (list Z))
    (fl : Q -> Q) : Prop :=
  forall eval_every_epoch no_logit_mask use_weight hybrid_attention
         max_seq_length labels train_examples eval_examples p enc,
    prepare_features convert_tokens_to_ids fl eval_every_epoch no_logit_mask
      use_weight hybrid_attention max_seq_length labels train_examples eval_examples
      = Ok p ->
    convert_examples_to_features convert_tokens_to_ids fl train_examples labels
      max_seq_length = Ok enc ->
    masks p = (if no_logit_mask then None else Some (enc_masks enc)) /\
    weight p = (if use_weight then Some (enc_weight enc) else None) /\
    hybrid_mask p = (if hybrid_attention then Some (enc_attention_mask enc) else None).

(** With evaluation every epoch the weights kept are those of the
    evaluation set, not those of the training set. *)
Lemma weights_recomputed_for_eval :
  (exists enc p,
     convert_examples_to_features first_code_point_ids (fun q => q) train_set
       [dan4; tan2] 8 = Ok enc /\
     prepare_features first_code_point_ids (fun q => q) true false true false 8
       [dan4; tan2] train_set eval_set = Ok p /\
     enc_weight enc = replicate 8 [1 # 101; 1 # 100]%Q /\
     weight p = Some (replicate 8 [1 # 100; 1 # 101]%Q)) /\
  ~ computed_once first_code_point_ids (fun q => q).
Proof.
  split.
  - eexists _, _. split; [vm_compute; reflexivity|].
    split; [vm_compute; reflexivity|]. split; reflexivity.
  - intros H.
    destruct (convert_examples_to_features first_code_point_ids (fun q => q) train_set
                [dan4; tan2] 8) as [enc|e] eqn:Henc; [|by vm_compute in Henc].
    destruct (prepare_features first_code_point_ids (fun q => q) true false true false 8
                [dan4; tan2] train_set eval_set) as [p|e] eqn:Hp; [|by vm_compute in Hp].
    destruct (H _ _ _ _ _ _ _ _ _ _ Hp Henc) as (_ & Hw & _).
    vm_compute in Henc, Hp. inversion Henc; subst enc. inversion Hp; subst p.
    discriminate Hw.
Qed.

Section Prepared.

Variable convert_tokens_to_ids : list pystr -> result (list Z).
Variable fl : Q -> Q.

(** C7 (as the code has it). [main] encodes the training set and, with
    evaluation every epoch, the evaluation set in a second call; each call
    rebuilds vocabulary, masks and weights.  The adapted vocabulary, the label
    mask and the attention mask of the second call equal those of the first;
    the class weights kept are those of the last call, computed from the
    counts of its own examples. *)
Theorem derived_values_per_call eval_every_epoch no_logit_mask use_weight
    hybrid_attention max_seq_length labels train_examples eval_examples p :
  prepare_features convert_tokens_to_ids fl eval_every_epoch no_logit_mask
    use_weight hybrid_attention max_seq_length labels train_examples eval_examples
    = Ok p ->
  exists enc,
    convert_examples_to_features convert_tokens_to_ids fl train_examples labels
      max_seq_length = Ok enc /\
    train_features p = enc_features enc /\
    label_list p = enc_label_list enc /\
    adapt_label_list (label_list p) = Ok (label_list p) /\
    masks p = (if no_logit_mask then None else Some (enc_masks enc)) /\
    hybrid_mask p = (if hybrid_attention then Some (enc_attention_mask enc) else None) /\
    exists last,
      (if eval_every_epoch
       then convert_examples_to_features convert_tokens_to_ids fl eval_examples
              (enc_label_list enc) max_seq_length
       else convert_examples_to_features convert_tokens_to_ids fl train_examples
              labels max_seq_length) = Ok last /\
      weight p = (if use_weight then Some (enc_weight last) else None) /\
      eval_features p = (if eval_every_epoch then Some (enc_features last) else None).
Proof.
  unfold prepare_features. intros (enc & Henc & (last & Hlast & [= <-])%bind_Ok)%bind_Ok.
  exists enc. split; [done|]. cbn [train_features label_list masks hybrid_mask weight
                                   eval_features].
  pose proof Henc as Hinv.
  apply convert_examples_to_features_inv in Hinv
    as (ll & m1 & a1 & ls1 & w1 & Hll & Hm1 & Ha1 & _ & _ & Eenc).
  pose proof (adapt_label_list_idempotent _ _ Hll) as Hidem.
  destruct eval_every_epoch.
  - pose proof Hlast as Hinv2.
    apply convert_examples_to_features_inv in Hinv2
      as (ll2 & m2 & a2 & ls2 & w2 & Hll2 & Hm2 & Ha2 & _ & _ & Elast).
    rewrite Eenc in Hll2. cbn [enc_label_list] in Hll2.
    rewrite Hidem in Hll2. inversion Hll2; subst ll2. clear Hll2.
    rewrite Hm1 in Hm2. inversion Hm2; subst m2.
    rewrite Ha1 in Ha2. inversion Ha2; subst a2.
    subst enc last. cbn [enc_label_list enc_masks enc_attention_mask] in *.
    split; [done|]. split; [done|]. split; [done|]. split; [done|]. split; [done|].
    eexists. split; [exact Hlast|]. done.
  - inversion Hlast; subst last. subst enc. cbn [enc_label_list] in *.
    split; [done|]. split; [done|]. split; [done|]. split; [done|]. split; [done|].
    eexists. split; [exact Henc|]. done.
Qed.

End Prepared.

(** *** The training loop *)

Lemma div_succ (n g : Z) :
  0 <= n -> 0 < g ->
  (n + 1) / g = n / g + (if (n + 1) mod g =? 0 then 1 else 0).
Proof.
  intros Hn Hg. pose proof (Z.div_mod n g ltac:(lia)) as Hdm.
  pose proof (Z.mod_pos_bound n g Hg) as Hr.
  destruct (Z.eq_dec (n mod g + 1) g) as [He|Hne].
  - assert ((n + 1) mod g = 0) as ->.
    { symmetry. apply (Z.mod_unique _ _ (n / g + 1)); [lia | nia]. }
    simpl. symmetry. apply (Z.div_unique _ _ _ 0); [lia | nia].
  - assert ((n + 1) mod g = n mod g + 1) as Hm.
    { symmetry. apply (Z.mod_unique _ _ (n / g)); [lia | nia]. }
    rewrite Hm. replace (n mod g + 1 =? 0) with false by (symmetry; apply Z.eqb_neq; lia).
    symmetry. apply (Z.div_unique _ _ _ (n mod g + 1)); [lia | nia].
Qed.

Section LoopSpec.

Variable tensor : Type.
Variable mean : tensor -> tensor.
Variable div : tensor -> Z -> tensor.
Variable item : tensor -> Q.
Variable warmup_linear : Q -> Q -> Q.

Local Abbreviation train_step := (train_step tensor mean div item warmup_linear).

(** The loss handed to the backward pass. *)
Definition scaled_loss (args : train_args) (loss : tensor) : tensor :=
  let loss := if n_gpu args >? 1 then mean loss else loss in
  if gradient_accumulation_steps args >? 1
  then div loss (gradient_accumulation_steps args) else loss.

(** The rate the loop writes into the parameter groups. *)
Definition lr_this_step (args : train_args) (gs : Z) : Q :=
  (learning_rate args *
   warmup_linear (inject_Z gs / inject_Z (num_train_optimization_steps args))
                 (warmup_proportion args))%Q.

Definition is_step (o : op tensor) : bool :=
  match o with Step => true | _ => false end.
Definition is_zero_grad (o : op tensor) : bool :=
  match o with ZeroGrad => true | _ => false end.
Definition is_set_lr (o : op tensor) : bool :=
  match o with SetLR _ => true | _ => false end.
Definition is_backward (o : op tensor) : bool :=
  match o with Backward _ _ => true | _ => false end.

Definition count (f : op tensor -> bool) (l : list (op tensor)) : Z :=
  Z.of_nat (length (List.filter f l)).

Lemma count_app f l1 l2 : count f (l1 ++ l2) = count f l1 + count f l2.
Proof. unfold count. rewrite List.filter_app, length_app. lia. Qed.

Lemma train_step_update args st step b :
  1 <= gradient_accumulation_steps args ->
  (fp16 args = true -> num_train_optimization_steps args <> 0) ->
  (Z.of_nat step + 1) mod gradient_accumulation_steps args = 0 ->
  train_step args st step b =
    Ok {| global_step := global_step st + 1;
          tr_loss := (tr_loss st + item (scaled_loss args (batch_loss b)))%Q;
          nb_tr_examples := nb_tr_examples st + batch_size b;
          nb_tr_steps := nb_tr_steps st + 1;
          ops := ops st ++ [Backward (fp16 args) (scaled_loss args (batch_loss b))] ++
                 (if fp16 args then [SetLR (lr_this_step args (global_step st))] else []) ++
                 [Step; ZeroGrad] |}.
Proof.
  intros Hg Ht Hmod. unfold train_step.
  replace (gradient_accumulation_steps args =? 0) with false
    by (symmetry; apply Z.eqb_neq; lia).
  rewrite Hmod. cbn [Z.eqb]. fold (scaled_loss args (batch_loss b)).
  destruct (fp16 args) eqn:Hfp.
  - replace (num_train_optimization_steps args =? 0) with false
      by (symmetry; apply Z.eqb_neq; by apply Ht).
    cbn [bind]. fold (lr_this_step args (global_step st)).
    by rewrite <- !app_assoc.
  - cbn [bind]. by rewrite <- !app_assoc.
Qed.

Lemma train_step_accumulate args st step b :
  1 <= gradient_accumulation_steps args ->
  (Z.of_nat step + 1) mod gradient_accumulation_steps args <> 0 ->
  train_step args st step b =
    Ok {| global_step := global_step st;
          tr_loss := (tr_loss st + item (scaled_loss args (batch_loss b)))%Q;
          nb_tr_examples := nb_tr_examples st + batch_size b;
          nb_tr_steps := nb_tr_steps st + 1;
          ops := ops st ++ [Backward (fp16 args) (scaled_loss args (batch_loss b))] |}.
Proof.
  intros Hg Hmod. unfold train_step.
  replace (gradient_accumulation_steps args =? 0) with false
    by (symmetry; apply Z.eqb_neq; lia).
  replace ((Z.of_nat step + 1) mod gradient_accumulation_steps args =? 0) with false
    by (symmetry; by apply Z.eqb_neq).
  reflexivity.
Qed.

(** The steps of one epoch, counted. *)
Lemma epoch_steps args (batches : list (batch tensor)) st :
  1 <= gradient_accumulation_steps args ->
  (fp16 args = true -> num_train_optimization_steps args <> 0) ->
  exists st1,
    foldM (fun s ib => train_step args s ib.1 ib.2) st (enumerate batches) = Ok st1 /\
    let updates := Z.of_nat (length batches) / gradient_accumulation_steps args in
    global_step st1 = global_step st + updates /\
    count is_backward (ops st1) = count is_backward (ops st) + Z.of_nat (length batches) /\
    count is_step (ops st1) = count is_step (ops st) + updates /\
    count is_zero_grad (ops st1) = count is_zero_grad (ops st) + updates /\
    count is_set_lr (ops st1) =
      count is_set_lr (ops st) + (if fp16 args then updates else 0).
Proof.
  intros Hg Ht. induction batches as [|b batches IH] using rev_ind.
  - exists st. split; [done|]. cbv zeta. cbn [length]. rewrite Z.div_0_l by lia.
    destruct (fp16 args); repeat split; lia.
  - destruct IH as (st1 & Hst1 & Hgs & Hb & Hs & Hz & Hl). cbv zeta in *.
    rewrite enumerate_snoc, foldM_app, Hst1. cbn [bind foldM fst snd].
    rewrite length_app. cbn [length]. rewrite Nat2Z.inj_add. cbn [Z.of_nat Pos.of_succ_nat].
    rewrite (div_succ (Z.of_nat (length batches))) by lia.
    destruct (Z.eq_dec ((Z.of_nat (length batches) + 1) mod
                        gradient_accumulation_steps args) 0) as [Hmod|Hmod].
    + rewrite (train_step_update args st1 _ b Hg Ht Hmod). eexists. split; [done|].
      cbn [global_step ops]. rewrite Hmod. cbn [Z.eqb].
      rewrite !count_app, Hb, Hs, Hz, Hl.
      destruct (fp16 args); unfold count; simpl; repeat split; lia.
    + rewrite (train_step_accumulate args st1 _ b Hg Hmod). eexists. split; [done|].
      cbn [global_step ops].
      replace ((Z.of_nat (length batches) + 1) mod gradient_accumulation_steps args =? 0)
        with false by (symmetry; by apply Z.eqb_neq).
      rewrite !count_app, Hb, Hs, Hz, Hl.
      destruct (fp16 args); unfold count; simpl; repeat split; lia.
Qed.

(** C5 (as the code has it). The loss goes to the backward pass divided by
    the accumulation factor when that exceeds 1.  Optimizer step, gradient
    reset and the increment of the global step happen exactly on the steps
    whose 1-based number is a multiple of the factor, so an epoch of [n]
    batches makes [n / factor] updates.  The loop recomputes the learning
    rate at each update, from the global step before the increment, inside
    the fp16 branch only; outside it the loop leaves the rate to the
    optimizer. *)
Theorem accumulation_and_warmup args :
  1 <= gradient_accumulation_steps args ->
  (fp16 args = true -> num_train_optimization_steps args <> 0) ->
  (forall st step b,
     exists st',
       train_step args st step b = Ok st' /\
       let loss := if n_gpu args >? 1 then mean (batch_loss b) else batch_loss b in
       let loss := if gradient_accumulation_steps args >? 1
                   then div loss (gradient_accumulation_steps args) else loss in
       if (Z.of_nat step + 1) mod gradient_accumulation_steps args =? 0
       then global_step st' = global_step st + 1 /\
            ops st' =
              ops st ++ [Backward (fp16 args) loss] ++
              (if fp16 args
               then [SetLR (learning_rate args *
                            warmup_linear
                              (inject_Z (global_step st) /
                               inject_Z (num_train_optimization_steps args))
                              (warmup_proportion args))%Q]
               else []) ++
              [Step; ZeroGrad]
       else global_step st' = global_step st /\
            ops st' = ops st ++ [Backward (fp16 args) loss]) /\
  (forall batches st,
     exists st1,
       foldM (fun s ib => train_step args s ib.1 ib.2) st (enumerate batches) = Ok st1 /\
       let updates := Z.of_nat (length batches) / gradient_accumulation_steps args in
       global_step st1 = global_step st + updates /\
       count is_backward (ops st1) =
         count is_backward (ops st) + Z.of_nat (length batches) /\
       count is_step (ops st1) = count is_step (ops st) + updates /\
       count is_zero_grad (ops st1) = count is_zero_grad (ops st) + updates /\
       count is_set_lr (ops st1) =
         count is_set_lr (ops st) + (if fp16 args then updates else 0)).
Proof.
  intros Hg Ht. split.
  - intros st step b. cbv zeta.
    destruct (Z.eq_dec ((Z.of_nat step + 1) mod gradient_accumulation_steps args) 0)
      as [Hmod|Hmod].
    + rewrite (train_step_update args st step b Hg Ht Hmod). eexists. split; [done|].
      rewrite Hmod. cbn [Z.eqb global_step ops]. done.
    + rewrite (train_step_accumulate args st step b Hg Hmod). eexists. split; [done|].
      replace ((Z.of_nat step + 1) mod gradient_accumulation_steps args =? 0)
        with false by (symmetry; by apply Z.eqb_neq).
      done.
  - intros batches st. by apply epoch_steps.
Qed.

End LoopSpec.

Arguments is_step {tensor}.
Arguments is_zero_grad {tensor}.
Arguments is_set_lr {tensor}.
Arguments is_backward {tensor}.
Arguments count {tensor}.

(** A run on rational losses: factor 2, one device, ten optimisation steps. *)
Definition rational_step :=
  train_step Q (fun x => x) (fun x n => (x / inject_Z n)%Q) (fun x => x)
    warmup_linear_ramp.

Definition args_fp32 : train_args :=
  {| fp16 := false; n_gpu := 1; gradient_accumulation_steps := 2;
     learning_rate := 1 # 20000; warmup_proportion := 1 # 10;
     num_train_optimization_steps := 10; num_train_epochs := 3 |}.

Definition args_fp16 : train_args :=
  {| fp16 := true; n_gpu := 1; gradient_accumulation_steps := 2;
     learning_rate := 1 # 20000; warmup_proportion := 1 # 10;
     num_train_optimization_steps := 10; num_train_epochs := 3 |}.

Definition fresh : train_state Q :=
  {| global_step := 0; tr_loss := 0; nb_tr_examples := 0; nb_tr_steps := 0; ops := [] |}.

Definition unit_batch : batch Q := {| batch_size := 16; batch_loss := 1%Q |}.

(** The reading under which the loop sets the rate outside fp16 and leaves
    it to the optimizer inside fp16. *)
Definition lr_set_outside_fp16 (args : train_args) : Prop :=
  forall st step b st',
    ops st = [] ->
    rational_step args st step b = Ok st' ->
    (Z.of_nat step + 1) mod gradient_accumulation_steps args = 0 ->
    (fp16 args = false -> exists lr, SetLR lr ∈ ops st') /\
    (fp16 args = true -> forall lr, SetLR lr ∉ ops st').

(** Two batches of loss 1 with factor 2: without fp16 the loop never sets
    the rate, with fp16 it sets it before the update. *)
Lemma lr_set_inside_fp16_only :
  (exists st, foldM (fun s ib => rational_step args_fp32 s ib.1 ib.2) fresh
                (enumerate [unit_batch; unit_batch]) = Ok st /\
              global_step st = 1 /\
              ops st = [Backward false (1 # 2)%Q; Backward false (1 # 2)%Q;
                        Step; ZeroGrad]) /\
  (exists st, foldM (fun s ib => rational_step args_fp16 s ib.1 ib.2) fresh
                (enumerate [unit_batch; unit_batch]) = Ok st /\
              global_step st = 1 /\
              ops st = [Backward true (1 # 2)%Q; Backward true (1 # 2)%Q;
                        SetLR (0 # 200000)%Q; Step; ZeroGrad]) /\
  ~ lr_set_outside_fp16 args_fp32 /\
  ~ lr_set_outside_fp16 args_fp16.
Proof.
  split; [eexists; split; [vm_compute; reflexivity | by split]|].
  split; [eexists; split; [vm_compute; reflexivity | by split]|].
  split.
  - intros H.
    destruct (H fresh 1%nat unit_batch _ eq_refl eq_refl eq_refl) as [Hlr _].
    destruct (Hlr eq_refl) as [lr Hin]. vm_compute in Hin.
    repeat (apply elem_of_cons in Hin as [Hin|Hin]; [discriminate Hin|]).
    by apply elem_of_nil in Hin.
  - intros H.
    destruct (H fresh 1%nat unit_batch _ eq_refl eq_refl eq_refl) as [_ Hlr].
    apply (Hlr eq_refl (0 # 200000)%Q). vm_compute. right. left.
Qed.

(** *** Resumption *)

Lemma parse_digits_digits d : parse_digits (digits d) = Some d.
Proof. induction d; simpl; rewrite ?IHd; reflexivity. Qed.

Lemma digits_not_space d : Forall (fun c => is_space c = false) (digits d).
Proof. induction d; simpl; constructor; done. Qed.

Lemma digits_no_underscore d : UNDERSCORE ∉ digits d.
Proof.
  induction d; simpl; [apply not_elem_of_nil|..];
    (intros [H|H]%elem_of_cons; [discriminate H | done]).
Qed.

Lemma drop_spaces_id s : Forall (fun c => is_space c = false) s -> drop_spaces s = s.
Proof. intros [|c s' Hc _]; simpl; [done | by rewrite Hc]. Qed.

Lemma strip_id s : Forall (fun c => is_space c = false) s -> strip s = s.
Proof.
  intros H. unfold strip. rewrite (drop_spaces_id s H).
  rewrite drop_spaces_id by (by apply Forall_reverse). apply reverse_involutive.
Qed.

(** [int(str(z))] is [z]. *)
Lemma py_int_py_str z : py_int (py_str z) = Ok z.
Proof.
  unfold py_int, py_str. pose proof (DecimalZ.of_to z) as Hz.
  destruct (Z.to_int z) as [d|d] eqn:Hd.
  - assert (d <> Nil) as Hnil.
    { destruct z; simpl in Hd; inversion Hd; subst d; try discriminate;
        apply DecimalPos.Unsigned.to_uint_nonnil. }
    rewrite strip_id by apply digits_not_space.
    destruct d; try done; simpl; rewrite parse_digits_digits; simpl;
      by rewrite <- Hz.
  - assert (d <> Nil) as Hnil.
    { destruct z; simpl in Hd; inversion Hd; subst d.
      apply DecimalPos.Unsigned.to_uint_nonnil. }
    rewrite strip_id by (constructor; [done | apply digits_not_space]).
    cbn [N.eqb Pos.eqb fst snd]. rewrite parse_digits_digits.
    destruct d; try done; simpl; by rewrite <- Hz.
Qed.

Lemma py_str_no_underscore z : UNDERSCORE ∉ py_str z.
Proof.
  unfold py_str. destruct (Z.to_int z); [apply digits_no_underscore|].
  intros [H|H]%elem_of_cons; [discriminate H | by apply digits_no_underscore in H].
Qed.

Lemma py_str_nonempty z : py_str z <> [].
Proof.
  intros H. pose proof (py_int_py_str z) as Hi. rewrite H in Hi. discriminate Hi.
Qed.

Lemma last_field_from_plain acc s :
  UNDERSCORE ∉ s -> last_field_from acc s = acc ++ s.
Proof.
  revert acc. induction s as [|c s IH]; intros acc Hs; simpl; [by rewrite app_nil_r|].
  destruct (N.eqb_spec c UNDERSCORE) as [->|Hne].
  - exfalso. apply Hs. by left.
  - rewrite IH; [by rewrite <- app_assoc|]. intros H. apply Hs. by right.
Qed.

Lemma last_field_from_suffix acc base s :
  UNDERSCORE ∉ s -> last_field_from acc (base ++ UNDERSCORE :: s) = s.
Proof.
  intros Hs. revert acc. induction base as [|c base IH]; intros acc; simpl.
  - by apply (last_field_from_plain []).
  - destruct (N.eqb c UNDERSCORE); apply IH.
Qed.

Lemma last_field_tagged base z : last_field (tagged base z) = py_str z.
Proof. apply last_field_from_suffix, py_str_no_underscore. Qed.

Lemma char_matches_refl c : char_matches c c = true.
Proof.
  unfold char_matches. destruct (N.eqb_spec c DOT) as [->|_]; [done|].
  apply N.eqb_refl.
Qed.

Lemma match_here_prefix pat s : match_here pat (pat ++ s) = true.
Proof.
  induction pat as [|c pat IH]; simpl; [done|]. by rewrite char_matches_refl, IH.
Qed.

Lemma re_search_prefix pat s : re_search pat (pat ++ s) = true.
Proof.
  destruct (pat ++ s) eqn:E; simpl; rewrite <- E, match_here_prefix; done.
Qed.

Lemma tagged_not_base base z : tagged base z <> base.
Proof.
  unfold tagged. intros H. apply (f_equal length) in H.
  rewrite !length_app in H. simpl in H. lia.
Qed.

Lemma tagged_inj base z1 z2 : tagged base z1 = tagged base z2 -> z1 = z2.
Proof.
  intros H. apply (f_equal last_field) in H. rewrite !last_field_tagged in H.
  apply (f_equal py_int) in H. rewrite !py_int_py_str in H. by inversion H.
Qed.

Section ResumeSpec.

Variable WEIGHTS_NAME CONFIG_NAME OPTIMIZER_NAME : pystr.

Local Abbreviation find_max_epoch := (find_max_epoch WEIGHTS_NAME).
Local Abbreviation resume := (resume WEIGHTS_NAME CONFIG_NAME OPTIMIZER_NAME).

(** A file of the scan counts when the pattern is found in its name and the
    name is not the untagged one. *)
Definition counts_as_checkpoint (fname : pystr) : Prop :=
  re_search WEIGHTS_NAME fname = true /\ fname <> WEIGHTS_NAME.

Lemma tagged_counts z : counts_as_checkpoint (tagged WEIGHTS_NAME z).
Proof. split; [apply re_search_prefix | apply tagged_not_base]. Qed.

Lemma scan_from (files : list pystr) (a : Z) :
  (forall f, f ∈ files -> counts_as_checkpoint f -> exists e, f = tagged WEIGHTS_NAME e) ->
  exists m,
    foldM (fun max_epoch fname =>
             if re_search WEIGHTS_NAME fname && negb (bool_decide (fname = WEIGHTS_NAME))
             then let* e := py_int (last_field fname) in Ok (Z.max max_epoch e)
             else Ok max_epoch) a files = Ok m /\
    a <= m /\
    (m = a \/ tagged WEIGHTS_NAME m ∈ files) /\
    (forall e, tagged WEIGHTS_NAME e ∈ files -> e <= m) /\
    ((forall f, f ∈ files -> ~ counts_as_checkpoint f) -> m = a).
Proof.
  revert a. induction files as [|f files IH]; intros a Hcanon.
  - exists a. split; [done|]. split; [lia|]. split; [by left|]. split; [|done].
    intros e He. by apply elem_of_nil in He.
  - assert (Hrest : forall g, g ∈ files -> counts_as_checkpoint g ->
                              exists e, g = tagged WEIGHTS_NAME e).
    { intros g Hg. apply Hcanon. by right. }
    cbn [foldM].
    destruct (re_search WEIGHTS_NAME f && negb (bool_decide (f = WEIGHTS_NAME)))
      eqn:Hmatch.
    + apply andb_true_iff in Hmatch as [Hre Hne].
      apply negb_true_iff, bool_decide_eq_false in Hne.
      destruct (Hcanon f) as [e ->]; [by left | by split|].
      rewrite last_field_tagged, py_int_py_str. cbn [bind].
      destruct (IH (Z.max a e) Hrest) as (m & Hm & Hle & Hin & Hmax & Hnone).
      exists m. split; [done|]. split; [lia|]. split; [|split].
      * destruct Hin as [->|Hin]; [|right; by right].
        destruct (Z.max_spec a e) as [[_ ->]|[_ ->]]; [right; by left | by left].
      * intros e' [He'|He']%elem_of_cons; [|by apply Hmax].
        apply tagged_inj in He'. lia.
      * intros Hno. exfalso. apply (Hno (tagged WEIGHTS_NAME e)); [by left|].
        apply tagged_counts.
    + cbn [bind].
      destruct (IH a Hrest) as (m & Hm & Hle & Hin & Hmax & Hnone).
      exists m. split; [done|]. split; [done|]. split; [|split].
      * destruct Hin as [->|Hin]; [by left | right; by right].
      * intros e' [He'|He']%elem_of_cons; [|by apply Hmax]. exfalso.
        destruct (tagged_counts e') as [Hre Hne]. subst f.
        rewrite Hre in Hmatch. cbn [andb] in Hmatch.
        apply negb_false_iff, bool_decide_eq_true in Hmatch. done.
      * intros Hno. apply Hnone. intros g Hg. apply Hno. by right.
Qed.

(** C8. Training requested on an existing, non-empty output directory, with
    a weights-file name made of literal characters and dots (what [re_search]
    models).  When the files counting as checkpoints are the weights files
    tagged with the epochs of a non-empty list, the scan finds the highest
    epoch, the student is loaded from the weights file of exactly that epoch
    and the optimizer state from the optimizer file of that epoch if it is
    there.  When no file counts as a checkpoint the run stops with
    [ValueError]. *)
Theorem checkpoint_resumption (args : resume_args) (fs : file_system)
    (files : list pystr) :
  plain_pattern WEIGHTS_NAME ->
  do_train args = true ->
  output_dir fs = Some files ->
  files <> [] ->
  (forall epochs : list nat,
     epochs <> [] ->
     (forall f, f ∈ files -> counts_as_checkpoint f ->
                exists e, e ∈ epochs /\ f = tagged WEIGHTS_NAME (Z.of_nat e)) ->
     (forall e, e ∈ epochs -> tagged WEIGHTS_NAME (Z.of_nat e) ∈ files) ->
     let latest := Z.of_nat (max_list epochs) in
     find_max_epoch files = Ok latest /\
     resume args fs =
       Ok {| max_epoch := latest;
             student := FromCheckpoint (tagged WEIGHTS_NAME latest) (tagged CONFIG_NAME 0);
             optimizer_state :=
               if bool_decide (tagged OPTIMIZER_NAME latest ∈ files)
               then Some (tagged OPTIMIZER_NAME latest) else None |}) /\
  ((forall f, f ∈ files -> ~ counts_as_checkpoint f) ->
   find_max_epoch files = Ok (-1) /\
   resume args fs =
     Raise (ValueError
              "Output directory already exists but no model checkpoint was found.")).
Proof.
  intros _ Htrain Hdir Hne.
  assert (nonempty_dir fs = true) as Hnd.
  { unfold nonempty_dir. rewrite Hdir. by destruct files. }
  assert (entries fs = files) as Hent by (unfold entries; by rewrite Hdir).
  split.
  - intros epochs Hep Hcanon Hall. cbv zeta.
    destruct (scan_from files (-1)) as (m & Hm & Hle & Hin & Hmax & _).
    { intros f Hf Hc. destruct (Hcanon f Hf Hc) as (e & _ & ->). eauto. }
    assert (m = Z.of_nat (max_list epochs)) as ->.
    { pose proof (max_list_elem_of epochs Hep) as Hmx.
      pose proof (Hmax _ (Hall _ Hmx)) as Hge.
      destruct Hin as [->|Hin]; [lia|].
      destruct (Hcanon _ Hin (tagged_counts m)) as (e & He & Heq).
      apply tagged_inj in Heq. subst m.
      pose proof (max_list_elem_of_le _ _ He). lia. }
    split; [exact Hm|].
    unfold Run.resume. rewrite Hnd, Htrain, Hent. cbn [andb].
    fold find_max_epoch. unfold Run.find_max_epoch in *. rewrite Hm. cbn [bind].
    rewrite bool_decide_eq_true_2; [done|].
    apply Hall. by apply max_list_elem_of.
  - intros Hno.
    destruct (scan_from files (-1)) as (m & Hm & _ & _ & _ & Hnone).
    { intros f Hf Hc. by destruct (Hno f Hf). }
    rewrite (Hnone Hno) in Hm. split; [exact Hm|].
    unfold Run.resume. rewrite Hnd, Htrain, Hent. cbn [andb].
    unfold Run.find_max_epoch in *. rewrite Hm. cbn [bind].
    rewrite bool_decide_eq_false_2; [done|].
    intros Hin. apply (Hno _ Hin). apply tagged_counts.
Qed.

End ResumeSpec.

End RunSpec.

(** ** The theorems on concrete runs *)

Module Scenarios.
Import PyFacts Encoder EncoderSpec Run RunSpec.

Definition dan : pystr := [24377%N].

Definition vocabulary : list pystr := [dan4; tan2].

(** [CLS] a dan b [SEP] *)
Definition tokens5 : list pystr := [CLS; lit "a"; dan; lit "b"; SEP].

Definition blank : annot_state :=
  {| st_label_ids := list_repeat (-1) 8;
     st_label_count := [0; 0];
     st_log := [] |}.

(** Three training examples over the vocabulary, for a sequence length of 8:
    a short text, a text of exactly 6 tokens whose annotation names the wrong
    position, and a text of 8 tokens whose second annotation is cut off. *)
Definition example1 : InputExample :=
  {| guid := lit "0-0"; text := [lit "a"; dan; lit "b"];
     char := dan; label := [(1, dan4)]; position := 1 |}.

Definition example2 : InputExample :=
  {| guid := lit "0-1"; text := [dan; lit "a"; lit "b"; lit "c"; lit "d"; lit "e"];
     char := dan; label := [(1, [24377%N] ++ lit "tan2")]; position := 0 |}.

Definition example3 : InputExample :=
  {| guid := lit "0-2";
     text := [lit "a"; dan; lit "b"; lit "c"; lit "d"; lit "e"; lit "f"; dan];
     char := dan; label := [(1, tan2); (7, tan2)]; position := 1 |}.

Definition corpus : list InputExample := [example1; example2; example3].

Lemma exact_is_accurate : accurate (fun q => q).
Proof. intros q [Hq _]. unfold rounding_error. split; lra. Qed.

(** The end-to-end scenario of the spec: three features, each with
    [label_pos < 8], and an all-zero 2 x 2 label mask. *)
Example end_to_end :
  exists enc,
    convert_examples_to_features first_code_point_ids (fun q => q) corpus vocabulary 8
      = Ok enc /\
    length (enc_features enc) = 3%nat /\
    Forall (fun f => label_pos f < 8) (enc_features enc) /\
    enc_masks enc = replicate 8 [[0; 0]; [0; 0]] /\
    enc_label_count enc = [1; 1] /\
    map label_id (enc_features enc) =
      [ [-1; -1; 0; -1; -1; -1; -1; -1];
        [-1; -1; -1; -1; -1; -1; -1; -1];
        [-1; -1; 1; -1; -1; -1; -1; -1] ].
Proof.
  eexists. split; [vm_compute; reflexivity|]. cbn [enc_features enc_masks enc_label_count].
  split; [done|]. split; [|by repeat split].
  repeat constructor.
Qed.

(** A label listed twice keeps the index of its last occurrence only, and
    only that column is cleared. *)
Example repeated_label_mask :
  build_label_map [dan4; dan4] !! dan4 = Some 1 /\
  build_masks (build_label_map [dan4; dan4]) [dan4; dan4] =
    Ok (replicate 8 [[1; 0]; [1; 0]]).
Proof. split; vm_compute; reflexivity. Qed.

(** A matching annotation with a label outside the vocabulary stops the
    call. *)
Example unknown_label_raises :
  convert_examples_to_features first_code_point_ids (fun q => q)
    [ {| guid := lit "0-0"; text := [dan]; char := dan;
         label := [(0, [24377%N; TAB] ++ lit "dan1")]; position := 0 |} ]
    vocabulary 8 =
  Raise (KeyError ([24377%N; TAB] ++ lit "dan1")).
Proof. vm_compute. reflexivity. Qed.

Lemma annotation_outcome_witness :
  (exists st' c,
     annotate (build_label_map vocabulary) tokens5 blank (1, dan4) = Ok st' /\
     getitem (st_label_ids st') (1 + 1) = Ok 0 /\
     0 <= 0 /\
     st_label_count blank !! Z.to_nat 0 = Some c /\
     st_label_count st' = <[Z.to_nat 0 := c + 1]> (st_label_count blank) /\
     st_log st' = st_log blank) /\
  annotate (build_label_map vocabulary) tokens5 blank (0, dan4) =
    Ok {| st_label_ids := st_label_ids blank;
          st_label_count := st_label_count blank;
          st_log := st_log blank ++
                    [Skipped (AssertionError TokenMatchesLabel) tokens5 0 dan4] |} /\
  (exists f lc lg k,
     convert_example first_code_point_ids (build_label_map vocabulary) 8 [0; 0] [] 0
       example1 = Ok (f, lc, lg) /\
     py_index (Z.to_nat 8) (1 + 1) = Ok k /\
     (0 <= 1 + 1 -> Z.of_nat k = 1 + 1) /\
     0 <> -1 /\
     label_id f !! k = Some 0 /\
     forall j, (j < Z.to_nat 8)%nat -> j <> k -> label_id f !! j = Some (-1)).
Proof.
  destruct (annotation_outcome first_code_point_ids vocabulary) as [Hstep Hexample].
  split; [|split].
  - refine (proj1 (Hstep tokens5 blank 1 dan4 dan4 dan _ _ _ _) _ 0 _);
      [vm_compute; lia | reflexivity | reflexivity | reflexivity
      | reflexivity | vm_compute; reflexivity].
  - refine (proj2 (Hstep tokens5 blank 0 dan4 dan4 (lit "a") _ _ _ _) _);
      [vm_compute; lia | reflexivity | reflexivity | reflexivity | discriminate].
  - destruct (convert_example first_code_point_ids (build_label_map vocabulary) 8
                [0; 0] [] 0 example1) as [[[f lc] lg]|e] eqn:H;
      [|vm_compute in H; discriminate H].
    destruct (Hexample 8 [0; 0] [] 0%nat example1 f lc lg 1 dan4 dan4 0 H)
      as (k & Hk); [reflexivity | reflexivity | reflexivity | reflexivity
                   | vm_compute; reflexivity |].
    exists f, lc, lg, k. split; [reflexivity | exact Hk].
Defined.

Lemma feature_lengths_witness :
  Forall (fun example =>
    (exists r, convert_example first_code_point_ids (build_label_map vocabulary) 8
                 [0; 0] [] 0 example = Ok r) /\
    (exists f lc lg,
       convert_example first_code_point_ids (build_label_map vocabulary) 8
         [0; 0] [] 0 example = Ok (f, lc, lg) /\
       Z.of_nat (length (input_ids f)) = 8 /\
       Z.of_nat (length (input_mask f)) = 8 /\
       Z.of_nat (length (label_id f)) = 8))
    corpus /\
  (exists enc,
     convert_examples_to_features first_code_point_ids (fun q => q) corpus vocabulary 8
       = Ok enc /\
     length (enc_features enc) = length corpus /\
     Forall (fun f => Z.of_nat (length (input_ids f)) = 8 /\
                      Z.of_nat (length (input_mask f)) = 8 /\
                      Z.of_nat (length (label_id f)) = 8)
            (enc_features enc)).
Proof.
  assert (Hknown : forall example, example ∈ corpus ->
            Forall (annotation_known vocabulary (wrap_tokens 8 (text example)))
                   (label example)).
  { intros example Hin.
    repeat (apply elem_of_cons in Hin as [->|Hin]);
      [..|by apply elem_of_nil in Hin];
      repeat constructor; intros l' l0 Hc; vm_compute in Hc;
      inversion Hc; subst; eexists; vm_compute; reflexivity. }
  split.
  - apply Forall_forall. intros example Hin.
    destruct (feature_lengths first_code_point_ids (fun q => q) vocabulary 8 [0; 0] []
                0%nat example) as (Haccept & Hlen & _).
    assert (exists r, convert_example first_code_point_ids (build_label_map vocabulary) 8
                        [0; 0] [] 0 example = Ok r) as Hr.
    { pose proof (Hknown example Hin) as Hk.
      repeat (apply elem_of_cons in Hin as [->|Hin]);
        [..|by apply elem_of_nil in Hin];
        (eapply Haccept; [lia | reflexivity | reflexivity | reflexivity
                         | exact Hk | vm_compute; reflexivity]). }
    split; [exact Hr|]. destruct Hr as [[[f lc] lg] Hr].
    exists f, lc, lg. split; [exact Hr|].
    destruct (Hlen f lc lg Hr) as (H1 & H2 & H3 & _). by repeat split.
  - destruct (convert_examples_to_features first_code_point_ids (fun q => q) corpus
                vocabulary 8) as [enc|e] eqn:H; [|vm_compute in H; discriminate H].
    exists enc. split; [reflexivity|].
    exact (proj2 (proj2 (feature_lengths first_code_point_ids (fun q => q) vocabulary 8
                           [0; 0] [] 0%nat example1)) corpus vocabulary enc H).
Defined.

(** An example whose polyphone position lies outside the window of 4. *)
Definition example_far : InputExample :=
  {| guid := lit "0-3"; text := [lit "a"; lit "b"; lit "c"; dan];
     char := dan; label := []; position := 3 |}.

Lemma label_pos_in_range_witness :
  (exists e, convert_example first_code_point_ids (build_label_map vocabulary) 4
               [0; 0] [] 0 example_far = Raise e) /\
  convert_example first_code_point_ids (build_label_map vocabulary) 4
    [0; 0] [] 0 example_far = Raise (AssertionError LabelPosInRange) /\
  (exists f lc lg,
     convert_example first_code_point_ids (build_label_map vocabulary) 8
       [0; 0] [] 0 example1 = Ok (f, lc, lg) /\
     label_pos f = position example1 + 1 /\ label_pos f < 8) /\
  (exists e, convert_examples_to_features first_code_point_ids (fun q => q)
               [example1; example_far] vocabulary 4 = Raise e) /\
  (exists enc,
     convert_examples_to_features first_code_point_ids (fun q => q) corpus vocabulary 8
       = Ok enc /\
     Forall2 (fun ex f => label_pos f = position ex + 1 /\ label_pos f < 8)
             corpus (enc_features enc)).
Proof.
  destruct (label_pos_in_range first_code_point_ids (fun q => q)
              (build_label_map vocabulary) 4 [0; 0] [] 0%nat example_far)
    as (Hraise & Hassert & _ & Hcall).
  split; [|split; [|split; [|split]]].
  - apply Hraise. vm_compute. discriminate.
  - eapply Hassert;
      [vm_compute; discriminate | reflexivity | reflexivity | reflexivity
      | vm_compute; discriminate].
  - destruct (convert_example first_code_point_ids (build_label_map vocabulary) 8
                [0; 0] [] 0 example1) as [[[f lc] lg]|e] eqn:H;
      [|vm_compute in H; discriminate H].
    exists f, lc, lg. split; [reflexivity|].
    exact (proj1 (proj2 (proj2 (label_pos_in_range first_code_point_ids (fun q => q)
                                  (build_label_map vocabulary) 8 [0; 0] [] 0%nat
                                  example1))) f lc lg H).
  - apply (proj2 (Hcall [example1; example_far] vocabulary)).
    apply Exists_cons_tl, Exists_cons_hd. vm_compute. discriminate.
  - destruct (convert_examples_to_features first_code_point_ids (fun q => q) corpus
                vocabulary 8) as [enc|e] eqn:H; [|vm_compute in H; discriminate H].
    exists enc. split; [reflexivity|].
    exact (proj1 (proj2 (proj2 (proj2 (label_pos_in_range first_code_point_ids
                                         (fun q => q) (build_label_map vocabulary) 8
                                         [0; 0] [] 0%nat example1)))
                   corpus vocabulary) enc H).
Defined.

(** The second annotation of [example3] sits at position 7, beyond the 8
    wrapped tokens left by the cut to 6. *)
Lemma out_of_range_annotation_skipped_witness :
  Z.of_nat (length (wrap_tokens 8 (text example3))) <= 7 + 1 /\
  exists l0,
    (l0 = tan2 \/ adapt_label tan2 = Ok l0) /\
    annotate (build_label_map vocabulary) (wrap_tokens 8 (text example3)) blank (7, tan2) =
      Ok {| st_label_ids := st_label_ids blank;
            st_label_count := st_label_count blank;
            st_log := st_log blank ++
                      [Skipped IndexError (wrap_tokens 8 (text example3)) 7 l0] |} /\
    forall rest,
      foldM (annotate (build_label_map vocabulary) (wrap_tokens 8 (text example3)))
        blank ((7, tan2) :: rest) =
      foldM (annotate (build_label_map vocabulary) (wrap_tokens 8 (text example3)))
        {| st_label_ids := st_label_ids blank;
           st_label_count := st_label_count blank;
           st_log := st_log blank ++
                     [Skipped IndexError (wrap_tokens 8 (text example3)) 7 l0] |} rest.
Proof.
  assert (Z.of_nat (length (wrap_tokens 8 (text example3))) <= 7 + 1) as Hlen
    by (apply dropped_by_truncation; lia).
  split; [exact Hlen|].
  exact (out_of_range_annotation_skipped (build_label_map vocabulary)
           (wrap_tokens 8 (text example3)) blank 7 tan2 Hlen).
Defined.



Lemma hybrid_attention_layout_witness :
  0 <= 2 /\
  exists mask,
    build_attention_mask 2 = Ok mask /\
    length mask = 8%nat /\
    entry4 mask 0 0 1 1 = Some 1 /\
    entry4 mask 0 0 0 1 = Some 0 /\
    entry4 mask 7 3 1 0 = Some 0 /\
    entry4 mask 7 11 1 0 = Some 1.
Proof.
  assert (0 <= 2) as H2 by lia. split; [exact H2|].
  destruct (hybrid_attention_layout 2 H2) as (mask & Hmask & Hlen & _ & Hent).
  exists mask. split; [exact Hmask|]. split; [exact Hlen|].
  repeat split.
  - apply (Hent 0 0 1 1)%nat; vm_compute; lia.
  - apply (Hent 0 0 0 1)%nat; vm_compute; lia.
  - apply (Hent 7 3 1 0)%nat; vm_compute; lia.
  - apply (Hent 7 11 1 0)%nat; vm_compute; lia.
Defined.

Lemma derived_values_per_call_witness :
  exists p enc last,
    prepare_features first_code_point_ids (fun q => q) true false true true 8
      vocabulary train_set eval_set = Ok p /\
    convert_examples_to_features first_code_point_ids (fun q => q) train_set vocabulary 8
      = Ok enc /\
    convert_examples_to_features first_code_point_ids (fun q => q) eval_set
      (enc_label_list enc) 8 = Ok last /\
    label_list p = enc_label_list enc /\
    masks p = Some (enc_masks enc) /\
    hybrid_mask p = Some (enc_attention_mask enc) /\
    weight p = Some (enc_weight last).
Proof.
  destruct (prepare_features first_code_point_ids (fun q => q) true false true true 8
              vocabulary train_set eval_set) as [p|e] eqn:H;
    [|vm_compute in H; discriminate H].
  destruct (derived_values_per_call first_code_point_ids (fun q => q) true false true
              true 8 vocabulary train_set eval_set p H)
    as (enc & Henc & _ & Hll & _ & Hm & Hh & last & Hlast & Hw & _).
  exists p, enc, last. by repeat split.
Defined.

(** The scenario of the spec: factor 2, losses 1 and 1.  Only the second
    step updates; under fp16 the rate written there is computed from the
    global step before the increment. *)
Lemma accumulation_and_warmup_witness :
  1 <= gradient_accumulation_steps args_fp16 /\
  (exists st',
     rational_step args_fp16 fresh 0 unit_batch = Ok st' /\
     global_step st' = 0 /\
     ops st' = [Backward true (1 # 2)%Q]) /\
  (exists st',
     rational_step args_fp16 fresh 1 unit_batch = Ok st' /\
     global_step st' = 1 /\
     ops st' = [Backward true (1 # 2)%Q;
                SetLR (learning_rate args_fp16 *
                       warmup_linear_ramp (inject_Z 0 / inject_Z 10)
                         (warmup_proportion args_fp16))%Q;
                Step; ZeroGrad]) /\
  (exists st1,
     foldM (fun s ib => rational_step args_fp16 s ib.1 ib.2) fresh
       (enumerate [unit_batch; unit_batch]) = Ok st1 /\
     global_step st1 = 1 /\
     count is_step (ops st1) = 1 /\
     count is_set_lr (ops st1) = 1 /\
     count is_backward (ops st1) = 2).
Proof.
  assert (1 <= gradient_accumulation_steps args_fp16) as Hg by (vm_compute; discriminate).
  assert (fp16 args_fp16 = true -> num_train_optimization_steps args_fp16 <> 0) as Ht
    by (intros _; vm_compute; discriminate).
  destruct (accumulation_and_warmup Q (fun x => x) (fun x n => (x / inject_Z n)%Q)
              (fun x => x) warmup_linear_ramp args_fp16 Hg Ht) as [Hstep Hepoch].
  split; [exact Hg|]. split; [|split].
  - destruct (Hstep fresh 0%nat unit_batch) as (st' & Hst' & Hgs & Hops).
    exists st'. split; [exact Hst'|]. split; [exact Hgs | exact Hops].
  - destruct (Hstep fresh 1%nat unit_batch) as (st' & Hst' & Hgs & Hops).
    exists st'. split; [exact Hst'|]. split; [exact Hgs | exact Hops].
  - destruct (Hepoch [unit_batch; unit_batch] fresh)
      as (st1 & Hst1 & Hgs & Hb & Hs & _ & Hl).
    exists st1. split; [exact Hst1|]. split; [exact Hgs|].
    split; [exact Hs|]. split; [exact Hl | exact Hb].
Defined.

(** File names for a run: weights, configuration and optimizer state. *)
Definition weights_name : pystr := lit "pytorch_model.bin".
Definition config_name : pystr := lit "config.json".
Definition optimizer_name : pystr := lit "optimizer.bin".

(** An output directory after three epochs and a finished run. *)
Definition three_epochs : list pystr :=
  [ tagged config_name 1; tagged weights_name 0; tagged optimizer_name 0;
    tagged weights_name 2; tagged config_name 0; tagged optimizer_name 2;
    weights_name; tagged weights_name 1; tagged optimizer_name 1;
    tagged config_name 2; optimizer_name; config_name ].

(** An output directory holding only the files of a finished run. *)
Definition untagged_only : list pystr := [weights_name; config_name; lit "eval.txt"].

Definition train_again : resume_args :=
  {| do_train := true; no_pretrain := false; config_path := [];
     state_dir := []; bert_model := lit "bert-base-chinese" |}.

Lemma checkpoint_resumption_witness :
  plain_pattern weights_name /\
  (find_max_epoch weights_name three_epochs = Ok 2 /\
   resume weights_name config_name optimizer_name train_again
     {| output_dir := Some three_epochs; state_dir_exists := false |} =
     Ok {| max_epoch := 2;
           student := FromCheckpoint (tagged weights_name 2) (tagged config_name 0);
           optimizer_state := Some (tagged optimizer_name 2) |}) /\
  (find_max_epoch weights_name untagged_only = Ok (-1) /\
   resume weights_name config_name optimizer_name train_again
     {| output_dir := Some untagged_only; state_dir_exists := false |} =
     Raise (ValueError
              "Output directory already exists but no model checkpoint was found.")).
Proof.
  assert (plain_pattern weights_name) as Hplain.
  { unfold plain_pattern. apply Forall_forall. intros c Hc.
    repeat (apply elem_of_cons in Hc as [->|Hc];
            [intros Hm; repeat (apply elem_of_cons in Hm as [Hm|Hm];
                                [discriminate Hm|]);
             by apply elem_of_nil in Hm|]).
    by apply elem_of_nil in Hc. }
  split; [exact Hplain|]. split.
  - refine (proj1 (checkpoint_resumption weights_name config_name optimizer_name
                     train_again
                     {| output_dir := Some three_epochs; state_dir_exists := false |}
                     three_epochs Hplain eq_refl eq_refl _)
                  [0; 1; 2]%nat _ _ _); [discriminate | discriminate | |].
    + intros f Hf [Hre Hne].
      repeat (apply elem_of_cons in Hf as [->|Hf];
              [first [ by (exists 0%nat; split; [by left | reflexivity])
                     | by (exists 1%nat; split; [right; by left | reflexivity])
                     | by (exists 2%nat; split; [right; right; by left | reflexivity])
                     | by (exfalso; apply Hne; reflexivity)
                     | by (vm_compute in Hre; discriminate Hre) ]|]).
      by apply elem_of_nil in Hf.
    + intros e He.
      repeat (apply elem_of_cons in He as [->|He];
              [apply (bool_decide_unpack _); vm_compute; exact I|]).
      by apply elem_of_nil in He.
  - refine (proj2 (checkpoint_resumption weights_name config_name optimizer_name
                     train_again
                     {| output_dir := Some untagged_only; state_dir_exists := false |}
                     untagged_only Hplain eq_refl eq_refl _) _); [discriminate|].
    intros f Hf [Hre Hne].
    repeat (apply elem_of_cons in Hf as [->|Hf];
            [first [ by (apply Hne; reflexivity)
                   | by (vm_compute in Hre; discriminate Hre) ]|]).
    by apply elem_of_nil in Hf.
Defined.

End Scenarios.

(** ** Further properties of the feature encoder *)

Module EncoderMore.
Import PyFacts Encoder EncoderSpec.

(** *** The vocabulary *)

Lemma adapt_label_shape l l' :
  adapt_label l = Ok l' ->
  (TAB ∈ l -> l' = l) /\
  (TAB ∉ l -> exists c rest, l = c :: rest /\ l' = c :: TAB :: rest /\
                             before_tab l' = [c]).
Proof.
  unfold adapt_label. destruct (has_tab l) eqn:Ht.
  - intros [= <-]. apply has_tab_true in Ht. split; [done|]. by intros H.
  - apply has_tab_false in Ht. destruct l as [|c rest]; [discriminate|].
    intros [= <-]. split; [by intros H|]. intros _. exists c, rest.
    split; [done|]. split; [done|]. simpl.
    destruct (N.eqb_spec c TAB) as [->|Hne]; [exfalso; apply Ht; by left|].
    reflexivity.
Qed.

(** X1. The first loop of the encoder keeps a label that has the separator,
    puts the separator after the first code point of one that has none (that
    code point becomes the label's character), keeps the length of the list,
    and changes nothing when run again. *)
Theorem label_adaptation (label_list adapted : list pystr) :
  adapt_label_list label_list = Ok adapted ->
  length adapted = length label_list /\
  Forall2 (fun l l' =>
             (TAB ∈ l -> l' = l) /\
             (TAB ∉ l -> exists c rest, l = c :: rest /\ l' = c :: TAB :: rest /\
                                        before_tab l' = [c]))
          label_list adapted /\
  Forall (fun l' => TAB ∈ l') adapted /\
  adapt_label_list adapted = Ok adapted.
Proof.
  intros H. split; [by apply adapt_label_list_length|]. split; [|split].
  - apply mapM_Ok_Forall2 in H. eapply Forall2_impl; [exact H|].
    intros l l'. apply adapt_label_shape.
  - apply adapt_label_list_has_tab in H. eapply Forall_impl; [exact H|].
    intros l'. apply has_tab_true.
  - by eapply adapt_label_list_idempotent.
Qed.

Lemma mapM_raises {A B} (f : A -> result B) (e : exn) xs x :
  (forall y e', f y = Raise e' -> e' = e) ->
  x ∈ xs -> f x = Raise e -> mapM f xs = Raise e.
Proof.
  intros Honly Hin Hx. induction xs as [|y xs IH]; [by apply elem_of_nil in Hin|].
  simpl. destruct (f y) as [b|e'] eqn:Hy; simpl.
  - apply elem_of_cons in Hin as [->|Hin]; [congruence|].
    by rewrite (IH Hin).
  - by rewrite (Honly _ _ Hy).
Qed.

Section Vocabulary.

Variable convert_tokens_to_ids : list pystr -> result (list Z).
Variable fl : Q -> Q.

(** X2. An empty string among the labels stops every call with [IndexError],
    before any example is looked at. *)
Theorem empty_label_rejected examples label_list max_seq_length :
  [] ∈ label_list ->
  convert_examples_to_features convert_tokens_to_ids fl examples label_list
    max_seq_length = Raise IndexError.
Proof.
  intros Hin. unfold convert_examples_to_features, adapt_label_list.
  rewrite (mapM_raises adapt_label IndexError label_list []); [done| |done|done].
  intros y e' Hy. by apply adapt_label_Raise in Hy as [-> _].
Qed.

Lemma accepted_counts_length examples label_list max_seq_length enc :
  convert_examples_to_features convert_tokens_to_ids fl examples label_list
    max_seq_length = Ok enc ->
  length (enc_label_count enc) = length (enc_label_list enc) /\
  length (enc_label_list enc) = length label_list /\
  enc_label_count enc <> [].
Proof.
  intros (ll & masks & att & ls & w & Hll & _ & _ & Hls & Hw & ->)
    %convert_examples_to_features_inv.
  cbn [enc_label_count enc_label_list].
  apply convert_loop_inv in Hls as [_ Hcnt].
  split; [|split].
  - rewrite Hcnt, length_foldl_bump, length_list_repeat. apply Nat2Z.id.
  - by apply adapt_label_list_length.
  - intros Hnil. unfold class_weight in Hw. rewrite Hnil in Hw. discriminate Hw.
Qed.


Lemma accepted_example_window label_map max_seq_length label_count log ex_index
    example r :
  convert_example convert_tokens_to_ids label_map max_seq_length
    label_count log ex_index example = Ok r ->
  2 <= max_seq_length.
Proof.
  destruct r as [[f lc] lg].
  intros (ids & st & _ & Hlen & _ & Hle & _)%convert_example_inv.
  cbv zeta in Hlen.
  pose proof (wrap_tokens_at_least_2 max_seq_length (text example)). lia.
Qed.

(** X4. A call that returns was given a sequence length of at least 0, and of at
    least 2 as soon as there is an example: below 2 the two markers alone do
    not fit and every example is refused. *)
Theorem short_window_rejects examples label_list max_seq_length enc :
  convert_examples_to_features convert_tokens_to_ids fl examples label_list
    max_seq_length = Ok enc ->
  0 <= max_seq_length /\ (examples <> [] -> 2 <= max_seq_length).
Proof.
  intros (ll & masks & att & ls & w & _ & _ & Hatt & Hls & _ & ->)
    %convert_examples_to_features_inv.
  split.
  - by apply attention_heads in Hatt as [? _].
  - intros Hne. apply convert_loop_inv in Hls as [Hall _].
    destruct Hall as [|ex f exs fs (lc & lg & k & lc' & lg' & H) _]; [done|].
    by eapply accepted_example_window.
Qed.

End Vocabulary.

(** X5. [label_map] and the adapted label list are inverse to each other: a key
    other than ['_'] is mapped to a position at which the list holds it, every
    label of the list is a key, ['_'] is mapped to -1, and when no label is
    repeated position [i] is what the map gives for the label at [i]. *)
Theorem label_map_round_trip (label_list adapted : list pystr) :
  adapt_label_list label_list = Ok adapted ->
  let label_map := build_label_map adapted in
  label_map !! lit "_" = Some (-1) /\
  (forall l z, l <> lit "_" -> label_map !! l = Some z ->
               0 <= z < Z.of_nat (length adapted) /\ adapted !! Z.to_nat z = Some l) /\
  (forall l, l ∈ adapted -> exists z, label_map !! l = Some z /\
                                      adapted !! Z.to_nat z = Some l) /\
  (NoDup adapted ->
   forall i l, adapted !! i = Some l -> label_map !! l = Some (Z.of_nat i)).
Proof.
  intros Had label_map. pose proof (adapt_label_list_has_tab _ _ Had) as Htab.
  rewrite Forall_forall in Htab. split; [|split; [|split]].
  - unfold label_map, build_label_map. apply lookup_insert_eq.
  - intros l z Hne Hz. apply (build_label_map_lookup adapted l z Hne) in Hz
      as (k & -> & Hk & _). rewrite Nat2Z.id. split; [|done].
    apply lookup_lt_Some in Hk. lia.
  - intros l Hl. destruct (build_label_map_total adapted l (Htab l Hl) Hl) as [z Hz].
    exists z. split; [done|]. by apply (build_label_map_range adapted l z (Htab l Hl)).
  - intros Hnd i l Hi. apply build_label_map_NoDup; [done| |done].
    apply Htab. by eapply list_elem_of_lookup_2.
Qed.

(** *** The annotation loop *)

Lemma annotate_Ok_inv label_map tokens st i l st' :
  annotate label_map tokens st (i, l) = Ok st' ->
  (exists e l0, check_annotation tokens i l = (Raise e, l0) /\
                st' = skip st e tokens i l0) \/
  (exists l' l0 idx k kc c,
     check_annotation tokens i l = (Ok l', l0) /\
     label_map !! l' = Some idx /\
     py_index (length (st_label_ids st)) (i + 1) = Ok k /\
     py_index (length (st_label_count st)) idx = Ok kc /\
     st_label_count st !! kc = Some c /\
     st' = {| st_label_ids := <[k := idx]> (st_label_ids st);
              st_label_count := <[kc := c + 1]> (st_label_count st);
              st_log := st_log st |}).
Proof.
  unfold annotate. cbn [fst snd].
  destruct (check_annotation tokens i l) as [[l'|e] l0].
  - unfold dict_get. destruct (label_map !! l') as [idx|] eqn:Hidx; [|discriminate].
    cbn [bind].
    intros (ids & Hids & (c & Hc & (cnt & Hcnt & [= <-])%bind_Ok)%bind_Ok)%bind_Ok.
    apply setitem_Ok in Hids as (k & Hk & ->).
    apply getitem_Ok in Hc as (kc & Hkc & Hc).
    apply setitem_Ok in Hcnt as (kc' & Hkc' & ->).
    rewrite Hkc in Hkc'. inversion Hkc'; subst kc'.
    right. exists l', l0, idx, k, kc, c. by split_and!.
  - intros [= <-]. left. by exists e, l0.
Qed.

Lemma foldM_invariant_in {A B} (P : B -> Prop) (f : B -> A -> result B) xs :
  (forall acc x acc', x ∈ xs -> P acc -> f acc x = Ok acc' -> P acc') ->
  forall acc acc', P acc -> foldM f acc xs = Ok acc' -> P acc'.
Proof.
  induction xs as [|x xs IH]; intros Hstep acc acc' Hacc; simpl.
  - by intros [= <-].
  - intros (acc1 & H1 & H2)%bind_Ok. eapply IH; [|  |exact H2].
    + intros a y a' Hy. apply Hstep. by right.
    + eapply Hstep; [by left|exact Hacc|exact H1].
Qed.

(** What an entry of [label_ids] may be, for the vocabulary [ll] and the token
    sequence [tokens]: -1, or the index of a label of the vocabulary, whose
    character is the token at that place when [trusted] holds. *)
Definition valid_entry (ll : list pystr) (tokens : list pystr) (trusted : Prop)
    (k : nat) (v : Z) : Prop :=
  v = -1 \/
  (0 <= v < Z.of_nat (length ll) /\
   exists l, ll !! Z.to_nat v = Some l /\
             (trusted -> tokens !! k = Some (before_tab l))).

Lemma annotations_valid (ll : list pystr) tokens anns st st' :
  (forall k v, st_label_ids st !! k = Some v ->
               valid_entry ll tokens (Forall (fun il => -1 <= il.1) anns) k v) ->
  foldM (annotate (build_label_map ll) tokens) st anns = Ok st' ->
  forall k v, st_label_ids st' !! k = Some v ->
              valid_entry ll tokens (Forall (fun il => -1 <= il.1) anns) k v.
Proof.
  intros Hst Hfold.
  refine (foldM_invariant_in
            (fun st => forall k v, st_label_ids st !! k = Some v ->
               valid_entry ll tokens (Forall (fun il => -1 <= il.1) anns) k v)
            _ anns _ st st' Hst Hfold).
  clear. intros st [i l] st' Hin Hinv Hann k v.
  apply annotate_Ok_inv in Hann
    as [(e & l0 & _ & ->)|(l' & l0 & idx & k0 & kc & c & Hc & Hidx & Hk0 & _ & _ & ->)].
  - apply Hinv.
  - cbn [st_label_ids]. destruct (decide (k = k0)) as [->|Hne].
    + apply py_index_Ok in Hk0 as Hlt. destruct Hlt as [Hlt Hcase].
      rewrite list_lookup_insert_eq by done. intros [= <-].
      apply check_annotation_Ok in Hc as [Hl Ht].
      pose proof (adapt_label_has_tab _ _ Hl) as Htab.
      destruct (build_label_map_range ll l' idx Htab Hidx) as [Hr Hl'].
      right. split; [done|]. exists l'. split; [done|].
      intros Htrust. rewrite Forall_forall in Htrust.
      specialize (Htrust _ Hin). cbn [fst] in Htrust.
      apply getitem_Ok in Ht as (k1 & Hk1 & Ht).
      apply py_index_Ok in Hk1 as [_ Hk1].
      assert (k1 = k0) as -> by lia. done.
    + rewrite list_lookup_insert_ne by done. apply Hinv.
Qed.

Definition total (counts : list Z) : Z := foldr Z.add 0 counts.

Definition skipped (log : list event) : Z :=
  foldr (fun e n => match e with Skipped _ _ _ _ => n + 1 | Progress _ => n end) 0 log.

Definition annotations (examples : list InputExample) : Z :=
  foldr (fun ex s => Z.of_nat (length (label ex)) + s) 0 examples.

Lemma skipped_app l1 l2 : skipped (l1 ++ l2) = skipped l1 + skipped l2.
Proof.
  induction l1 as [|e l1 IH]; simpl; [done|]. fold (skipped (l1 ++ l2)).
  fold (skipped l1). destruct e; lia.
Qed.

Lemma total_insert counts k c x :
  counts !! k = Some c -> total (<[k := x]> counts) = total counts + (x - c).
Proof.
  revert k. induction counts as [|y counts IH]; intros [|k]; simpl; try discriminate.
  - intros [= ->]. lia.
  - intros H. fold (total (<[k := x]> counts)). rewrite (IH _ H).
    fold (total counts). lia.
Qed.

Lemma total_replicate n : total (replicate n 0) = 0.
Proof. induction n as [|n IH]; simpl; [done|]. exact IH. Qed.

Lemma foldM_sum {A B} (m : B -> Z) (w : A -> Z) (f : B -> A -> result B) xs :
  (forall acc x acc', f acc x = Ok acc' -> m acc' = m acc + w x) ->
  forall acc acc', foldM f acc xs = Ok acc' ->
                   m acc' = m acc + foldr (fun x s => w x + s) 0 xs.
Proof.
  intros Hstep. induction xs as [|x xs IH]; intros acc acc'; simpl.
  - intros [= <-]. lia.
  - intros (acc1 & H1 & H2)%bind_Ok. rewrite (IH _ _ H2), (Hstep _ _ _ H1). lia.
Qed.

Lemma annotate_accounted label_map tokens st il st' :
  annotate label_map tokens st il = Ok st' ->
  total (st_label_count st') + skipped (st_log st') =
    total (st_label_count st) + skipped (st_log st) + 1.
Proof.
  destruct il as [i l].
  intros [(e & l0 & _ & ->)|(l' & l0 & idx & k0 & kc & c & _ & _ & _ & _ & Hc & ->)]
    %annotate_Ok_inv.
  - unfold skip. cbn [st_label_count st_log]. rewrite skipped_app. simpl. lia.
  - cbn [st_label_count st_log]. rewrite (total_insert _ _ _ _ Hc). lia.
Qed.

Lemma foldr_const_length {A} (xs : list A) :
  foldr (fun _ s => 1 + s) 0 xs = Z.of_nat (length xs).
Proof. induction xs as [|x xs IH]; simpl; [done|]. rewrite IH. lia. Qed.

Lemma foldr_imap_snd {A} (w : A -> Z) (g : nat -> A -> nat * A) xs :
  (forall i x, (g i x).2 = x) ->
  foldr (fun ie s => w ie.2 + s) 0 (imap g xs) = foldr (fun x s => w x + s) 0 xs.
Proof.
  revert g. induction xs as [|x xs IH]; intros g Hg; simpl; [done|].
  rewrite Hg. f_equal. apply IH. intros i y. apply Hg.
Qed.

Section Annotations.

Variable convert_tokens_to_ids : list pystr -> result (list Z).
Variable fl : Q -> Q.

Lemma convert_example_accounted label_map max_seq_length lc lg k ex f lc' lg' :
  convert_example convert_tokens_to_ids label_map max_seq_length lc lg k ex =
    Ok (f, lc', lg') ->
  total lc' + skipped lg' = total lc + skipped lg + Z.of_nat (length (label ex)).
Proof.
  intros (ids & st & _ & _ & Hfold & _ & _ & _ & -> & ->)%convert_example_inv.
  cbv zeta in Hfold.
  apply (foldM_sum (fun st => total (st_label_count st) + skipped (st_log st))
                   (fun _ => 1)) in Hfold.
  - rewrite Hfold, foldr_const_length. cbn [st_label_count st_log].
    destruct (Z.of_nat k mod 100000 =? 0); [|lia].
    rewrite skipped_app. simpl. lia.
  - intros acc x acc'. apply annotate_accounted.
Qed.

(** X6. Every annotation of every example is accounted for by a call that
    returns: it was either counted in [label_count] or printed and skipped,
    so the counts and the skipped lines add up to the number of annotations. *)
Theorem annotations_accounted examples label_list max_seq_length enc :
  convert_examples_to_features convert_tokens_to_ids fl examples label_list
    max_seq_length = Ok enc ->
  total (enc_label_count enc) + skipped (enc_log enc) = annotations examples.
Proof.
  intros (ll & masks & att & ls & w & _ & _ & _ & Hls & _ & ->)
    %convert_examples_to_features_inv.
  cbn [enc_label_count enc_log]. unfold convert_loop in Hls.
  apply (foldM_sum (fun ls => total (ls_label_count ls) + skipped (ls_log ls))
                   (fun ie => Z.of_nat (length (label ie.2)))) in Hls.
  - rewrite Hls. cbn [ls_label_count ls_log]. unfold list_repeat.
    rewrite total_replicate. simpl. unfold enumerate, annotations.
    by rewrite (foldr_imap_snd (fun ex => Z.of_nat (length (label ex)))).
  - intros acc [k ex] acc' (r & Hr & [= <-])%bind_Ok. destruct r as [[f lc'] lg'].
    cbn [ls_label_count ls_log fst snd] in *.
    by eapply convert_example_accounted.
Qed.

(** X7. In the features of a call that returns, an entry of [label_ids] is -1 or
    the index of a label of the adapted vocabulary; when the annotations of the
    example have positions from -1 on, that label's character is the token at
    the entry's place in the wrapped text. *)
Theorem label_ids_valid examples label_list max_seq_length enc :
  convert_examples_to_features convert_tokens_to_ids fl examples label_list
    max_seq_length = Ok enc ->
  Forall2 (fun ex f =>
             forall k v, label_id f !! k = Some v ->
               valid_entry (enc_label_list enc)
                 (wrap_tokens max_seq_length (text ex))
                 (Forall (fun il => -1 <= il.1) (label ex)) k v)
          examples (enc_features enc).
Proof.
  intros (ll & masks & att & ls & w & _ & _ & _ & Hls & _ & ->)
    %convert_examples_to_features_inv.
  cbn [enc_label_list enc_features].
  apply convert_loop_inv in Hls as [Hall _].
  eapply Forall2_impl; [exact Hall|]. clear.
  intros ex f (lc & lg & k & lc' & lg' & H).
  apply convert_example_inv in H as (ids & st & _ & _ & Hfold & _ & _ & -> & _).
  cbv zeta in Hfold. cbn [label_id].
  eapply annotations_valid; [|exact Hfold].
  cbn [st_label_ids]. intros j v Hj. left.
  unfold list_repeat in Hj. by apply lookup_replicate_1 in Hj as [-> _].
Qed.

Lemma annotations_unknown_label label_map tokens anns st i l l' :
  (i, l) ∈ anns ->
  adapt_label l = Ok l' ->
  getitem tokens (i + 1) = Ok (before_tab l') ->
  label_map !! l' = None ->
  exists e, foldM (annotate label_map tokens) st anns = Raise e.
Proof.
  intros Hin Hl Ht Hnone. revert st.
  induction anns as [|il anns IH]; intros st; [by apply elem_of_nil in Hin|].
  simpl. apply elem_of_cons in Hin as [<-|Hin].
  - rewrite (annotate_unknown_label _ _ _ _ _ _ Hl Ht Hnone). simpl. eauto.
  - destruct (annotate label_map tokens st il) as [st1|e]; simpl; [|eauto].
    by apply IH.
Qed.

(** X8. An annotation that passes the checks of the [try] (its token is the
    label's character) with a label that is not in the vocabulary is not
    skipped: the lookup of the [else] clause raises, and the whole call fails
    whatever the other examples are. *)
Theorem unknown_label_aborts examples label_list adapted max_seq_length ex i l l' :
  adapt_label_list label_list = Ok adapted ->
  ex ∈ examples -> (i, l) ∈ label ex ->
  adapt_label l = Ok l' ->
  getitem (wrap_tokens max_seq_length (text ex)) (i + 1) = Ok (before_tab l') ->
  l' ∉ adapted ->
  exists e, convert_examples_to_features convert_tokens_to_ids fl examples label_list
              max_seq_length = Raise e.
Proof.
  intros Had Hex Hin Hl Ht Hnot.
  destruct (convert_examples_to_features convert_tokens_to_ids fl examples label_list
              max_seq_length) as [enc|e] eqn:H; [exfalso|eauto].
  apply convert_examples_to_features_inv in H
    as (ll & masks & att & ls & w & Hll & _ & _ & Hls & _ & _).
  rewrite Had in Hll. inversion Hll; subst ll.
  apply convert_loop_inv in Hls as [Hall _].
  apply list_elem_of_lookup_1 in Hex as [n Hn].
  destruct (Forall2_lookup_l _ _ _ _ _ Hall Hn) as (f & _ & lc & lg & k & lc' & lg' & H).
  apply convert_example_inv in H as (ids & st & _ & _ & Hfold & _).
  cbv zeta in Hfold.
  assert (Hnone : build_label_map adapted !! l' = None).
  { destruct (build_label_map adapted !! l') as [z|] eqn:Hz; [|done].
    apply build_label_map_range in Hz as [_ Hz]; [|by eapply adapt_label_has_tab].
    exfalso. apply Hnot. by eapply list_elem_of_lookup_2. }
  destruct (annotations_unknown_label _ _ (label ex)
              {| st_label_ids := list_repeat (-1) max_seq_length;
                 st_label_count := lc;
                 st_log := if Z.of_nat k mod 100000 =? 0
                           then lg ++ [Progress k] else lg |}
              i l l' Hin Hl Ht Hnone) as [e He].
  rewrite He in Hfold. discriminate Hfold.
Qed.

End Annotations.

(** X9. The position of an annotation counts the characters of the example's
    text: for [0 <= i] below both the length of the text and
    [max_seq_length - 2], the token compared with the label's character is
    [text[i]]; position -1 reads the [CLS] marker. *)
Theorem annotation_reads_text max_seq_length (txt : list pystr) (i : Z) :
  2 <= max_seq_length ->
  (0 <= i < Z.of_nat (length txt) -> i < max_seq_length - 2 ->
   exists t, txt !! Z.to_nat i = Some t /\
             getitem (wrap_tokens max_seq_length txt) (i + 1) = Ok t) /\
  getitem (wrap_tokens max_seq_length txt) (-1 + 1) = Ok CLS.
Proof.
  intros Hm. rewrite wrap_tokens_unfold by done. split; [|reflexivity].
  intros Hi Hi'. destruct (lookup_lt_is_Some_2 txt (Z.to_nat i)) as [t Ht]; [lia|].
  exists t. split; [done|]. eapply getitem_index.
  - apply py_index_nonneg. cbn [app length]. rewrite length_app, length_take. simpl. lia.
  - replace (Z.to_nat (i + 1)) with (S (Z.to_nat i)) by lia.
    change (([CLS] ++ take (Z.to_nat (max_seq_length - 2)) txt ++ [SEP]) !! S (Z.to_nat i))
      with ((take (Z.to_nat (max_seq_length - 2)) txt ++ [SEP]) !! Z.to_nat i).
    rewrite lookup_app_l by (rewrite length_take; lia).
    rewrite lookup_take_lt by lia. done.
Qed.

Section Shapes.

Variable convert_tokens_to_ids : list pystr -> result (list Z).
Variable fl : Q -> Q.

(** X10. The tensors of a call that returns, for [n] labels: the candidate mask is
    8 equal copies of an [n] by [n] matrix of zeros and ones, the class weight
    8 equal copies of a vector of [n] weights, one per entry of the count
    list, and the attention mask 8 equal copies of 12 heads. *)
Theorem returned_shapes examples label_list max_seq_length enc :
  convert_examples_to_features convert_tokens_to_ids fl examples label_list
    max_seq_length = Ok enc ->
  let n := length label_list in
  (exists m, enc_masks enc = replicate 8 m /\ length m = n /\
             (forall i row, m !! i = Some row -> length row = n) /\
             (forall i j x, entry2 m i j = Some x -> x = 0 \/ x = 1)) /\
  (exists w, enc_weight enc = replicate 8 w /\ length w = n) /\
  length (enc_label_count enc) = n /\
  (exists heads, enc_attention_mask enc = replicate 8 heads /\ length heads = 12%nat).
Proof.
  intros H n. pose proof (accepted_counts_length _ _ _ _ _ _ H) as (Hc1 & Hc2 & _).
  apply convert_examples_to_features_inv in H
    as (ll & masks & att & ls & w & Hll & Hmasks & Hatt & _ & Hw & ->).
  cbn [enc_masks enc_weight enc_label_count enc_attention_mask enc_label_list] in *.
  split; [|split; [|split]].
  - destruct (build_masks_spec ll (adapt_label_list_has_tab _ _ Hll))
      as (m & Hm & Hlen & Hrows & Hentry).
    rewrite Hm in Hmasks. inversion Hmasks; subst masks.
    exists m. split; [done|]. split; [unfold n; congruence|].
    split; [intros i row Hrow; rewrite (Hrows i row Hrow); exact Hc2|].
    intros i j x Hx. unfold entry2 in Hx.
    destruct (m !! i) as [row|] eqn:Hrow; [|discriminate]. cbn in Hx.
    assert (Hi : (i < length ll)%nat) by (rewrite <- Hlen; by eapply lookup_lt_Some).
    assert (Hj : (j < length ll)%nat).
    { rewrite <- (Hrows i row Hrow). by eapply lookup_lt_Some. }
    destruct (lookup_lt_is_Some_2 ll i Hi) as [li Hli].
    pose proof (Hentry i j li Hli Hj) as He. unfold entry2 in He.
    rewrite Hrow in He. cbn in He. rewrite Hx in He.
    destruct (decide _) in He; inversion He; auto.
  - exists w. split; [done|].
    apply class_weight_spec in Hw as (mx & _ & ->). rewrite length_map. unfold n. congruence.
  - unfold n. congruence.
  - apply attention_heads in Hatt as [_ ->]. eexists. split; [reflexivity|done].
Qed.

End Shapes.

End EncoderMore.

(** ** The examples read from the data files *)

Module CorpusSpec.
Import PyFacts Run RunSpec Corpus.

Definition keys : list pystr := [lit "text"; lit "phone"; lit "position"; lit "char"].

(** Example [ex] is what record [dct] at place [i] gives. *)
Definition built_from {value : Type} (i : nat) (dct : gmap pystr value)
    (ex : RawExample value) : Prop :=
  raw_guid ex = guid_of i /\
  dct !! lit "text" = Some (raw_text ex) /\
  dct !! lit "phone" = Some (raw_label ex) /\
  dct !! lit "position" = Some (raw_position ex) /\
  dct !! lit "char" = Some (raw_char ex).

Lemma create_example_Ok {value : Type} (i : nat) (dct : gmap pystr value) ex :
  create_example i dct = Ok ex -> built_from i dct ex.
Proof.
  unfold create_example, dict_get, built_from.
  destruct (dct !! lit "text") as [t|]; [|discriminate].
  destruct (dct !! lit "phone") as [l|]; [|discriminate].
  destruct (dct !! lit "position") as [p|]; [|discriminate].
  destruct (dct !! lit "char") as [c|]; [|discriminate].
  by intros [= <-].
Qed.

Lemma create_example_Raise {value : Type} (i : nat) (dct : gmap pystr value) e :
  create_example i dct = Raise e ->
  exists k, e = KeyError k /\ k ∈ keys /\ dct !! k = None.
Proof.
  unfold create_example, dict_get, keys.
  destruct (dct !! lit "text") as [t|] eqn:Ht;
    [|intros [= <-]; eexists; split; [reflexivity|]; split; [|exact Ht];
      apply (bool_decide_unpack _); vm_compute; exact I].
  destruct (dct !! lit "phone") as [l|] eqn:Hl;
    [|intros [= <-]; eexists; split; [reflexivity|]; split; [|exact Hl];
      apply (bool_decide_unpack _); vm_compute; exact I].
  destruct (dct !! lit "position") as [p|] eqn:Hp;
    [|intros [= <-]; eexists; split; [reflexivity|]; split; [|exact Hp];
      apply (bool_decide_unpack _); vm_compute; exact I].
  destruct (dct !! lit "char") as [c|] eqn:Hc;
    [|intros [= <-]; eexists; split; [reflexivity|]; split; [|exact Hc];
      apply (bool_decide_unpack _); vm_compute; exact I].
  discriminate.
Qed.

Lemma _create_examples_snoc {value : Type} (dcts : list (gmap pystr value)) dct :
  _create_examples (dcts ++ [dct]) =
    let* examples := _create_examples dcts in
    let* example := create_example (length dcts) dct in
    Ok (examples ++ [example]).
Proof.
  unfold _create_examples. rewrite enumerate_snoc, foldM_app.
  destruct (foldM _ [] (enumerate dcts)) as [exs|e]; [|done]. simpl.
  by destruct (create_example (length dcts) dct).
Qed.

Lemma _create_examples_inv {value : Type} (dcts : list (gmap pystr value)) :
  (forall examples, _create_examples dcts = Ok examples ->
     length examples = length dcts /\
     forall i dct, dcts !! i = Some dct ->
       exists ex, examples !! i = Some ex /\ built_from i dct ex) /\
  (forall e, _create_examples dcts = Raise e ->
     exists i dct k, dcts !! i = Some dct /\ e = KeyError k /\ k ∈ keys /\
                     dct !! k = None /\
                     forall j d k', (j < i)%nat -> dcts !! j = Some d -> k' ∈ keys ->
                                    is_Some (d !! k')).
Proof.
  induction dcts as [|dct dcts [IHok IHerr]] using rev_ind.
  - split.
    + intros examples [= <-]. split; [done|]. intros i dct Hi.
      by rewrite lookup_nil in Hi.
    + intros e H. discriminate H.
  - rewrite _create_examples_snoc.
    destruct (_create_examples dcts) as [exs|e0] eqn:Hexs.
    + destruct (IHok exs eq_refl) as [Hlen Hall]. cbn [bind].
      destruct (create_example (length dcts) dct) as [ex|e1] eqn:Hex; cbn [bind].
      * split; [|intros e H; discriminate H].
        intros examples [= <-]. split; [rewrite !length_app; simpl; lia|].
        intros i d Hi. apply lookup_app_Some in Hi as [Hi|[Hge Hi]].
        -- destruct (Hall i d Hi) as (x & Hx & Hb). exists x. split; [|done].
           by apply lookup_app_l_Some.
        -- destruct (i - length dcts)%nat as [|n] eqn:Hn; [|discriminate Hi].
           inversion Hi; subst d. assert (i = length dcts) as -> by lia.
           exists ex. split; [|by apply create_example_Ok].
           rewrite lookup_app_r by lia. by rewrite Hlen, Nat.sub_diag.
      * split; [intros examples H; discriminate H|].
        intros e [= <-]. apply create_example_Raise in Hex as (k & -> & Hk & Hnone).
        exists (length dcts), dct, k. split; [|split; [done|split; [done|split; [done|]]]].
        { rewrite lookup_app_r by lia. by rewrite Nat.sub_diag. }
        intros j d k' Hj Hd Hk'. rewrite lookup_app_l in Hd by done.
        destruct (Hall j d Hd) as (x & _ & _ & H1 & H2 & H3 & H4).
        unfold keys in Hk'. rewrite !elem_of_cons in Hk'.
        destruct Hk' as [->|[->|[->|[->|Hk']]]]; [eauto..|by apply elem_of_nil in Hk'].
    + cbn [bind]. split; [intros examples H; discriminate H|].
      intros e [= <-]. destruct (IHerr e0 eq_refl) as (i & d & k & Hi & He & Hk & Hnone & Hbefore).
      exists i, d, k. split; [by apply lookup_app_l_Some|]. split; [done|].
      split; [done|]. split; [done|].
      intros j d' k' Hj Hd'. apply (Hbefore j d' k' Hj).
      apply lookup_lt_Some in Hi. by rewrite lookup_app_l in Hd' by lia.
Qed.

(** X11. [_create_examples] makes one example per record, in the order of the
    records, with the four fields read from the record and the guid made of
    the record's place; when it fails, the error is the [KeyError] of one of
    the four keys, missing from a record while all records before it were
    complete. *)
Theorem examples_from_records {value : Type} (dcts : list (gmap pystr value)) :
  (forall examples, _create_examples dcts = Ok examples ->
     length examples = length dcts /\
     forall i dct, dcts !! i = Some dct ->
       exists ex, examples !! i = Some ex /\ built_from i dct ex) /\
  (forall e, _create_examples dcts = Raise e ->
     exists i dct k, dcts !! i = Some dct /\ e = KeyError k /\ k ∈ keys /\
                     dct !! k = None /\
                     forall j d k', (j < i)%nat -> dcts !! j = Some d -> k' ∈ keys ->
                                    is_Some (d !! k')).
Proof. apply _create_examples_inv. Qed.

Lemma py_str_inj z1 z2 : py_str z1 = py_str z2 -> z1 = z2.
Proof.
  intros H. pose proof (py_int_py_str z1) as H1. rewrite H in H1.
  rewrite py_int_py_str in H1. by inversion H1.
Qed.

Lemma guid_of_inj i j : guid_of i = guid_of j -> i = j.
Proof.
  unfold guid_of. intros H. apply app_inv_head in H. apply app_inv_head in H.
  apply py_str_inj in H. lia.
Qed.

(** X12. The guids of the examples of one call are pairwise different. *)
Theorem guids_distinct {value : Type} (dcts : list (gmap pystr value)) examples :
  _create_examples dcts = Ok examples -> NoDup (raw_guid <$> examples).
Proof.
  intros H. destruct (_create_examples_inv dcts) as [Hok _].
  destruct (Hok examples H) as [Hlen Hall].
  apply NoDup_alt. intros i j g Hi Hj.
  apply list_lookup_fmap_Some in Hi as (xi & -> & Hxi).
  apply list_lookup_fmap_Some in Hj as (xj & Hg & Hxj).
  destruct (lookup_lt_is_Some_2 dcts i) as [di Hdi];
    [rewrite <- Hlen; by eapply lookup_lt_Some|].
  destruct (lookup_lt_is_Some_2 dcts j) as [dj Hdj];
    [rewrite <- Hlen; by eapply lookup_lt_Some|].
  destruct (Hall i di Hdi) as (x & Hx & Hgi & _). rewrite Hxi in Hx. inversion Hx; subst x.
  destruct (Hall j dj Hdj) as (y & Hy & Hgj & _). rewrite Hxj in Hy. inversion Hy; subst y.
  apply guid_of_inj. congruence.
Qed.

End CorpusSpec.

(** ** The per-position accuracy *)

Module MetricsSpec.
Import PyFacts Encoder EncoderSpec Metrics.

(** [j] is the place of the first greatest entry of [row]. *)
Definition first_max (row : list Q) (j : nat) : Prop :=
  exists m, row !! j = Some m /\
            (forall i x, row !! i = Some x -> (x <= m)%Q) /\
            (forall i x, (i < j)%nat -> row !! i = Some x -> (x < m)%Q).

Lemma argmax_from_first_max (pre row : list Q) (best : Q) (besti : nat) :
  pre !! besti = Some best -> first_max pre besti ->
  first_max (pre ++ row) (argmax_from best besti (length pre) row).
Proof.
  revert pre best besti.
  induction row as [|x row IH]; intros pre best besti Hb Hf; simpl.
  - by rewrite app_nil_r.
  - replace (pre ++ x :: row) with ((pre ++ [x]) ++ row) by (by rewrite <- app_assoc).
    replace (S (length pre)) with (length (pre ++ [x]))
      by (rewrite length_app; simpl; lia).
    destruct Hf as (m & Hm & Hle & Hlt). rewrite Hb in Hm. inversion Hm; subst m.
    destruct (Qlt_le_dec best x) as [Hlt'|Hle'].
    + apply (IH (pre ++ [x]) x (length pre)).
      * rewrite lookup_app_r by lia. by rewrite Nat.sub_diag.
      * exists x. split; [|split].
        -- rewrite lookup_app_r by lia. by rewrite Nat.sub_diag.
        -- intros i y Hy. apply lookup_app_Some in Hy as [Hy|[_ Hy]].
           ++ apply Qlt_le_weak. eapply Qle_lt_trans; [apply (Hle i y Hy)|done].
           ++ destruct (i - length pre)%nat; [|discriminate]. inversion Hy.
              apply Qle_refl.
        -- intros i y Hi Hy. rewrite lookup_app_l in Hy by done.
           eapply Qle_lt_trans; [apply (Hle i y Hy)|done].
    + apply (IH (pre ++ [x]) best besti).
      * by apply lookup_app_l_Some.
      * exists best. split; [by apply lookup_app_l_Some|]. split.
        -- intros i y Hy. apply lookup_app_Some in Hy as [Hy|[_ Hy]]; [by eapply Hle|].
           destruct (i - length pre)%nat; [|discriminate]. by inversion Hy; subst.
        -- intros i y Hi Hy. apply (Hlt i y Hi). rewrite lookup_app_l in Hy; [done|].
           apply lookup_lt_Some in Hb. lia.
Qed.

Lemma argmax_row_first_max (row : list Q) :
  row <> [] -> first_max row (argmax_row row).
Proof.
  destruct row as [|x row]; [done|]. intros _. unfold argmax_row.
  apply (argmax_from_first_max [x] row x 0); [done|].
  exists x. split; [done|]. split.
  - intros [|i] y Hy; [|discriminate]. inversion Hy. apply Qle_refl.
  - intros i y Hi. lia.
Qed.

Lemma first_max_unique (row : list Q) (j j' : nat) :
  first_max row j -> first_max row j' -> j = j'.
Proof.
  intros (m & Hm & Hle & Hlt) (m' & Hm' & Hle' & Hlt').
  destruct (Nat.lt_trichotomy j j') as [H|[H|H]]; [exfalso|done|exfalso].
  - apply (Qlt_not_le _ _ (Hlt' j m H Hm)). by eapply Hle.
  - apply (Qlt_not_le _ _ (Hlt j' m' H Hm')). by eapply Hle'.
Qed.

(** The label at [labels[i, p]] is -1. *)
Definition is_unlabelled (labels : array2 Z) (ip : nat * Z) : bool :=
  match getitem2 labels (Z.of_nat ip.1) ip.2 with
  | Ok l => l =? -1
  | Raise _ => false
  end.

Lemma getitem_nat {A} (l : list A) (k : nat) x :
  getitem l (Z.of_nat k) = Ok x -> l !! k = Some x.
Proof.
  intros (k' & Hk' & Hx)%getitem_Ok. apply py_index_Ok in Hk' as [_ Hk'].
  assert (k' = k) as -> by lia. done.
Qed.

Lemma score_Ok outputs labels st k p st' :
  score outputs labels st (k, p) = Ok st' ->
  exists o l,
    outputs !! k = Some o /\ getitem2 labels (Z.of_nat k) p = Ok l /\
    res st' = res st ++ [if Z.of_nat o =? l then 1 else 0] /\
    u_position <$> printed st' =
      (u_position <$> printed st) ++ (if l =? -1 then [p] else []).
Proof.
  unfold score. cbn [fst snd]. cbv zeta.
  destruct (getitem2 labels (Z.of_nat k) p) as [l|e] eqn:Hl; [|discriminate]. cbn [bind].
  destruct (l =? -1) eqn:Hm.
  - destruct (getitem outputs (Z.of_nat k)) as [o|e] eqn:Ho; [|discriminate]. cbn [bind].
    destruct (getitem (rows labels) (Z.of_nat k)) as [row|e]; [|discriminate]. cbn [bind].
    intros [= <-]. exists o, l. cbn [res printed]. split; [by apply getitem_nat|].
    split; [done|]. split; [done|]. by rewrite Hm, fmap_app.
  - cbn [bind]. destruct (getitem outputs (Z.of_nat k)) as [o|e] eqn:Ho; [|discriminate].
    cbn [bind]. intros [= <-]. exists o, l. cbn [res printed].
    split; [by apply getitem_nat|]. split; [done|]. split; [done|].
    by rewrite Hm, app_nil_r.
Qed.

Lemma score_loop outputs labels positions st :
  foldM (score outputs labels) {| res := []; printed := [] |} (enumerate positions) = Ok st ->
  length (res st) = length positions /\
  (forall k p, positions !! k = Some p ->
     exists o l, outputs !! k = Some o /\ getitem2 labels (Z.of_nat k) p = Ok l /\
                 res st !! k = Some (if Z.of_nat o =? l then 1 else 0)) /\
  u_position <$> printed st =
    snd <$> List.filter (is_unlabelled labels) (enumerate positions).
Proof.
  revert st. induction positions as [|p positions IH] using rev_ind; intros st.
  - intros [= <-]. split; [done|]. split; [|done]. intros k p Hk.
    by rewrite lookup_nil in Hk.
  - rewrite enumerate_snoc, foldM_app. intros (st1 & H1 & H2)%bind_Ok.
    cbn [foldM] in H2. apply bind_Ok in H2 as (st2 & H2 & [= ->]).
    destruct (IH st1 H1) as (Hlen & Hres & Hpr).
    apply score_Ok in H2 as (o & l & Ho & Hl & Hr & Hp).
    split; [|split].
    + rewrite Hr, !length_app. simpl. lia.
    + intros k q Hk. apply lookup_app_Some in Hk as [Hk|[Hge Hk]].
      * destruct (Hres k q Hk) as (o' & l' & Ho' & Hl' & Hr').
        exists o', l'. split; [done|]. split; [done|]. rewrite Hr.
        by apply lookup_app_l_Some.
      * destruct (k - length positions)%nat as [|n] eqn:Hn; [|discriminate].
        inversion Hk; subst q. assert (k = length positions) as -> by lia.
        exists o, l. split; [done|]. split; [done|]. rewrite Hr.
        rewrite lookup_app_r by lia. by rewrite Hlen, Nat.sub_diag.
    + rewrite Hp, Hpr, List.filter_app, fmap_app. f_equal. simpl.
      unfold is_unlabelled. cbn [fst snd]. rewrite Hl. by destruct (l =? -1).
Qed.

(** X13. [accuracy_list] gives one mark per position, 1 exactly when the label at
    that position is the place of the first greatest score of the row, so 0
    for a label of -1; and it prints one line for each position whose label
    is -1, in order. *)
Theorem accuracy_list_marks (out : array2 Q) (labels : array2 Z)
    (positions : list Z) (st : acc_state) :
  well_shaped out ->
  accuracy_list out labels positions = Ok st ->
  length (res st) = length positions /\
  (forall k p, positions !! k = Some p ->
     exists row l,
       rows out !! k = Some row /\ getitem2 labels (Z.of_nat k) p = Ok l /\
       (0 <= l /\ first_max row (Z.to_nat l) -> res st !! k = Some 1) /\
       (~ (0 <= l /\ first_max row (Z.to_nat l)) -> res st !! k = Some 0)) /\
  u_position <$> printed st =
    snd <$> List.filter (is_unlabelled labels) (enumerate positions).
Proof.
  intros Hshape. unfold accuracy_list, argmax_axis1.
  destruct (columns out =? 0)%nat eqn:Hcol; [discriminate|]. cbn [bind].
  apply Nat.eqb_neq in Hcol.
  intros (Hlen & Hres & Hpr)%score_loop. split; [done|]. split; [|done].
  intros k p Hk. destruct (Hres k p Hk) as (o & l & Ho & Hl & Hr).
  apply list_lookup_fmap_Some in Ho as (row & -> & Hrow).
  exists row, l. split; [done|]. split; [done|].
  assert (Hfm : first_max row (argmax_row row)).
  { apply argmax_row_first_max. intros ->.
    unfold well_shaped in Hshape. rewrite Forall_forall in Hshape.
    apply list_elem_of_lookup_2 in Hrow. apply Hshape in Hrow. simpl in Hrow. lia. }
  rewrite Hr. split.
  - intros [H0 Hl']. rewrite (first_max_unique _ _ _ Hfm Hl').
    by rewrite Z2Nat.id, Z.eqb_refl.
  - intros Hn. destruct (Z.eqb_spec (Z.of_nat (argmax_row row)) l) as [<-|Hne]; [|done].
    exfalso. apply Hn. split; [lia|]. by rewrite Nat2Z.id.
Qed.

Lemma score_total outputs labels st k p l :
  (k < length outputs)%nat ->
  getitem2 labels (Z.of_nat k) p = Ok l ->
  exists st', score outputs labels st (k, p) = Ok st'.
Proof.
  intros Hk Hl. unfold score. cbn [fst snd]. cbv zeta. rewrite Hl. cbn [bind].
  destruct (lookup_lt_is_Some_2 outputs k Hk) as [o Ho].
  assert (Hgo : getitem outputs (Z.of_nat k) = Ok o).
  { eapply getitem_index; [apply py_index_nonneg; lia|]. by rewrite Nat2Z.id. }
  rewrite Hgo. cbn [bind].
  destruct (l =? -1); cbn [bind]; [|eauto].
  unfold getitem2 in Hl. apply bind_Ok in Hl as (r & Hr & Hl).
  unfold getitem. rewrite Hr. cbn [bind].
  apply bind_Ok in Hl as (c & Hc & Hl).
  destruct (rows labels !! r) as [row|]; [|discriminate]. cbn [bind]. eauto.
Qed.

Lemma score_loop_total outputs labels positions :
  (length positions <= length outputs)%nat ->
  (forall k p, positions !! k = Some p ->
               exists l, getitem2 labels (Z.of_nat k) p = Ok l) ->
  exists st, foldM (score outputs labels) {| res := []; printed := [] |}
               (enumerate positions) = Ok st.
Proof.
  induction positions as [|p positions IH] using rev_ind; intros Hlen Hall.
  - simpl. eauto.
  - rewrite length_app in Hlen. simpl in Hlen.
    destruct IH as [st1 H1]; [lia| |].
    { intros k q Hk. apply Hall. by apply lookup_app_l_Some. }
    rewrite enumerate_snoc, foldM_app, H1. cbn [bind foldM].
    destruct (Hall (length positions) p) as [l Hl].
    { rewrite lookup_app_r by lia. by rewrite Nat.sub_diag. }
    destruct (score_total outputs labels st1 (length positions) p l) as [st' Hst'];
      [lia|done|].
    rewrite Hst'. simpl. eauto.
Qed.

Section OnFeatures.

Variable convert_tokens_to_ids : list pystr -> result (list Z).
Variable fl : Q -> Q.

(** X14. The [label_ids] and [label_pos] of the features of a call that returned
    fit [accuracy_list]: with one non-empty row of scores per feature, and
    example positions from -1 on, no index is out of range and one mark per
    feature comes back. *)
Theorem accuracy_list_on_features examples label_list max_seq_length enc
    (out : array2 Q) :
  convert_examples_to_features convert_tokens_to_ids fl examples label_list
    max_seq_length = Ok enc ->
  Forall (fun ex => -1 <= position ex) examples ->
  columns out <> 0%nat ->
  length (rows out) = length (enc_features enc) ->
  exists st,
    accuracy_list out
      {| columns := Z.to_nat max_seq_length; rows := label_id <$> enc_features enc |}
      (label_pos <$> enc_features enc) = Ok st /\
    length (res st) = length examples.
Proof.
  intros (ll & masks & att & ls & w & _ & _ & _ & Hls & _ & ->)
    %convert_examples_to_features_inv Hpos Hcol Hrows.
  cbn [enc_features] in *. apply convert_loop_inv in Hls as [Hall _].
  unfold accuracy_list, argmax_axis1.
  apply Nat.eqb_neq in Hcol. rewrite Hcol. cbn [bind].
  destruct (score_loop_total (map argmax_row (rows out))
              {| columns := Z.to_nat max_seq_length; rows := label_id <$> ls_features ls |}
              (label_pos <$> ls_features ls)) as [st Hst].
  - rewrite length_map, length_fmap. lia.
  - intros k p Hk. apply list_lookup_fmap_Some in Hk as (f & -> & Hf).
    destruct (Forall2_lookup_r _ _ _ _ _ Hall Hf) as (ex & Hex & lc & lg & n & lc' & lg' & H).
    pose proof (accepted_lengths _ _ _ _ _ _ _ _ _ _ H) as (_ & _ & Hlid & _).
    apply convert_example_inv in H as (ids & s & _ & _ & _ & _ & Hp & -> & _).
    cbn [label_pos label_id] in *.
    rewrite Forall_forall in Hpos.
    apply list_elem_of_lookup_2 in Hex. specialize (Hpos _ Hex).
    destruct (lookup_lt_is_Some_2 (st_label_ids s) (Z.to_nat (position ex + 1)))
      as [v Hv]; [lia|].
    exists v. unfold getitem2. cbn [rows columns].
    rewrite py_index_nonneg
      by (rewrite length_fmap; apply lookup_lt_Some in Hf; lia).
    cbn [bind]. rewrite py_index_nonneg by lia. cbn [bind].
    rewrite Nat2Z.id, list_lookup_fmap, Hf. cbn. by rewrite Hv.
  - exists st. split; [done|].
    apply score_loop in Hst as (Hlen & _). rewrite Hlen, length_fmap.
    symmetry. by eapply Forall2_length.
Qed.

End OnFeatures.

End MetricsSpec.

(** ** Further properties of the run *)

Module RunMore.
Import PyFacts EncoderSpec Run RunSpec Startup.

(** *** Argument checks *)

Section Plan.

Variable float : Type.
Variable int_div : Z -> Z -> float.
Variable float_div : float -> Z -> float.
Variable float_mul : float -> float -> float.
Variable ceil : float -> Z.

Local Abbreviation plan := (plan float int_div float_div float_mul ceil).

(** X15. What the argument checks let through: an accumulation factor of at
    least 1 (a smaller one is the first error, a [ValueError]), training or
    evaluation requested, and a batch size per step that is the requested one
    divided by the factor, rounded down; the step count is computed exactly
    when training is requested.  A requested batch size below the factor
    gives a batch size of 0, and a training run then stops with
    [ZeroDivisionError] in the step count. *)
Theorem plan_outcomes (gradient_accumulation_steps train_batch_size : Z)
    (do_train do_eval : bool) (examples : Z) (num_train_epochs : float)
    (world_size : option Z) :
  let run := plan gradient_accumulation_steps train_batch_size do_train do_eval
               examples num_train_epochs world_size in
  (gradient_accumulation_steps < 1 -> exists msg, run = Raise (ValueError msg)) /\
  (forall bs steps, run = Ok (bs, steps) ->
     1 <= gradient_accumulation_steps /\
     (do_train = true \/ do_eval = true) /\
     bs * gradient_accumulation_steps <= train_batch_size
       < bs * gradient_accumulation_steps + gradient_accumulation_steps /\
     (do_train = true -> bs <> 0 /\ world_size <> Some 0 /\ is_Some steps) /\
     (do_train = false -> steps = None)) /\
  (1 <= gradient_accumulation_steps ->
   0 <= train_batch_size < gradient_accumulation_steps ->
   do_train = true -> run = Raise ZeroDivisionError).
Proof.
  cbv zeta. unfold Startup.plan, check_args, optimization_steps. split; [|split].
  - intros Hg. replace (gradient_accumulation_steps <? 1) with true
      by (symmetry; apply Z.ltb_lt; lia).
    eexists. reflexivity.
  - intros bs steps.
    destruct (Z.ltb_spec gradient_accumulation_steps 1) as [Hg|Hg]; [discriminate|].
    pose proof (Z.div_mod train_batch_size gradient_accumulation_steps) as Hdm.
    pose proof (Z.mod_pos_bound train_batch_size gradient_accumulation_steps) as Hmb.
    destruct do_train, do_eval; cbn [negb andb bind]; try discriminate.
    1,2: destruct (Z.eqb_spec (train_batch_size / gradient_accumulation_steps) 0)
           as [H0|H0]; [discriminate|];
         destruct (Z.eqb_spec gradient_accumulation_steps 0); [lia|];
         destruct world_size as [w|];
           [destruct (Z.eqb_spec w 0) as [->|Hw]; [discriminate|]|];
         cbn [bind]; intros [= <- <-];
         (split; [lia|]); (split; [auto|]); (split; [nia|]);
         (split; [intros _; split; [done|]; split; [congruence|eauto]|discriminate]).
    intros [= <- <-]. split; [lia|]. split; [auto|]. split; [nia|].
    split; [discriminate|done].
  - intros Hg Hbs ->.
    replace (gradient_accumulation_steps <? 1) with false
      by (symmetry; apply Z.ltb_ge; lia).
    cbn [negb andb bind]. by rewrite Z.div_small.
Qed.

End Plan.

(** *** Names of the checkpoint files *)

(** X16. The epoch written into a checkpoint's name is read back by the scan:
    for any base name of literal characters and dots,
    [int(name.split('_')[-1])] of the tagged name is the epoch, the base name
    is found in the tagged name, and the tagged name is not the base name;
    different epochs give different names. *)
Theorem epoch_tag_round_trip (base : pystr) (ep : Z) :
  plain_pattern base ->
  py_int (last_field (tagged base ep)) = Ok ep /\
  re_search base (tagged base ep) = true /\
  tagged base ep <> base /\
  (forall ep', tagged base ep' = tagged base ep -> ep' = ep).
Proof.
  intros _. split; [by rewrite last_field_tagged, py_int_py_str|].
  split; [apply re_search_prefix|]. split; [apply tagged_not_base|].
  intros ep'. apply tagged_inj.
Qed.

Lemma py_int_Raise s e :
  py_int s = Raise e -> e = ValueError "invalid literal for int() with base 10".
Proof.
  unfold py_int. destruct (_.2) as [|c r]; [by intros [= <-]|].
  destruct (parse_digits _); [discriminate|by intros [= <-]].
Qed.

Section Scan.

Variable WEIGHTS_NAME CONFIG_NAME OPTIMIZER_NAME : pystr.

Local Abbreviation find_max_epoch := (find_max_epoch WEIGHTS_NAME).
Local Abbreviation resume := (resume WEIGHTS_NAME CONFIG_NAME OPTIMIZER_NAME).
Local Abbreviation counts_as_checkpoint := (counts_as_checkpoint WEIGHTS_NAME).

Lemma scan_stray (files : list pystr) (a : Z) (f : pystr) (e : exn) :
  f ∈ files -> counts_as_checkpoint f -> py_int (last_field f) = Raise e ->
  foldM (fun max_epoch fname =>
           if re_search WEIGHTS_NAME fname && negb (bool_decide (fname = WEIGHTS_NAME))
           then let* e := py_int (last_field fname) in Ok (Z.max max_epoch e)
           else Ok max_epoch) a files =
    Raise (ValueError "invalid literal for int() with base 10").
Proof.
  intros Hin [Hre Hne] Hint. revert a.
  induction files as [|g files IH]; intros a; [by apply elem_of_nil in Hin|].
  cbn [foldM]. apply elem_of_cons in Hin as [<-|Hin].
  - rewrite Hre, bool_decide_eq_false_2 by done. cbn [negb andb].
    rewrite Hint. cbn [bind]. by rewrite (py_int_Raise _ _ Hint).
  - destruct (re_search WEIGHTS_NAME g && negb (bool_decide (g = WEIGHTS_NAME))).
    + destruct (py_int (last_field g)) as [z|e'] eqn:Hg; cbn [bind].
      * by apply IH.
      * by rewrite (py_int_Raise _ _ Hg).
    + cbn [bind]. by apply IH.
Qed.


Lemma scan_at_least (files : list pystr) (m : Z) :
  find_max_epoch files = Ok m -> -1 <= m.
Proof.
  unfold Run.find_max_epoch.
  apply (foldM_invariant (fun m => -1 <= m)); [|lia].
  intros acc g acc' Hacc.
  destruct (re_search WEIGHTS_NAME g && negb (bool_decide (g = WEIGHTS_NAME))).
  - intros (z & _ & [= <-])%bind_Ok. lia.
  - intros [= <-]. done.
Qed.

(** X18. What a resumed run loads is there: the weights file and the optimizer
    state it names are entries of the output directory, tagged with the epoch
    found, which is never below -1; only a training run loads a checkpoint;
    the configuration named is always the one of epoch 0, whose presence is
    not looked at; and without a checkpoint the epoch is -1. *)
Theorem resume_loads_existing_files (args : resume_args) (fs : file_system)
    (r : resumed) :
  plain_pattern WEIGHTS_NAME ->
  resume args fs = Ok r ->
  (forall o, optimizer_state r = Some o ->
             o = tagged OPTIMIZER_NAME (max_epoch r) /\ o ∈ entries fs) /\
  match student r with
  | FromCheckpoint m c =>
      do_train args = true /\ -1 <= max_epoch r /\
      m = tagged WEIGHTS_NAME (max_epoch r) /\ m ∈ entries fs /\
      counts_as_checkpoint m /\ c = tagged CONFIG_NAME 0
  | _ => max_epoch r = -1
  end.
Proof.
  intros _. unfold Run.resume. intros (ms & Hms & [= <-])%bind_Ok.
  cbn [optimizer_state student max_epoch]. split.
  - intros o. destruct (bool_decide (tagged OPTIMIZER_NAME ms.1 ∈ entries fs)) eqn:Hb;
      [|intros Ho; discriminate Ho].
    apply bool_decide_eq_true in Hb. by intros [= <-].
  - destruct (nonempty_dir fs && do_train args) eqn:Hcond.
    + apply andb_prop in Hcond as [_ Hdo].
      apply bind_Ok in Hms as (m & Hm & Hms).
      destruct (bool_decide _) eqn:Hb in Hms; [|discriminate].
      apply bool_decide_eq_true in Hb. inversion Hms; subst ms. cbn [fst snd].
      pose proof (scan_at_least _ _ Hm) as Hge.
      split; [done|]. split; [done|].
      split; [done|]. split; [done|]. split; [apply tagged_counts|done].
    + destruct (no_pretrain args).
      * destruct (bool_decide (config_path args = [])); [discriminate|].
        by inversion Hms.
      * destruct (negb (bool_decide (config_path args = []))); by inversion Hms.
Qed.

End Scan.

(** *** Epochs of the training loop *)

(** The epochs of the checkpoints saved, in order. *)
Definition saves {tensor} (l : list (op tensor)) : list Z :=
  omap (fun o => match o with SaveCheckpoint ep => Some ep | _ => None end) l.

(** The updates of the first [epochs] epochs, epoch [ep] having [sizes ep]
    batches. *)
Fixpoint updates_in (factor : Z) (sizes : Z -> nat) (epochs : nat) : Z :=
  match epochs with
  | O => 0
  | S n => updates_in factor sizes n + Z.of_nat (sizes (Z.of_nat n)) / factor
  end.

Lemma saves_app {tensor} (l1 l2 : list (op tensor)) :
  saves (l1 ++ l2) = saves l1 ++ saves l2.
Proof. apply omap_app. Qed.

Lemma pending_app {tensor} (l1 l2 : list (op tensor)) :
  pending (l1 ++ l2) =
    foldl (fun n o => match o with
                      | Backward _ _ => S n
                      | ZeroGrad => 0%nat
                      | _ => n
                      end) (pending l1) l2.
Proof. unfold pending. apply foldl_app. Qed.

Section Epochs.

Variable tensor : Type.
Variable mean : tensor -> tensor.
Variable div : tensor -> Z -> tensor.
Variable item : tensor -> Q.
Variable warmup_linear : Q -> Q -> Q.

Local Abbreviation train_step := (train_step tensor mean div item warmup_linear).
Local Abbreviation train_epoch := (train_epoch tensor mean div item warmup_linear).
Local Abbreviation train := (train tensor mean div item warmup_linear).

Definition examples_seen (batches : list (batch tensor)) : Z :=
  foldr (fun b s => batch_size b + s) 0 batches.

Lemma examples_seen_snoc batches b :
  examples_seen (batches ++ [b]) = examples_seen batches + batch_size b.
Proof.
  unfold examples_seen. induction batches as [|x batches IH]; simpl; [lia|].
  rewrite IH. lia.
Qed.

Lemma batches_run args (batches : list (batch tensor)) st :
  1 <= gradient_accumulation_steps args ->
  (fp16 args = true -> num_train_optimization_steps args <> 0) ->
  exists st1,
    foldM (fun s ib => train_step args s ib.1 ib.2) st (enumerate batches) = Ok st1 /\
    let n := Z.of_nat (length batches) in
    global_step st1 = global_step st + n / gradient_accumulation_steps args /\
    nb_tr_steps st1 = nb_tr_steps st + n /\
    nb_tr_examples st1 = nb_tr_examples st + examples_seen batches /\
    saves (ops st1) = saves (ops st) /\
    Z.of_nat (pending (ops st1)) =
      (if n <? gradient_accumulation_steps args
       then Z.of_nat (pending (ops st)) + n
       else n mod gradient_accumulation_steps args).
Proof.
  intros Hg Ht. induction batches as [|b batches IH] using rev_ind.
  - exists st. split; [done|]. cbv zeta. cbn [length]. rewrite Z.div_0_l by lia.
    replace (Z.of_nat 0 <? gradient_accumulation_steps args) with true
      by (symmetry; apply Z.ltb_lt; lia).
    unfold examples_seen. simpl. repeat split; lia.
  - destruct IH as (st1 & Hst1 & Hgs & Hn & Hx & Hs & Hp). cbv zeta in *.
    rewrite enumerate_snoc, foldM_app, Hst1. cbn [bind foldM fst snd].
    rewrite length_app. cbn [length]. rewrite Nat2Z.inj_add. change (Z.of_nat 1) with 1.
    rewrite examples_seen_snoc.
    pose proof (div_succ (Z.of_nat (length batches)) (gradient_accumulation_steps args))
      as Hds.
    pose proof (Z.div_mod (Z.of_nat (length batches)) (gradient_accumulation_steps args))
      as Hdm.
    pose proof (Z.div_mod (Z.of_nat (length batches) + 1) (gradient_accumulation_steps args))
      as Hdm1.
    pose proof (Z.mod_pos_bound (Z.of_nat (length batches)) (gradient_accumulation_steps args))
      as Hmb.
    pose proof (Z.mod_pos_bound (Z.of_nat (length batches) + 1)
                  (gradient_accumulation_steps args)) as Hmb1.
    pose proof (Z.div_small (Z.of_nat (length batches)) (gradient_accumulation_steps args))
      as Hsmall.
    pose proof (Z.div_small (Z.of_nat (length batches) + 1) (gradient_accumulation_steps args))
      as Hsmall1.
    set (g := gradient_accumulation_steps args) in *.
    set (n := Z.of_nat (length batches)) in *.
    assert (Hn0 : 0 <= n) by (unfold n; lia). assert (Hg0 : 0 < g) by lia.
    assert (Hg1 : g <> 0) by lia.
    specialize (Hds Hn0 Hg0). specialize (Hdm Hg1). specialize (Hdm1 Hg1).
    specialize (Hmb Hg0). specialize (Hmb1 Hg0).
    destruct (Z.eq_dec ((n + 1) mod g) 0) as [Hmod|Hmod].
    + rewrite (train_step_update _ mean div item warmup_linear args st1 _ b Hg Ht Hmod).
      eexists. split; [done|]. cbn [global_step nb_tr_steps nb_tr_examples ops].
      rewrite Hmod in Hds. cbn [Z.eqb] in Hds.
      rewrite !saves_app, !pending_app, Hs.
      split; [lia|]. split; [lia|]. split; [lia|]. split.
      * destruct (fp16 args); simpl; by rewrite app_nil_r.
      * assert (Hz : foldl (fun n o => match o with
                                       | Backward _ _ => S n
                                       | ZeroGrad => 0%nat
                                       | _ => n
                                       end)
                       (pending (ops st1))
                       ([Backward (fp16 args)
                           (scaled_loss tensor mean div args (batch_loss b))] ++
                        (if fp16 args
                         then [SetLR (lr_this_step warmup_linear args (global_step st1))]
                         else []) ++ [Step; ZeroGrad]) = 0%nat)
          by (by destruct (fp16 args)).
        rewrite Hz. destruct (Z.ltb_spec (n + 1) g) as [Hlt|Hge]; [|lia].
        specialize (Hsmall1 ltac:(lia)). lia.
    + rewrite (train_step_accumulate _ mean div item warmup_linear args st1 _ b Hg Hmod).
      eexists. split; [done|]. cbn [global_step nb_tr_steps nb_tr_examples ops].
      replace ((n + 1) mod g =? 0) with false in Hds by (symmetry; by apply Z.eqb_neq).
      rewrite !saves_app, !pending_app, Hs. cbn [foldl saves omap].
      split; [lia|]. split; [lia|]. split; [lia|]. split; [simpl; by rewrite app_nil_r|].
      rewrite Nat2Z.inj_succ, Hp.
      destruct (Z.ltb_spec n g) as [Hlt|Hge];
        destruct (Z.ltb_spec (n + 1) g) as [Hlt1|Hge1]; lia.
Qed.

(** X19. One epoch always completes when the accumulation factor is at least 1
    (and the step count is not 0 under fp16).  Its counters start at zero; it
    saves its checkpoint last; and gradients not yet applied at its end are
    not dropped: with fewer batches than the factor no update is made and the
    gradients add to those already pending, otherwise what is left after the
    last update stays pending for the next epoch. *)
Theorem leftover_gradients_carry_over args (batches : list (batch tensor)) st ep :
  1 <= gradient_accumulation_steps args ->
  (fp16 args = true -> num_train_optimization_steps args <> 0) ->
  exists st1,
    train_epoch args batches st ep = Ok st1 /\
    let n := Z.of_nat (length batches) in
    global_step st1 = global_step st + n / gradient_accumulation_steps args /\
    nb_tr_steps st1 = n /\
    nb_tr_examples st1 = examples_seen batches /\
    saves (ops st1) = saves (ops st) ++ [ep] /\
    (exists l, ops st1 = ops st ++ l ++ [SaveCheckpoint ep]) /\
    Z.of_nat (pending (ops st1)) =
      (if n <? gradient_accumulation_steps args
       then Z.of_nat (pending (ops st)) + n
       else n mod gradient_accumulation_steps args).
Proof.
  intros Hg Ht. unfold Run.train_epoch.
  destruct (batches_run args batches
              {| global_step := global_step st; tr_loss := 0; nb_tr_examples := 0;
                 nb_tr_steps := 0; ops := ops st |} Hg Ht)
    as (st1 & Hst1 & Hgs & Hn & Hx & Hs & Hp).
  cbv zeta in *. cbn [global_step nb_tr_steps nb_tr_examples ops] in *.
  rewrite Hst1. cbn [bind]. eexists. split; [reflexivity|].
  cbn [global_step nb_tr_steps nb_tr_examples ops].
  rewrite saves_app, pending_app, Hs. cbn [foldl].
  split; [done|]. split; [lia|]. split; [lia|]. split; [done|]. split; [|done].
  clear -Hst1.
  assert (G : forall bs s s',
             foldM (fun s ib => train_step args s ib.1 ib.2) s bs = Ok s' ->
             exists l, ops s' = ops s ++ l).
  { induction bs as [|[k b] bs IH]; intros s s'; cbn [foldM].
    - intros [= <-]. exists []. by rewrite app_nil_r.
    - intros (s1 & H1 & H2)%bind_Ok. apply IH in H2 as [l2 ->].
      cbn [fst snd] in H1. unfold Run.train_step in H1.
      destruct (gradient_accumulation_steps args =? 0); [discriminate|].
      destruct ((Z.of_nat k + 1) mod gradient_accumulation_steps args =? 0).
      + apply bind_Ok in H1 as (o2 & Ho2 & [= <-]). cbn [ops].
        destruct (fp16 args).
        * destruct (num_train_optimization_steps args =? 0); [discriminate|].
          inversion Ho2; subst o2. eexists. by rewrite <- !app_assoc.
        * inversion Ho2; subst o2. eexists. by rewrite <- !app_assoc.
      + inversion H1; subst s1. cbn [ops]. eexists. by rewrite <- !app_assoc. }
  apply G in Hst1 as [l ->]. cbn [ops]. exists l. by rewrite <- app_assoc.
Qed.

Lemma epochs_run args (batches : Z -> list (batch tensor)) st (epochs : nat) :
  1 <= gradient_accumulation_steps args ->
  (fp16 args = true -> num_train_optimization_steps args <> 0) ->
  exists st',
    foldM (fun s ep => train_epoch args (batches ep) s ep) st
          (map Z.of_nat (seq 0 epochs)) = Ok st' /\
    global_step st' =
      global_step st +
      updates_in (gradient_accumulation_steps args)
                 (fun ep => length (batches ep)) epochs /\
    saves (ops st') = saves (ops st) ++ map Z.of_nat (seq 0 epochs) /\
    (epochs = 0%nat -> st' = st) /\
    (forall n, epochs = S n ->
               nb_tr_steps st' = Z.of_nat (length (batches (Z.of_nat n))) /\
               nb_tr_examples st' = examples_seen (batches (Z.of_nat n))).
Proof.
  intros Hg Ht. induction epochs as [|n IH].
  - exists st. cbn [seq map foldM updates_in]. rewrite app_nil_r.
    split; [done|]. split; [lia|]. split; [done|]. split; [done|]. intros n Hn.
    discriminate Hn.
  - destruct IH as (st1 & Hst1 & Hgs & Hs & _).
    rewrite seq_S, map_app, foldM_app, Hst1. cbn [bind map foldM Nat.add].
    pose proof (batches_run args (batches (Z.of_nat n))
                  {| global_step := global_step st1; tr_loss := 0; nb_tr_examples := 0;
                     nb_tr_steps := 0; ops := ops st1 |} Hg Ht)
      as (st2 & Hst2 & Hgs2 & Hn2 & Hx2 & Hs2 & _).
    cbv zeta in *. cbn [global_step nb_tr_steps nb_tr_examples ops] in *.
    unfold Run.train_epoch. rewrite Hst2. cbn [bind]. eexists. split; [reflexivity|].
    cbn [global_step nb_tr_steps nb_tr_examples ops updates_in].
    rewrite saves_app, Hs2, Hs. cbn [saves omap].
    split; [lia|]. split; [by rewrite <- app_assoc|]. split; [discriminate|].
    intros m [= <-]. split; lia.
Qed.

(** X20. A training run of [E] epochs always completes when the accumulation
    factor is at least 1 (and the step count is not 0 under fp16).  It makes
    [floor(batches / factor)] updates in each epoch, saves one checkpoint per
    epoch, tagged 0 to [E - 1] in this order whatever was resumed, and leaves
    the step and example counters of the last epoch only; with no epoch it
    does nothing. *)
Theorem epochs_and_checkpoints args (batches : Z -> list (batch tensor)) st :
  1 <= gradient_accumulation_steps args ->
  (fp16 args = true -> num_train_optimization_steps args <> 0) ->
  exists st',
    train args batches st = Ok st' /\
    let epochs := Z.to_nat (num_train_epochs args) in
    global_step st' =
      global_step st +
      updates_in (gradient_accumulation_steps args)
                 (fun ep => length (batches ep)) epochs /\
    saves (ops st') = saves (ops st) ++ map Z.of_nat (seq 0 epochs) /\
    (num_train_epochs args <= 0 -> st' = st) /\
    (1 <= num_train_epochs args ->
     nb_tr_steps st' =
       Z.of_nat (length (batches (num_train_epochs args - 1))) /\
     nb_tr_examples st' = examples_seen (batches (num_train_epochs args - 1))).
Proof.
  intros Hg Ht. unfold Run.train.
  destruct (epochs_run args batches st (Z.to_nat (num_train_epochs args)) Hg Ht)
    as (st' & Hst' & Hgs & Hs & H0 & Hlast).
  exists st'. split; [done|]. cbv zeta. split; [done|]. split; [done|]. split.
  - intros Hle. apply H0. lia.
  - intros Hge. destruct (Z.to_nat (num_train_epochs args)) as [|n] eqn:Hn; [lia|].
    replace (num_train_epochs args - 1) with (Z.of_nat n) by lia. by apply Hlast.
Qed.

End Epochs.

(** *** A run after a run *)

Lemma match_here_missing (c : N) (pat s : pystr) :
  c ∈ pat -> c <> DOT -> c ∉ s -> match_here pat s = false.
Proof.
  intros Hin Hdot. revert s.
  induction pat as [|p pat IH]; intros s Hs; [by apply elem_of_nil in Hin|].
  destruct s as [|x s]; [done|]. cbn [match_here].
  apply not_elem_of_cons in Hs as [Hx Hs].
  apply elem_of_cons in Hin as [<-|Hin].
  - unfold char_matches. replace (N.eqb c DOT) with false
      by (symmetry; by apply N.eqb_neq).
    by replace (N.eqb c x) with false by (symmetry; by apply N.eqb_neq).
  - rewrite (IH Hin s Hs). apply andb_false_r.
Qed.

Lemma re_search_missing (c : N) (pat s : pystr) :
  c ∈ pat -> c <> DOT -> c ∉ s -> re_search pat s = false.
Proof.
  intros Hin Hdot. induction s as [|x s IH]; intros Hs; cbn [re_search].
  - by rewrite (match_here_missing c).
  - rewrite (match_here_missing c) by done. cbn [orb].
    apply IH. by apply not_elem_of_cons in Hs as [_ Hs].
Qed.

Lemma digits_chars d x : x ∈ digits d -> x ∈ lit "0123456789".
Proof.
  induction d; simpl; [by intros H%elem_of_nil|..];
    (intros [->|H]%elem_of_cons; [apply (bool_decide_unpack _); vm_compute; exact I|auto]).
Qed.

Lemma py_str_chars z x : x ∈ py_str z -> x ∈ lit "-0123456789".
Proof.
  unfold py_str. destruct (Z.to_int z).
  - intros H%digits_chars. by right.
  - intros [->|H]%elem_of_cons; [by left | right; by eapply digits_chars].
Qed.

Section Restart.

Variable tensor : Type.
Variable mean : tensor -> tensor.
Variable div : tensor -> Z -> tensor.
Variable item : tensor -> Q.
Variable warmup_linear : Q -> Q -> Q.
Variable WEIGHTS_NAME CONFIG_NAME OPTIMIZER_NAME : pystr.

Local Abbreviation train := (train tensor mean div item warmup_linear).
Local Abbreviation resume := (resume WEIGHTS_NAME CONFIG_NAME OPTIMIZER_NAME).
Local Abbreviation files_written :=
  (files_written WEIGHTS_NAME CONFIG_NAME OPTIMIZER_NAME).

(** Character [c] tells the weights files from the other files of a run: it
    is a literal character of the weights name that is in neither other name
    nor in a tag. *)
Definition tells_apart (c : N) : Prop :=
  c ∈ WEIGHTS_NAME /\ c <> DOT /\ (c ∉ OPTIMIZER_NAME) /\ (c ∉ CONFIG_NAME) /\
  (c ∉ lit "_-0123456789").

Lemma not_in_tagged c base z :
  c ∉ base -> c ∉ lit "_-0123456789" -> c ∉ tagged base z.
Proof.
  intros Hb Hc. unfold tagged. rewrite !elem_of_app. intros [H|[H|H]]; [done| |].
  - apply list_elem_of_singleton in H as ->. apply Hc. by left.
  - apply Hc. right. by apply py_str_chars in H.
Qed.

Lemma files_written_elem (l : list (op tensor)) f :
  f ∈ files_written l <->
  (exists ep, ep ∈ saves l /\
              (f = tagged WEIGHTS_NAME ep \/ f = tagged OPTIMIZER_NAME ep \/
               f = tagged CONFIG_NAME ep)) \/
  f = WEIGHTS_NAME \/ f = OPTIMIZER_NAME \/ f = CONFIG_NAME.
Proof.
  unfold Startup.files_written, final_files, saves.
  rewrite elem_of_app, list_elem_of_bind. rewrite !elem_of_cons, elem_of_nil.
  split.
  - intros [(o & Hf & Ho)|H]; [left|right; tauto].
    destruct o as [| | | |ep]; try by apply elem_of_nil in Hf.
    exists ep. split; [apply list_elem_of_omap; by exists (SaveCheckpoint ep)|].
    unfold epoch_files in Hf. rewrite !elem_of_cons, elem_of_nil in Hf. tauto.
  - intros [(ep & Hep & Hf)|H]; [left|right; tauto].
    apply list_elem_of_omap in Hep as (o & Ho & Hep).
    destruct o as [| | | |ep']; try discriminate. inversion Hep; subst ep'.
    exists (SaveCheckpoint ep). split; [|done].
    unfold epoch_files. rewrite !elem_of_cons, elem_of_nil. tauto.
Qed.

(** X21. Training started again on the directory a finished run of [E >= 1]
    epochs has written resumes from the last epoch: the scan finds [E - 1],
    the weights and the optimizer state of that epoch are loaded, with the
    configuration of epoch 0.  The names are such that some literal character
    of the weights name is in neither other name nor in a tag, so that only
    weights files count in the scan. *)
Theorem restart_resumes_last_epoch args (batches : Z -> list (batch tensor)) st
    (rargs : resume_args) (state_there : bool) (c : N) :
  plain_pattern WEIGHTS_NAME ->
  1 <= gradient_accumulation_steps args ->
  (fp16 args = true -> num_train_optimization_steps args <> 0) ->
  1 <= num_train_epochs args ->
  saves (ops st) = [] ->
  tells_apart c ->
  do_train rargs = true ->
  exists st',
    train args batches st = Ok st' /\
    forall dir,
      (forall f, f ∈ dir <-> f ∈ files_written (ops st')) ->
      resume rargs {| output_dir := Some dir; state_dir_exists := state_there |} =
        Ok {| max_epoch := num_train_epochs args - 1;
              student := FromCheckpoint (tagged WEIGHTS_NAME (num_train_epochs args - 1))
                                        (tagged CONFIG_NAME 0);
              optimizer_state :=
                Some (tagged OPTIMIZER_NAME (num_train_epochs args - 1)) |}.
Proof.
  intros _ Hg Ht HE Hs0 (HcW & Hdot & HcO & HcC & Htag) Hdo.
  destruct (epochs_run tensor mean div item warmup_linear args batches st
              (Z.to_nat (num_train_epochs args)) Hg Ht) as (st' & Hst' & _ & Hs & _).
  exists st'. split; [exact Hst'|]. intros dir Hdir.
  rewrite Hs0 in Hs. cbn [app] in Hs.
  set (E := num_train_epochs args) in *.
  assert (Hsaved : forall ep, ep ∈ saves (ops st') <-> 0 <= ep < E).
  { intros ep. rewrite Hs, list_elem_of_fmap. split.
    - intros (n & -> & Hn). apply elem_of_seq in Hn. lia.
    - intros Hep. exists (Z.to_nat ep). split; [lia|]. apply elem_of_seq. lia. }
  assert (Hnot : forall s, c ∉ s -> ~ counts_as_checkpoint WEIGHTS_NAME s).
  { intros s Hc [Hre _]. by rewrite (re_search_missing c) in Hre. }
  assert (Hcanon : forall f, f ∈ dir -> counts_as_checkpoint WEIGHTS_NAME f ->
                             exists e, f = tagged WEIGHTS_NAME e).
  { intros f Hf Hcount. apply Hdir, files_written_elem in Hf
      as [(ep & _ & [->| [->| ->]])|[->|[->| ->]]].
    - eauto.
    - exfalso. apply (Hnot (tagged OPTIMIZER_NAME ep)); [by apply not_in_tagged|done].
    - exfalso. apply (Hnot (tagged CONFIG_NAME ep)); [by apply not_in_tagged|done].
    - by destruct Hcount as [_ Hne].
    - exfalso. by apply (Hnot OPTIMIZER_NAME).
    - exfalso. by apply (Hnot CONFIG_NAME). }
  assert (Hweights : forall e, tagged WEIGHTS_NAME e ∈ dir <-> 0 <= e < E).
  { intros e. rewrite Hdir, files_written_elem. split.
    - intros [(ep & Hep & [H| [H| H]])|[H|[H| H]]].
      + apply tagged_inj in H as ->. by apply Hsaved.
      + exfalso. apply (not_in_tagged c OPTIMIZER_NAME ep HcO Htag).
        rewrite <- H. unfold tagged. apply elem_of_app. by left.
      + exfalso. apply (not_in_tagged c CONFIG_NAME ep HcC Htag).
        rewrite <- H. unfold tagged. apply elem_of_app. by left.
      + by apply tagged_not_base in H.
      + exfalso. apply HcO. rewrite <- H. unfold tagged. apply elem_of_app. by left.
      + exfalso. apply HcC. rewrite <- H. unfold tagged. apply elem_of_app. by left.
    - intros He. left. exists e. split; [by apply Hsaved|by left]. }
  destruct (scan_from WEIGHTS_NAME dir (-1) Hcanon) as (m & Hm & Hge & Hin & Hmax & _).
  assert (Hlast : tagged WEIGHTS_NAME (E - 1) ∈ dir) by (apply Hweights; lia).
  assert (m = E - 1) as ->.
  { pose proof (Hmax _ Hlast). destruct Hin as [->|Hin]; [lia|].
    apply Hweights in Hin. lia. }
  unfold Run.resume.
  assert (nonempty_dir {| output_dir := Some dir; state_dir_exists := state_there |} = true)
    as -> by (unfold nonempty_dir; cbn [output_dir]; destruct dir;
              [by apply elem_of_nil in Hlast|done]).
  unfold entries. cbn [output_dir default]. unfold id.
  rewrite Hdo. cbn [andb]. unfold Run.find_max_epoch. rewrite Hm. cbn [bind].
  rewrite bool_decide_eq_true_2 by done. cbn [bind fst snd].
  rewrite bool_decide_eq_true_2; [done|].
  apply Hdir, files_written_elem. left. exists (E - 1).
  split; [apply Hsaved; lia|]. right. by left.
Qed.

End Restart.

End RunMore.

(** ** Further concrete runs *)

Module MoreScenarios.
Import PyFacts Encoder EncoderSpec Run RunSpec Scenarios.
Import EncoderMore Corpus CorpusSpec Metrics MetricsSpec Startup RunMore.

(** The vocabulary as the data file may give it: the second label without
    the separator. *)
Definition raw_vocabulary : list pystr := [dan4; dan ++ lit "tan2"].

Lemma label_adaptation_witness :
  adapt_label_list raw_vocabulary = Ok vocabulary /\
  length vocabulary = length raw_vocabulary /\
  adapt_label_list vocabulary = Ok vocabulary.
Proof.
  assert (H : adapt_label_list raw_vocabulary = Ok vocabulary) by (vm_compute; reflexivity).
  destruct (label_adaptation raw_vocabulary vocabulary H) as (Hl & _ & _ & Hid).
  split; [exact H|]. split; [exact Hl|exact Hid].
Defined.

Lemma empty_label_rejected_witness :
  [] ∈ [dan4; []] /\
  convert_examples_to_features first_code_point_ids (fun q => q) corpus [dan4; []] 8 =
    Raise IndexError.
Proof.
  assert (Hin : [] ∈ [dan4; ([] : pystr)]) by (right; left).
  split; [exact Hin|].
  exact (empty_label_rejected first_code_point_ids (fun q => q) corpus [dan4; []] 8 Hin).
Defined.


Lemma short_window_rejects_witness :
  exists enc,
    convert_examples_to_features first_code_point_ids (fun q => q) corpus vocabulary 8 =
      Ok enc /\
    0 <= 8 /\ (corpus <> [] -> 2 <= 8).
Proof.
  destruct (convert_examples_to_features first_code_point_ids (fun q => q) corpus
              vocabulary 8) as [enc|e] eqn:H; [|vm_compute in H; discriminate H].
  exists enc. split; [reflexivity|].
  exact (short_window_rejects first_code_point_ids (fun q => q) corpus vocabulary 8 enc H).
Defined.

Lemma label_map_round_trip_witness :
  adapt_label_list raw_vocabulary = Ok vocabulary /\
  build_label_map vocabulary !! lit "_" = Some (-1) /\
  build_label_map vocabulary !! tan2 = Some 1.
Proof.
  assert (H : adapt_label_list raw_vocabulary = Ok vocabulary) by (vm_compute; reflexivity).
  destruct (label_map_round_trip raw_vocabulary vocabulary H) as (Hu & _ & _ & Hnd).
  split; [exact H|]. split; [exact Hu|].
  assert (Hn : NoDup vocabulary) by (apply (bool_decide_unpack _); vm_compute; exact I).
  exact (Hnd Hn 1%nat tan2 eq_refl).
Defined.

Lemma annotations_accounted_witness :
  exists enc,
    convert_examples_to_features first_code_point_ids (fun q => q) corpus vocabulary 8 =
      Ok enc /\
    total (enc_label_count enc) + skipped (enc_log enc) = annotations corpus /\
    annotations corpus = 4.
Proof.
  destruct (convert_examples_to_features first_code_point_ids (fun q => q) corpus
              vocabulary 8) as [enc|e] eqn:H; [|vm_compute in H; discriminate H].
  exists enc. split; [reflexivity|]. split; [|reflexivity].
  exact (annotations_accounted first_code_point_ids (fun q => q) corpus vocabulary 8 enc H).
Defined.

Lemma label_ids_valid_witness :
  exists enc,
    convert_examples_to_features first_code_point_ids (fun q => q) corpus vocabulary 8 =
      Ok enc /\
    Forall2 (fun ex f =>
               forall k v, label_id f !! k = Some v ->
                 valid_entry (enc_label_list enc) (wrap_tokens 8 (text ex))
                   (Forall (fun il => -1 <= il.1) (label ex)) k v)
            corpus (enc_features enc).
Proof.
  destruct (convert_examples_to_features first_code_point_ids (fun q => q) corpus
              vocabulary 8) as [enc|e] eqn:H; [|vm_compute in H; discriminate H].
  exists enc. split; [reflexivity|].
  exact (label_ids_valid first_code_point_ids (fun q => q) corpus vocabulary 8 enc H).
Defined.

(** An example whose annotation matches its token with a reading that the
    vocabulary does not have. *)
Definition dan1 : pystr := [24377%N; TAB] ++ lit "dan1".

Definition example_unknown : InputExample :=
  {| guid := lit "0-0"; text := [dan]; char := dan; label := [(0, dan1)]; position := 0 |}.

Lemma unknown_label_aborts_witness :
  (dan1 ∉ vocabulary) /\
  exists e, convert_examples_to_features first_code_point_ids (fun q => q)
              [example1; example_unknown] vocabulary 8 = Raise e.
Proof.
  assert (Hnot : dan1 ∉ vocabulary) by (apply (bool_decide_unpack _); vm_compute; exact I).
  split; [exact Hnot|].
  apply (unknown_label_aborts first_code_point_ids (fun q => q)
           [example1; example_unknown] vocabulary vocabulary 8 example_unknown 0 dan1 dan1).
  - vm_compute. reflexivity.
  - right. left.
  - left.
  - vm_compute. reflexivity.
  - vm_compute. reflexivity.
  - exact Hnot.
Defined.

Lemma annotation_reads_text_witness :
  2 <= 8 /\ getitem (wrap_tokens 8 (text example1)) (1 + 1) = Ok dan.
Proof.
  assert (H : 2 <= 8) by lia. split; [exact H|].
  destruct (proj1 (annotation_reads_text 8 (text example1) 1 H)) as (t & Ht & Hg).
  - vm_compute. split; [discriminate|reflexivity].
  - vm_compute. reflexivity.
  - vm_compute in Ht. inversion Ht; subst t. exact Hg.
Defined.

Lemma returned_shapes_witness :
  exists enc,
    convert_examples_to_features first_code_point_ids (fun q => q) corpus vocabulary 8 =
      Ok enc /\
    length (enc_label_count enc) = length vocabulary /\
    exists w, enc_weight enc = replicate 8 w /\ length w = length vocabulary.
Proof.
  destruct (convert_examples_to_features first_code_point_ids (fun q => q) corpus
              vocabulary 8) as [enc|e] eqn:H; [|vm_compute in H; discriminate H].
  exists enc. split; [reflexivity|].
  destruct (returned_shapes first_code_point_ids (fun q => q) corpus vocabulary 8 enc H)
    as (_ & Hw & Hc & _).
  split; [exact Hc|exact Hw].
Defined.

(** Two records of the data file, the second without its position. *)
Definition record_full : gmap pystr Z :=
  <[lit "text" := 1]> (<[lit "phone" := 2]> (<[lit "position" := 3]>
    (<[lit "char" := 4]> ∅))).

Definition record_partial : gmap pystr Z :=
  <[lit "text" := 1]> (<[lit "phone" := 2]> (<[lit "char" := 4]> ∅)).

Lemma examples_from_records_witness :
  (exists examples,
     _create_examples [record_full; record_full] = Ok examples /\
     length examples = 2%nat) /\
  _create_examples [record_full; record_partial] = Raise (KeyError (lit "position")) /\
  exists i dct k,
    [record_full; record_partial] !! i = Some dct /\
    KeyError (lit "position") = KeyError k /\ dct !! k = None.
Proof.
  split.
  - destruct (_create_examples [record_full; record_full]) as [exs|e] eqn:H;
      [|vm_compute in H; discriminate H].
    exists exs. split; [reflexivity|].
    exact (proj1 (proj1 (examples_from_records [record_full; record_full]) exs H)).
  - assert (H : _create_examples [record_full; record_partial] =
                Raise (KeyError (lit "position"))) by (vm_compute; reflexivity).
    split; [exact H|].
    destruct (proj2 (examples_from_records [record_full; record_partial]) _ H)
      as (i & dct & k & Hi & He & _ & Hnone & _).
    exists i, dct, k. split; [exact Hi|]. split; [exact He|exact Hnone].
Defined.

Lemma guids_distinct_witness :
  exists examples,
    _create_examples [record_full; record_full] = Ok examples /\
    NoDup (raw_guid <$> examples).
Proof.
  destruct (_create_examples [record_full; record_full]) as [exs|e] eqn:H;
    [|vm_compute in H; discriminate H].
  exists exs. split; [reflexivity|].
  exact (guids_distinct [record_full; record_full] exs H).
Defined.

(** Scores of two positions over three classes, the first with a tie, and
    the labels of two sequences of length 4. *)
Definition scores : array2 Q :=
  {| columns := 3; rows := [[1; 5; 5]; [2; 1; 0]]%Q |}.

Definition label_rows : array2 Z :=
  {| columns := 4; rows := [[-1; 1; -1; -1]; [-1; -1; -1; -1]] |}.

Lemma accuracy_list_marks_witness :
  well_shaped scores /\
  exists st,
    accuracy_list scores label_rows [1; 2] = Ok st /\
    length (res st) = 2%nat /\
    u_position <$> printed st = [2].
Proof.
  assert (Hs : well_shaped scores) by (repeat constructor).
  split; [exact Hs|].
  destruct (accuracy_list scores label_rows [1; 2]) as [st|e] eqn:H;
    [|vm_compute in H; discriminate H].
  exists st. split; [reflexivity|].
  destruct (accuracy_list_marks scores label_rows [1; 2] st Hs H) as (Hl & _ & Hp).
  split; [exact Hl|exact Hp].
Defined.

Definition scores3 : array2 Q :=
  {| columns := 2; rows := [[1; 0]; [0; 1]; [1; 1]]%Q |}.

Lemma accuracy_list_on_features_witness :
  Forall (fun ex => -1 <= position ex) corpus /\
  exists enc st,
    convert_examples_to_features first_code_point_ids (fun q => q) corpus vocabulary 8 =
      Ok enc /\
    accuracy_list scores3
      {| columns := Z.to_nat 8; rows := label_id <$> enc_features enc |}
      (label_pos <$> enc_features enc) = Ok st /\
    length (res st) = length corpus.
Proof.
  assert (Hpos : Forall (fun ex => -1 <= position ex) corpus)
    by (repeat constructor; vm_compute; discriminate).
  split; [exact Hpos|].
  destruct (convert_examples_to_features first_code_point_ids (fun q => q) corpus
              vocabulary 8) as [enc|e] eqn:H; [|vm_compute in H; discriminate H].
  assert (Hlen : length (rows scores3) = length (enc_features enc)).
  { vm_compute in H. inversion H; subst enc. reflexivity. }
  destruct (accuracy_list_on_features first_code_point_ids (fun q => q) corpus vocabulary 8
              enc scores3 H Hpos ltac:(discriminate) Hlen) as (st & Hst & Hres).
  exists enc, st. split; [reflexivity|]. split; [exact Hst|exact Hres].
Defined.

(** Step counts over rationals. *)
Definition rational_plan :=
  plan Q (fun a b => (inject_Z a / inject_Z b)%Q) (fun x n => (x / inject_Z n)%Q)
       Qmult (fun q => - ((- Qnum q) / Z.pos (Qden q))).

Lemma plan_outcomes_witness :
  rational_plan 4 32 true false 1000 3%Q None = Ok (8, Some 94) /\
  (exists msg, rational_plan 0 32 true false 1000 3%Q None = Raise (ValueError msg)) /\
  rational_plan 4 2 true false 1000 3%Q None = Raise ZeroDivisionError.
Proof.
  split; [vm_compute; reflexivity|]. split.
  - apply (proj1 (plan_outcomes Q (fun a b => (inject_Z a / inject_Z b)%Q)
                    (fun x n => (x / inject_Z n)%Q) Qmult
                    (fun q => - ((- Qnum q) / Z.pos (Qden q)))
                    0 32 true false 1000 3%Q None)).
    lia.
  - apply (proj2 (proj2 (plan_outcomes Q (fun a b => (inject_Z a / inject_Z b)%Q)
                           (fun x n => (x / inject_Z n)%Q) Qmult
                           (fun q => - ((- Qnum q) / Z.pos (Qden q)))
                           4 2 true false 1000 3%Q None))); [lia|lia|reflexivity].
Defined.

Lemma weights_name_plain : plain_pattern weights_name.
Proof. apply (bool_decide_unpack _). vm_compute. exact I. Defined.

Lemma epoch_tag_round_trip_witness :
  plain_pattern weights_name /\
  py_int (last_field (tagged weights_name 12)) = Ok 12 /\
  re_search weights_name (tagged weights_name 12) = true.
Proof.
  split; [exact weights_name_plain|].
  destruct (epoch_tag_round_trip weights_name 12 weights_name_plain) as (H1 & H2 & _).
  split; [exact H1|exact H2].
Defined.

(** An output directory with a checkpoint and a copy of the weights file. *)
Definition with_copy : list pystr := [tagged weights_name 0; lit "pytorch_model.bin.bak"].


Lemma resume_loads_existing_files_witness :
  exists r,
    resume weights_name config_name optimizer_name train_again
      {| output_dir := Some three_epochs; state_dir_exists := false |} = Ok r /\
    forall o, optimizer_state r = Some o ->
              o = tagged optimizer_name (max_epoch r) /\ o ∈ three_epochs.
Proof.
  destruct (resume weights_name config_name optimizer_name train_again
              {| output_dir := Some three_epochs; state_dir_exists := false |})
    as [r|e] eqn:H; [|vm_compute in H; discriminate H].
  exists r. split; [reflexivity|].
  exact (proj1 (resume_loads_existing_files weights_name config_name optimizer_name
                  train_again
                  {| output_dir := Some three_epochs; state_dir_exists := false |}
                  r weights_name_plain H)).
Defined.

Definition rational_epoch :=
  train_epoch Q (fun x => x) (fun x n => (x / inject_Z n)%Q) (fun x => x)
    warmup_linear_ramp.

Definition rational_train :=
  train Q (fun x => x) (fun x n => (x / inject_Z n)%Q) (fun x => x) warmup_linear_ramp.

Definition three_batches : list (batch Q) := [unit_batch; unit_batch; unit_batch].

Lemma leftover_gradients_carry_over_witness :
  1 <= gradient_accumulation_steps args_fp32 /\
  exists st1,
    rational_epoch args_fp32 three_batches fresh 0 = Ok st1 /\
    global_step st1 = 1 /\
    Z.of_nat (pending (ops st1)) = 1.
Proof.
  assert (Hg : 1 <= gradient_accumulation_steps args_fp32) by (vm_compute; discriminate).
  split; [exact Hg|].
  destruct (leftover_gradients_carry_over Q (fun x => x) (fun x n => (x / inject_Z n)%Q)
              (fun x => x) warmup_linear_ramp args_fp32 three_batches fresh 0 Hg)
    as (st1 & Hst1 & Hgs & _ & _ & _ & _ & Hp).
  - intros Hfp. discriminate Hfp.
  - exists st1. split; [exact Hst1|]. split; [exact Hgs|exact Hp].
Defined.

Lemma epochs_and_checkpoints_witness :
  1 <= gradient_accumulation_steps args_fp32 /\
  exists st',
    rational_train args_fp32 (fun _ => three_batches) fresh = Ok st' /\
    global_step st' = 3 /\
    saves (ops st') = [0; 1; 2].
Proof.
  assert (Hg : 1 <= gradient_accumulation_steps args_fp32) by (vm_compute; discriminate).
  split; [exact Hg|].
  destruct (epochs_and_checkpoints Q (fun x => x) (fun x n => (x / inject_Z n)%Q)
              (fun x => x) warmup_linear_ramp args_fp32 (fun _ => three_batches) fresh Hg)
    as (st' & Hst' & Hgs & Hs & _).
  - intros Hfp. discriminate Hfp.
  - exists st'. split; [exact Hst'|]. split; [exact Hgs|exact Hs].
Defined.

Lemma restart_resumes_last_epoch_witness :
  tells_apart weights_name config_name optimizer_name 121%N /\
  exists st',
    rational_train args_fp32 (fun _ => three_batches) fresh = Ok st' /\
    resume weights_name config_name optimizer_name train_again
      {| output_dir := Some (files_written weights_name config_name optimizer_name (ops st'));
         state_dir_exists := false |} =
      Ok {| max_epoch := 2;
            student := FromCheckpoint (tagged weights_name 2) (tagged config_name 0);
            optimizer_state := Some (tagged optimizer_name 2) |}.
Proof.
  assert (Hc : tells_apart weights_name config_name optimizer_name 121%N).
  { split; [apply (bool_decide_unpack _); vm_compute; exact I|].
    split; [discriminate|].
    split; [apply (bool_decide_unpack _); vm_compute; exact I|].
    split; apply (bool_decide_unpack _); vm_compute; exact I. }
  split; [exact Hc|].
  destruct (restart_resumes_last_epoch Q (fun x => x) (fun x n => (x / inject_Z n)%Q)
              (fun x => x) warmup_linear_ramp weights_name config_name optimizer_name
              args_fp32 (fun _ => three_batches) fresh train_again false 121%N
              weights_name_plain) as (st' & Hst' & Hres).
  - vm_compute. discriminate.
  - intros Hfp. discriminate Hfp.
  - vm_compute. discriminate.
  - reflexivity.
  - exact Hc.
  - reflexivity.
  - exists st'. split; [exact Hst'|]. apply Hres. intros f. reflexivity.
Defined.

End MoreScenarios.
